(** * UserAccountCommunication: the account session orchestrator of PrusaSlicer

    A shallow embedding of [src/slic3r/GUI/UserAccountCommunication.cpp]:
    the redirect-code extraction, the refresh timer arithmetic, the PKCE
    verifier/challenge generator, the secret-store persistence, the
    constructor's token recovery and the worker thread with its control flags.

    Conventions.
    - [std::string] is a list of characters ([list ascii]); [s !! i] is [s[i]].
    - [size_t] is an unsigned 64-bit integer, [int] a signed 32-bit integer and
      [long long] a signed 64-bit integer, all carried by [Z] with the
      wrap-around written out.
    - Members of the C++ classes keep their names ([m_thread_stop], ...). *)

From Stdlib Require Import ZArith List Ascii String Bool Lia DecimalString.
From stdpp Require Import base decidable option list gmap strings.
Import ListNotations.

Local Open Scope Z_scope.

(** ** Characters and strings *)

Abbreviation std_string := (list ascii).

(** String literals of the source, as [std::string] values. *)
Definition lit (s : string) : std_string := list_ascii_of_string s.

(** The numeric value of a [char], as an unsigned byte. *)
Definition char_code (c : ascii) : Z := Z.of_N (N_of_ascii c).

Definition char_eqb (a b : ascii) : bool := Ascii.eqb a b.

(** ** Results of calls

    A call returns, throws, or runs into undefined behaviour. *)

Inductive exception : Type :=
| std_exception (what : std_string)
| invalid_argument (what : std_string)
| out_of_range (what : std_string).

Inductive result (A : Type) : Type :=
| Returns (a : A)
| Throws (e : exception)
| Undefined.
Arguments Returns {A} a.
Arguments Throws {A} e.
Arguments Undefined {A}.

Definition bind {A B : Type} (c : result A) (k : A -> result B) : result B :=
  match c with
  | Returns a => k a
  | Throws e => Throws e
  | Undefined => Undefined
  end.

Notation "x <- c ; k" := (bind c (fun x => k))
  (at level 20, c at level 100, k at level 200, only parsing).

(** ** Machine integers *)

Module MachineInt.

Definition size_t_modulus : Z := 2 ^ 64.

(** [std::string::npos], i.e. [(size_t)-1]. *)
Definition npos : Z := size_t_modulus - 1.

(** Unsigned 64-bit wrap-around of [size_t] arithmetic. *)
Definition wrap_size_t (z : Z) : Z := z mod size_t_modulus.

Definition INT_MIN : Z := - 2 ^ 31.
Definition INT_MAX : Z := 2 ^ 31 - 1.

(** Two's complement wrap-around into the range of [int].  The language
    leaves signed overflow undefined; the processors that the application
    is built for wrap around. *)
Definition wrap_int (z : Z) : Z := (z + 2 ^ 31) mod 2 ^ 32 - 2 ^ 31.

Definition int_mul (a b : Z) : Z := wrap_int (a * b).
Definition int_sub (a b : Z) : Z := wrap_int (a - b).

Definition in_int (z : Z) : Prop := INT_MIN <= z <= INT_MAX.

Definition LLONG_MIN : Z := - 2 ^ 63.
Definition LLONG_MAX : Z := 2 ^ 63 - 1.

Definition wrap_llong (z : Z) : Z := (z + 2 ^ 63) mod 2 ^ 64 - 2 ^ 63.

(** [std::max(a, b)] is [(a < b) ? b : a]. *)
Definition std_max (a b : Z) : Z := if a <? b then b else a.

End MachineInt.

(** ** Extraction of the authorization code from the redirect payload *)

Module CodeFromMessage.
Import MachineInt.

(** [traits_type::compare(data() + pos, pat, n) == 0]: the [n = |pat|]
    characters of [s] starting at [pos] are those of [pat]. *)
Definition matches_at (s pat : std_string) (pos : nat) : bool :=
  bool_decide (take (length pat) (drop pos s) = pat).

(** The backward scan of [std::string::rfind]:
    [do { if (match at pos) return pos; } while (pos-- > 0);]. *)
Fixpoint rfind_scan (s pat : std_string) (pos : nat) : Z :=
  if matches_at s pat pos then Z.of_nat pos
  else match pos with
       | O => npos
       | S p => rfind_scan s pat p
       end.

(** [s.rfind(pat)] with the default start position [npos]: the index of the
    last occurrence of [pat] in [s], or [npos] when there is none. *)
Definition rfind (s pat : std_string) : Z :=
  if (length pat <=? length s)%nat
  then rfind_scan s pat (length s - length pat)
  else npos.

(** The test of the source on one character:
    [(c >= 'A' && c <= 'Z') || (c >= 'a' && c <= 'z') || (c >= '0' && c <= '9')].
    Characters above 127 fail all three comparisons whether [char] is signed
    or not, so the unsigned code decides the test. *)
Definition is_alnum (c : ascii) : bool :=
  let v := char_code c in
  ((char_code "A" <=? v) && (v <=? char_code "Z"))
  || ((char_code "a" <=? v) && (v <=? char_code "z"))
  || ((char_code "0" <=? v) && (v <=? char_code "9")).

(** The [for] loop of the source, [i] running over [size_t] indices.  One unit
    of fuel is one iteration; [i < size] bounds the number of iterations, and
    [i++] cannot wrap below the size of a string. *)
Fixpoint code_loop (fuel : nat) (url_message : std_string) (i : Z)
    (out : std_string) : std_string :=
  match fuel with
  | O => out
  | S fuel' =>
      if i <? Z.of_nat (length url_message) then
        match url_message !! Z.to_nat i with
        | Some c =>
            if is_alnum c
            then code_loop fuel' url_message (i + 1) (out ++ [c])
            else out
        | None => out
        end
      else out
  end.

Definition get_code_from_message (url_message : std_string) : std_string :=
  let pos := rfind url_message (lit "code=") in
  code_loop (length url_message) url_message (wrap_size_t (pos + 5)) [].

(** The maximal run of alphanumeric characters at the head of a string. *)
Fixpoint alnum_run (s : std_string) : std_string :=
  match s with
  | c :: s' => if is_alnum c then c :: alnum_run s' else []
  | [] => []
  end.

(** [pat] occurs in [s] at index [p]. *)
Definition occurs_at (s pat : std_string) (p : nat) : Prop :=
  take (length pat) (drop p s) = pat.

End CodeFromMessage.

(** ** The refresh timer *)

Module RefreshTimer.
Import MachineInt.

(** What the orchestrator uses of a [wxTimer]: whether it is running, whether
    it fires once or repeatedly, and its interval in milliseconds. *)
Record wxTimer := {
  timer_running : bool;
  timer_one_shot : bool;
  timer_interval : Z;
}.

Definition new_wxTimer : wxTimer :=
  {| timer_running := false; timer_one_shot := false; timer_interval := 0 |}.

Definition Stop (t : wxTimer) : wxTimer :=
  {| timer_running := false;
     timer_one_shot := timer_one_shot t;
     timer_interval := timer_interval t |}.

Definition Start (milliseconds : Z) (t : wxTimer) : wxTimer :=
  {| timer_running := true; timer_one_shot := false;
     timer_interval := milliseconds |}.

Definition StartOnce (milliseconds : Z) (t : wxTimer) : wxTimer :=
  {| timer_running := true; timer_one_shot := true;
     timer_interval := milliseconds |}.

(** [int miliseconds = std::max(seconds * 1000 - 66666, 60000);]
    in [int] arithmetic. *)
Definition refresh_delay (seconds : Z) : Z :=
  std_max (int_sub (int_mul seconds 1000) 66666) 60000.

(** [set_refresh_time], as a transformer of [m_token_timer]. *)
Definition set_refresh_time (seconds : Z) (m_token_timer : wxTimer) : wxTimer :=
  let m_token_timer := Stop m_token_timer in
  let miliseconds := refresh_delay seconds in
  StartOnce miliseconds m_token_timer.

(** The delay of the specification, over unbounded integers. *)
Definition ideal_delay (seconds : Z) : Z := Z.max (seconds * 1000 - 66666) 60000.

End RefreshTimer.

(** ** base64 of boost::beast, as called by [base64_encode] *)

Module Base64.

Definition get_alphabet : std_string :=
  lit "ABCDEFGHIJKLMNOPQRSTUVWXYZabcdefghijklmnopqrstuvwxyz0123456789+/".

Definition tab (i : Z) : ascii := nth (Z.to_nat i) get_alphabet "="%char.

(** [encoded_size(n) = 4 * ((n + 2) / 3)]. *)
Definition encoded_size (n : Z) : Z := 4 * ((n + 2) / 3).

(** The first of the four characters of a group: [tab[(in[0] & 0xfc) >> 2]].
    A [char] operand is promoted to [int] and masked, which keeps bits of the
    low byte only, so the unsigned code of the character gives the index. *)
Definition enc0 (in0 : ascii) : ascii :=
  tab (Z.shiftr (Z.land (char_code in0) 0xfc) 2).

(** [tab[((in[0] & 0x03) << 4) + ((in[1] & 0xf0) >> 4)]]. *)
Definition enc1 (in0 in1 : ascii) : ascii :=
  tab (Z.shiftl (Z.land (char_code in0) 0x03) 4
       + Z.shiftr (Z.land (char_code in1) 0xf0) 4).

(** [tab[((in[2] & 0xc0) >> 6) + ((in[1] & 0x0f) << 2)]]. *)
Definition enc2 (in1 in2 : ascii) : ascii :=
  tab (Z.shiftr (Z.land (char_code in2) 0xc0) 6
       + Z.shiftl (Z.land (char_code in1) 0x0f) 2).

(** [tab[in[2] & 0x3f]]. *)
Definition enc3 (in2 : ascii) : ascii :=
  tab (Z.land (char_code in2) 0x3f).

(** [encode]: [len / 3] full groups, then the [switch (len % 3)] with its
    padding. *)
Fixpoint encode (input : std_string) : std_string :=
  match input with
  | in0 :: in1 :: in2 :: rest =>
      enc0 in0 :: enc1 in0 in1 :: enc2 in1 in2 :: enc3 in2 :: encode rest
  | [in0; in1] =>
      [enc0 in0; enc1 in0 in1;
       tab (Z.shiftl (Z.land (char_code in1) 0x0f) 2); "="%char]
  | [in0] =>
      [enc0 in0; tab (Z.shiftl (Z.land (char_code in0) 0x03) 4);
       "="%char; "="%char]
  | [] => []
  end.

End Base64.

(** ** The PKCE generator *)

Module CodeChalengeGenerator.
Import MachineInt.

(** [std::replace(output.begin(), output.end(), old_value, new_value)]. *)
Definition replace (old_value new_value : ascii) (output : std_string)
  : std_string :=
  map (fun c => if char_eqb c old_value then new_value else c) output.

(** [while (output.back() == '=') output.pop_back();].  [back()] on an empty
    string is undefined behaviour.  Every iteration removes a character, so
    with more fuel than characters the loop ends (or reaches the empty
    string) before the fuel does. *)
Fixpoint pop_padding (fuel : nat) (output : std_string) : result std_string :=
  match fuel with
  | O => Undefined
  | S fuel' =>
      match last output with
      | None => Undefined
      | Some c =>
          if char_eqb c "="
          then pop_padding fuel' (removelast output)
          else Returns output
      end
  end.

(** [output.resize(n)] on a fresh string, then [encode(&output[0], ...)],
    which overwrites the buffer from its start. *)
Definition resize_and_encode (input : std_string) : std_string :=
  let buffer :=
    repeat zero (Z.to_nat (Base64.encoded_size (Z.of_nat (length input)))) in
  let written := Base64.encode input in
  written ++ drop (length written) buffer.

Definition base64_encode (input : std_string) : result std_string :=
  let output := resize_and_encode input in
  let output := replace "+" "-" output in
  let output := replace "/" "_" output in
  pop_padding (S (length output)) output.

Definition chars : std_string :=
  lit "abcdefghijklmnopqrstuvwxyzABCDEFGHIJKLMNOPQRSTUVWXYZ0123456789".

Section Platform.

(** The digest of the platform (CryptoAPI, CommonCrypto or OpenSSL).  The
    CryptoAPI variant throws when a call fails. *)
Variable sha256 : std_string -> result std_string.

(** [generate_chalenge]: the [try] block runs the digest and the encoding;
    an exception is caught and logged, and [code_challenge] stays
    empty. *)
Definition generate_chalenge (verifier : std_string) : result std_string :=
  match (code_challenge <- sha256 verifier; base64_encode code_challenge) with
  | Returns code_challenge => Returns code_challenge
  | Throws _ => Returns []
  | Undefined => Undefined
  end.

(** What the [catch] block logs, if anything. *)
Definition generate_chalenge_error (verifier : std_string)
  : option std_string :=
  match (code_challenge <- sha256 verifier; base64_encode code_challenge) with
  | Throws (std_exception what)
  | Throws (invalid_argument what)
  | Throws (out_of_range what) =>
      Some (lit "Code Chalenge Generator failed: " ++ what)
  | _ => None
  end.

(** The state of [std::mt19937], its construction from a value of the
    random device, and the call
    [std::uniform_int_distribution<int>(a, b)(gen)], which returns a value
    and advances the engine. *)
Variable mt19937 : Type.
Variable seed : Z -> mt19937.
Variable distribution : Z -> Z -> mt19937 -> Z * mt19937.

(** The [for] loop of [generate_code_verifier].  [chars[k]] outside the
    string is undefined behaviour. *)
Fixpoint verifier_loop (length : nat) (gen : mt19937)
    (code_verifier : std_string) : result std_string :=
  match length with
  | O => Returns code_verifier
  | S length' =>
      let (k, gen) :=
        distribution 0 (Z.of_nat (List.length chars) - 1) gen in
      if (0 <=? k) && (k <? Z.of_nat (List.length chars)) then
        match chars !! Z.to_nat k with
        | Some c => verifier_loop length' gen (code_verifier ++ [c])
        | None => Undefined
        end
      else Undefined
  end.

(** [rd] is the value that [std::random_device] returned for the seed. *)
Definition generate_code_verifier (rd : Z) (length : nat)
  : result std_string :=
  let gen := seed rd in
  verifier_loop length gen [].

Definition generate_verifier (rd : Z) : result std_string :=
  let length := 40%nat in
  generate_code_verifier rd length.

End Platform.

(** The contract of [std::uniform_int_distribution<int>(a, b)]: every value
    it produces lies in [[a, b]]. *)
Definition uniform_int_contract {G : Type}
    (distribution : Z -> Z -> G -> Z * G) : Prop :=
  forall a b g, a <= b -> a <= fst (distribution a b g) <= b.

(** The class [[A-Za-z0-9]]. *)
Definition alphanumeric (c : ascii) : Prop :=
  (char_code "A" <= char_code c <= char_code "Z")
  \/ (char_code "a" <= char_code c <= char_code "z")
  \/ (char_code "0" <= char_code c <= char_code "9").

End CodeChalengeGenerator.

(** ** base64url without padding, after RFC 4648 *)

Module Base64Url.

(** The [k]-th 6-bit digit of a 24-bit group, [k = 3] the most
    significant. *)
Definition sextet (group : Z) (k : Z) : Z := (group / 64 ^ k) mod 64.

Definition group24 (a b c : ascii) : Z :=
  char_code a * 65536 + char_code b * 256 + char_code c.

Definition standard_alphabet : std_string :=
  lit "ABCDEFGHIJKLMNOPQRSTUVWXYZabcdefghijklmnopqrstuvwxyz0123456789+/".

Definition url_alphabet : std_string :=
  lit "ABCDEFGHIJKLMNOPQRSTUVWXYZabcdefghijklmnopqrstuvwxyz0123456789-_".

Definition digit (alphabet : std_string) (v : Z) : ascii :=
  nth (Z.to_nat v) alphabet "="%char.

(** Base64 of RFC 4648, section 4: groups of 24 bits cut into four 6-bit
    digits; a final group of one or two bytes is filled with zero bits and
    padded with ['=']. *)
Fixpoint base64 (bytes : std_string) : std_string :=
  match bytes with
  | a :: b :: c :: rest =>
      let g := group24 a b c in
      digit standard_alphabet (sextet g 3) :: digit standard_alphabet (sextet g 2)
      :: digit standard_alphabet (sextet g 1) :: digit standard_alphabet (sextet g 0)
      :: base64 rest
  | [a; b] =>
      let g := group24 a b zero in
      [digit standard_alphabet (sextet g 3); digit standard_alphabet (sextet g 2);
       digit standard_alphabet (sextet g 1); "="%char]
  | [a] =>
      let g := group24 a zero zero in
      [digit standard_alphabet (sextet g 3); digit standard_alphabet (sextet g 2);
       "="%char; "="%char]
  | [] => []
  end.

Definition url_safe (c : ascii) : ascii :=
  if char_eqb c "+" then "-"%char
  else if char_eqb c "/" then "_"%char
  else c.

(** Removal of all trailing ['='] characters. *)
Fixpoint strip_padding (s : std_string) : std_string :=
  match s with
  | [] => []
  | c :: s' =>
      match strip_padding s' with
      | [] => if char_eqb c "=" then [] else [c]
      | t => c :: t
      end
  end.

(** The challenge of the specification: base64, made URL safe, with the
    padding removed. *)
Definition base64url_nopad (digest : std_string) : std_string :=
  strip_padding (map url_safe (base64 digest)).

(** Base64url written directly (RFC 4648, section 5, padding omitted): the
    URL-safe alphabet and no ['='] at all. *)
Fixpoint base64url_direct (bytes : std_string) : std_string :=
  match bytes with
  | a :: b :: c :: rest =>
      let g := group24 a b c in
      digit url_alphabet (sextet g 3) :: digit url_alphabet (sextet g 2)
      :: digit url_alphabet (sextet g 1) :: digit url_alphabet (sextet g 0)
      :: base64url_direct rest
  | [a; b] =>
      let g := group24 a b zero in
      [digit url_alphabet (sextet g 3); digit url_alphabet (sextet g 2);
       digit url_alphabet (sextet g 1)]
  | [a] =>
      let g := group24 a zero zero in
      [digit url_alphabet (sextet g 3); digit url_alphabet (sextet g 2)]
  | [] => []
  end.

End Base64Url.

(** A linear congruential engine, as a concrete random source for examples:
    the draw is reduced into [[a, b]] and the state advances. *)
Module LcgEngine.

Definition next (g : Z) : Z := (g * 1103515245 + 12345) mod 2 ^ 31.

Definition seed (rd : Z) : Z := rd mod 2 ^ 31.

Definition distribution (a b : Z) (g : Z) : Z * Z :=
  (a + g mod (b - a + 1), next g).

End LcgEngine.

(** ** A reference SHA-256 (FIPS 180-4)

    The platform digest is a parameter of the generator; this executable
    SHA-256 instantiates it in examples. *)

Module Sha256Reference.

Definition w32 (x : Z) : Z := x mod 2 ^ 32.
Definition add32 (x y : Z) : Z := w32 (x + y).
Definition rotr (n x : Z) : Z :=
  w32 (Z.lor (Z.shiftr x n) (Z.shiftl x (32 - n))).
Definition not32 (x : Z) : Z := Z.lxor x 0xffffffff.

Definition Ch (x y z : Z) : Z := Z.lxor (Z.land x y) (Z.land (not32 x) z).
Definition Maj (x y z : Z) : Z :=
  Z.lxor (Z.lxor (Z.land x y) (Z.land x z)) (Z.land y z).
Definition Sigma0 (x : Z) : Z := Z.lxor (Z.lxor (rotr 2 x) (rotr 13 x)) (rotr 22 x).
Definition Sigma1 (x : Z) : Z := Z.lxor (Z.lxor (rotr 6 x) (rotr 11 x)) (rotr 25 x).
Definition sigma0 (x : Z) : Z := Z.lxor (Z.lxor (rotr 7 x) (rotr 18 x)) (Z.shiftr x 3).
Definition sigma1 (x : Z) : Z := Z.lxor (Z.lxor (rotr 17 x) (rotr 19 x)) (Z.shiftr x 10).

Definition is_prime (n : Z) : bool :=
  (1 <? n)
  && forallb (fun d => negb (n mod d =? 0) || (n <=? d))
       (map Z.of_nat (seq 2 20)).

(** The first primes, in order; 311 is the 64th. *)
Definition primes (count : nat) : list Z :=
  take count (filter (fun n => is_prime n = true) (map Z.of_nat (seq 2 310))).

(** The integer cube root, found bit by bit from bit [bits - 1] down. *)
Fixpoint cube_root_from (bits : nat) (n root : Z) : Z :=
  match bits with
  | O => root
  | S bits' =>
      let candidate := root + 2 ^ Z.of_nat bits' in
      cube_root_from bits' n
        (if candidate * candidate * candidate <=? n then candidate else root)
  end.

(** The first 32 bits of the fractional part of the cube root of [p]. *)
Definition cube_root_fraction (p : Z) : Z :=
  w32 (cube_root_from 36 (p * 2 ^ 96) 0).

(** The first 32 bits of the fractional part of the square root of [p]. *)
Definition square_root_fraction (p : Z) : Z :=
  w32 (Z.sqrt (p * 2 ^ 64)).

(** The round constants: the cube-root fractions of the first 64 primes. *)
Definition K : list Z := Eval vm_compute in map cube_root_fraction (primes 64).

(** The working variables [a .. h], also the hash value [H0 .. H7]. *)
Record state := {
  sa : Z; sb : Z; sc : Z; sd : Z; se : Z; sf : Z; sg : Z; sh : Z;
}.

(** The initial hash value: the square-root fractions of the first eight
    primes. *)
Definition initial_hash : state :=
  {| sa := square_root_fraction 2; sb := square_root_fraction 3;
     sc := square_root_fraction 5; sd := square_root_fraction 7;
     se := square_root_fraction 11; sf := square_root_fraction 13;
     sg := square_root_fraction 17; sh := square_root_fraction 19 |}.

(** Big-endian bytes of a number, [n] of them. *)
Fixpoint be_bytes (n : nat) (x : Z) : list Z :=
  match n with
  | O => []
  | S n' => (x / 256 ^ Z.of_nat n') mod 256 :: be_bytes n' x
  end.

Definition be_word (bs : list Z) : Z :=
  fold_left (fun acc b => acc * 256 + b) bs 0.

(** Padding: a one bit, zero bits up to 56 modulo 64 bytes, and the length of
    the message in bits on 64 bits. *)
Definition pad (msg : list Z) : list Z :=
  let len := Z.of_nat (length msg) in
  let zeros := Z.to_nat ((55 - len) mod 64) in
  msg ++ [0x80] ++ repeat 0 zeros ++ be_bytes 8 (8 * len).

(** The words of a block, four bytes each. *)
Fixpoint words (n : nat) (bs : list Z) : list Z :=
  match n with
  | O => []
  | S n' => be_word (take 4 bs) :: words n' (drop 4 bs)
  end.

(** The message schedule, most recent word first: [W_t] is computed from
    [W_(t-2)], [W_(t-7)], [W_(t-15)] and [W_(t-16)]. *)
Fixpoint extend (n : nat) (rev_w : list Z) : list Z :=
  match n with
  | O => rev_w
  | S n' =>
      let w :=
        add32 (add32 (sigma1 (nth 1 rev_w 0)) (nth 6 rev_w 0))
              (add32 (sigma0 (nth 14 rev_w 0)) (nth 15 rev_w 0)) in
      extend n' (w :: rev_w)
  end.

Definition schedule (block : list Z) : list Z :=
  rev (extend 48 (rev (words 16 block))).

Definition round (s : state) (kw : Z * Z) : state :=
  let (k, w) := kw in
  let t1 := add32 (add32 (add32 (sh s) (Sigma1 (se s)))
                        (add32 (Ch (se s) (sf s) (sg s)) k)) w in
  let t2 := add32 (Sigma0 (sa s)) (Maj (sa s) (sb s) (sc s)) in
  {| sa := add32 t1 t2; sb := sa s; sc := sb s; sd := sc s;
     se := add32 (sd s) t1; sf := se s; sg := sf s; sh := sg s |}.

Definition compress (h : state) (block : list Z) : state :=
  let s := fold_left round (combine K (schedule block)) h in
  {| sa := add32 (sa h) (sa s); sb := add32 (sb h) (sb s);
     sc := add32 (sc h) (sc s); sd := add32 (sd h) (sd s);
     se := add32 (se h) (se s); sf := add32 (sf h) (sf s);
     sg := add32 (sg h) (sg s); sh := add32 (sh h) (sh s) |}.

Fixpoint blocks (n : nat) (h : state) (bs : list Z) : state :=
  match n with
  | O => h
  | S n' => blocks n' (compress h (take 64 bs)) (drop 64 bs)
  end.

Definition digest_bytes (h : state) : list Z :=
  be_bytes 4 (sa h) ++ be_bytes 4 (sb h) ++ be_bytes 4 (sc h)
  ++ be_bytes 4 (sd h) ++ be_bytes 4 (se h) ++ be_bytes 4 (sf h)
  ++ be_bytes 4 (sg h) ++ be_bytes 4 (sh h).

Definition char_of_code (b : Z) : ascii := ascii_of_N (Z.to_N b).

Definition sha256_bytes (msg : list Z) : list Z :=
  let padded := pad msg in
  digest_bytes (blocks (length padded / 64) initial_hash padded).

Definition sha256 (input : std_string) : std_string :=
  map char_of_code (sha256_bytes (map char_code input)).

(** The digest as the platform function of the generator: it never throws. *)
Definition platform_sha256 (input : std_string) : result std_string :=
  Returns (sha256 input).

Definition hex_digit (v : Z) : ascii :=
  nth (Z.to_nat v) (lit "0123456789abcdef") "?"%char.

Definition hex (s : std_string) : std_string :=
  flat_map (fun c => [hex_digit (char_code c / 16); hex_digit (char_code c mod 16)]) s.

End Sha256Reference.

(** ** std::stoll, boost::split and std::to_string *)

Module StringUtil.
Import MachineInt.

(** [isspace] in the C locale: space, and [\t \n \v \f \r]. *)
Definition isspace (c : ascii) : bool :=
  let v := char_code c in
  (v =? 32) || ((9 <=? v) && (v <=? 13)).

Definition isdigit (c : ascii) : bool :=
  let v := char_code c in
  (char_code "0" <=? v) && (v <=? char_code "9").

Fixpoint skip_spaces (s : std_string) : std_string :=
  match s with
  | c :: s' => if isspace c then skip_spaces s' else s
  | [] => []
  end.

Fixpoint digits_prefix (s : std_string) : std_string :=
  match s with
  | c :: s' => if isdigit c then c :: digits_prefix s' else []
  | [] => []
  end.

Definition digits_value (ds : std_string) : Z :=
  fold_left (fun acc d => acc * 10 + (char_code d - char_code "0")) ds 0.

(** The sign accepted by [strtoll] in front of the digits. *)
Definition split_sign (s : std_string) : bool * std_string :=
  match s with
  | c :: s' =>
      if char_eqb c "-" then (true, s')
      else if char_eqb c "+" then (false, s')
      else (false, s)
  | [] => (false, [])
  end.

(** [std::stoll(str)] (base 10, no position requested), which is
    [strtoll] with its two failures turned into exceptions: leading white
    space is skipped, an optional sign and the longest run of digits are
    read, and whatever follows is ignored.  No digit at all is
    [std::invalid_argument]; a value outside [long long] is
    [std::out_of_range]. *)
Definition stoll (str : std_string) : result Z :=
  let (negative, rest) := split_sign (skip_spaces str) in
  match digits_prefix rest with
  | [] => Throws (invalid_argument (lit "stoll"))
  | ds =>
      let v := if negative then - digits_value ds else digits_value ds in
      if (LLONG_MIN <=? v) && (v <=? LLONG_MAX)
      then Returns v
      else Throws (out_of_range (lit "stoll"))
  end.

(** [boost::split(result, input, pred, token_compress_off)]: the input is cut
    at every separator; adjacent separators give empty tokens, and the
    result always has one token more than there are separators. *)
Fixpoint split (is_separator : ascii -> bool) (input : std_string)
  : list std_string :=
  match input with
  | [] => [[]]
  | c :: input' =>
      if is_separator c then [] :: split is_separator input'
      else match split is_separator input' with
           | token :: tokens => (c :: token) :: tokens
           | [] => [[c]]
           end
  end.

(** [boost::is_any_of(set)]. *)
Definition is_any_of (set : std_string) (c : ascii) : bool :=
  existsb (char_eqb c) set.

(** [std::to_string] of a signed integer: decimal digits, with a minus sign
    when negative. *)
Definition to_string (value : Z) : std_string :=
  list_ascii_of_string (NilZero.string_of_int (Z.to_int value)).

(** A decimal integer: an optional minus sign, then digits and nothing
    else. *)
Definition is_decimal_integer (s : std_string) : bool :=
  let digits := match s with
                | c :: s' => if char_eqb c "-" then s' else s
                | [] => []
                end in
  negb (Nat.eqb (length digits) 0) && forallb isdigit digits.

End StringUtil.

(** ** The session collaborator, as this translation unit uses it *)

Module Session.

(** The identifiers of [UserAccountActionID] that the orchestrator names. *)
Inductive UserAccountActionID : Type :=
| USER_ACCOUNT_ACTION_DUMMY
| USER_ACCOUNT_ACTION_CONNECT_PRINTER_MODELS
| USER_ACCOUNT_ACTION_CONNECT_STATUS
| USER_ACCOUNT_ACTION_AVATAR
| USER_ACCOUNT_ACTION_CONNECT_DATA_FROM_UUID.

(** A [std::function] callback; the orchestrator only ever passes
    [nullptr]. *)
Inductive callback : Type := Callback (name : std_string).

Definition nullptr : option callback := None.

(** The public members of [UserAccountSession] called by the orchestrator.
    The class is defined in another translation unit: its operations are
    kept abstract, state in, state out. *)
Class UserAccountSession (S : Type) : Type := {
  make_session : std_string -> std_string -> std_string -> bool -> S;
  is_initialized : S -> bool;
  enqueue_action :
    UserAccountActionID -> option callback -> option callback ->
    std_string -> S -> S;
  enqueue_refresh : std_string -> S -> S;
  enqueue_test_with_refresh : S -> S;
  process_action_queue : S -> S;
  init_with_code : std_string -> std_string -> S -> S;
  clear : S -> S;
  get_access_token : S -> std_string;
  get_refresh_token : S -> std_string;
  get_shared_session_key : S -> std_string;
  get_next_token_timeout : S -> Z;
  set_polling_action : UserAccountActionID -> S -> S;
}.

End Session.

(** ** The platform secret store ([wxSecretStore]) *)

Module SecretStore.

Record wxSecretStore := {
  (** [IsOk(&errmsg)] and the message it gives. *)
  IsOk : bool;
  errmsg : std_string;
  (** Whether the platform carries out a [Save]. *)
  accepts_save : bool;
  (** The stored secrets: service [|->] (user name, password). *)
  secrets : gmap std_string (std_string * std_string);
  (** Every [Save] request received, oldest first. *)
  save_requests : list (std_string * std_string * std_string);
}.

Definition Save (service username password : std_string)
    (store : wxSecretStore) : bool * wxSecretStore :=
  let requests := save_requests store ++ [(service, username, password)] in
  if accepts_save store then
    (true,
     {| IsOk := IsOk store; errmsg := errmsg store;
        accepts_save := accepts_save store;
        secrets := <[service := (username, password)]> (secrets store);
        save_requests := requests |})
  else
    (false,
     {| IsOk := IsOk store; errmsg := errmsg store;
        accepts_save := accepts_save store;
        secrets := secrets store;
        save_requests := requests |}).

Definition Load (service : std_string) (store : wxSecretStore)
  : option (std_string * std_string) :=
  secrets store !! service.

End SecretStore.

(** ** The orchestrator *)

Module Orchestrator.
Import MachineInt RefreshTimer StringUtil Session SecretStore.

Inductive severity : Type := info | warning | error.

Inductive wxEvent : Type :=
| EVT_OPEN_PRUSAAUTH (url : std_string)
| EVT_UA_LOGGEDOUT.

(** What lies outside the object: the secret store, the log, the events
    queued on the event handler, the clock ([std::time(nullptr)]) and the
    values that [std::random_device] returns, with the number of those
    already taken. *)
Record Env := {
  secret_store : wxSecretStore;
  log : list (severity * std_string);
  queued_events : list wxEvent;
  clock : Z;
  random_device : nat -> Z;
  random_device_calls : nat;
}.

Definition BOOST_LOG_TRIVIAL (sev : severity) (msg : std_string) (env : Env)
  : Env :=
  {| secret_store := secret_store env;
     log := log env ++ [(sev, msg)];
     queued_events := queued_events env;
     clock := clock env;
     random_device := random_device env;
     random_device_calls := random_device_calls env |}.

Definition wxQueueEvent (evt : wxEvent) (env : Env) : Env :=
  {| secret_store := secret_store env;
     log := log env;
     queued_events := queued_events env ++ [evt];
     clock := clock env;
     random_device := random_device env;
     random_device_calls := random_device_calls env |}.

Definition set_secret_store (store : wxSecretStore) (env : Env) : Env :=
  {| secret_store := store;
     log := log env;
     queued_events := queued_events env;
     clock := clock env;
     random_device := random_device env;
     random_device_calls := random_device_calls env |}.

(** [rd()]: the next value of the random device. *)
Definition draw_random_device (env : Env) : Z * Env :=
  (random_device env (random_device_calls env),
   {| secret_store := secret_store env;
      log := log env;
      queued_events := queued_events env;
      clock := clock env;
      random_device := random_device env;
      random_device_calls := Datatypes.S (random_device_calls env) |}).

(** The data members of [UserAccountCommunication]. *)
Record UserAccountCommunication (S : Type) := {
  m_session : S;
  m_thread_joinable : bool;
  m_thread_stop : bool;
  m_thread_wakeup : bool;
  m_window_is_active : bool;
  m_polling_timer : wxTimer;
  m_token_timer : wxTimer;
  m_code_verifier : std_string;
  m_username : std_string;
  m_remember_session : bool;
}.
Arguments m_session {S} _.
Arguments m_thread_joinable {S} _.
Arguments m_thread_stop {S} _.
Arguments m_thread_wakeup {S} _.
Arguments m_window_is_active {S} _.
Arguments m_polling_timer {S} _.
Arguments m_token_timer {S} _.
Arguments m_code_verifier {S} _.
Arguments m_username {S} _.
Arguments m_remember_session {S} _.

(** The object together with its environment. *)
Record World (S : Type) := {
  this : UserAccountCommunication S;
  env : Env;
}.
Arguments this {S} _.
Arguments env {S} _.
Arguments Build_World {S} _ _.

(** The member initialisers of the header, which is not part of this
    translation unit. *)
Record MemberDefaults := {
  default_thread_stop : bool;
  default_thread_wakeup : bool;
  default_window_is_active : bool;
  default_remember_session : bool;
}.

Section Members.
Context {S : Type}.

Definition set_m_session (v : S) (o : UserAccountCommunication S) :=
  {| m_session := v; m_thread_joinable := m_thread_joinable o;
     m_thread_stop := m_thread_stop o; m_thread_wakeup := m_thread_wakeup o;
     m_window_is_active := m_window_is_active o;
     m_polling_timer := m_polling_timer o; m_token_timer := m_token_timer o;
     m_code_verifier := m_code_verifier o; m_username := m_username o;
     m_remember_session := m_remember_session o |}.

Definition set_m_thread_stop (v : bool) (o : UserAccountCommunication S) :=
  {| m_session := m_session o; m_thread_joinable := m_thread_joinable o;
     m_thread_stop := v; m_thread_wakeup := m_thread_wakeup o;
     m_window_is_active := m_window_is_active o;
     m_polling_timer := m_polling_timer o; m_token_timer := m_token_timer o;
     m_code_verifier := m_code_verifier o; m_username := m_username o;
     m_remember_session := m_remember_session o |}.

Definition set_m_thread_wakeup (v : bool) (o : UserAccountCommunication S) :=
  {| m_session := m_session o; m_thread_joinable := m_thread_joinable o;
     m_thread_stop := m_thread_stop o; m_thread_wakeup := v;
     m_window_is_active := m_window_is_active o;
     m_polling_timer := m_polling_timer o; m_token_timer := m_token_timer o;
     m_code_verifier := m_code_verifier o; m_username := m_username o;
     m_remember_session := m_remember_session o |}.

Definition set_m_window_is_active (v : bool)
    (o : UserAccountCommunication S) :=
  {| m_session := m_session o; m_thread_joinable := m_thread_joinable o;
     m_thread_stop := m_thread_stop o; m_thread_wakeup := m_thread_wakeup o;
     m_window_is_active := v;
     m_polling_timer := m_polling_timer o; m_token_timer := m_token_timer o;
     m_code_verifier := m_code_verifier o; m_username := m_username o;
     m_remember_session := m_remember_session o |}.

Definition set_m_polling_timer (v : wxTimer)
    (o : UserAccountCommunication S) :=
  {| m_session := m_session o; m_thread_joinable := m_thread_joinable o;
     m_thread_stop := m_thread_stop o; m_thread_wakeup := m_thread_wakeup o;
     m_window_is_active := m_window_is_active o;
     m_polling_timer := v; m_token_timer := m_token_timer o;
     m_code_verifier := m_code_verifier o; m_username := m_username o;
     m_remember_session := m_remember_session o |}.

Definition set_m_token_timer (v : wxTimer)
    (o : UserAccountCommunication S) :=
  {| m_session := m_session o; m_thread_joinable := m_thread_joinable o;
     m_thread_stop := m_thread_stop o; m_thread_wakeup := m_thread_wakeup o;
     m_window_is_active := m_window_is_active o;
     m_polling_timer := m_polling_timer o; m_token_timer := v;
     m_code_verifier := m_code_verifier o; m_username := m_username o;
     m_remember_session := m_remember_session o |}.

Definition set_m_code_verifier (v : std_string)
    (o : UserAccountCommunication S) :=
  {| m_session := m_session o; m_thread_joinable := m_thread_joinable o;
     m_thread_stop := m_thread_stop o; m_thread_wakeup := m_thread_wakeup o;
     m_window_is_active := m_window_is_active o;
     m_polling_timer := m_polling_timer o; m_token_timer := m_token_timer o;
     m_code_verifier := v; m_username := m_username o;
     m_remember_session := m_remember_session o |}.

Definition set_m_username (v : std_string)
    (o : UserAccountCommunication S) :=
  {| m_session := m_session o; m_thread_joinable := m_thread_joinable o;
     m_thread_stop := m_thread_stop o; m_thread_wakeup := m_thread_wakeup o;
     m_window_is_active := m_window_is_active o;
     m_polling_timer := m_polling_timer o; m_token_timer := m_token_timer o;
     m_code_verifier := m_code_verifier o; m_username := v;
     m_remember_session := m_remember_session o |}.

Definition set_m_remember_session (v : bool)
    (o : UserAccountCommunication S) :=
  {| m_session := m_session o; m_thread_joinable := m_thread_joinable o;
     m_thread_stop := m_thread_stop o; m_thread_wakeup := m_thread_wakeup o;
     m_window_is_active := m_window_is_active o;
     m_polling_timer := m_polling_timer o; m_token_timer := m_token_timer o;
     m_code_verifier := m_code_verifier o; m_username := m_username o;
     m_remember_session := v |}.

Definition set_m_thread_joinable (v : bool)
    (o : UserAccountCommunication S) :=
  {| m_session := m_session o; m_thread_joinable := v;
     m_thread_stop := m_thread_stop o; m_thread_wakeup := m_thread_wakeup o;
     m_window_is_active := m_window_is_active o;
     m_polling_timer := m_polling_timer o; m_token_timer := m_token_timer o;
     m_code_verifier := m_code_verifier o; m_username := m_username o;
     m_remember_session := m_remember_session o |}.

(** Updates of one side of the world. *)
Definition on_this (f : UserAccountCommunication S -> UserAccountCommunication S)
    (w : World S) : World S :=
  {| this := f (this w); env := env w |}.

Definition on_env (f : Env -> Env) (w : World S) : World S :=
  {| this := this w; env := f (env w) |}.

(** A call on [m_session], made under [m_session_mutex]. *)
Definition on_session (f : S -> S) (w : World S) : World S :=
  on_this (fun o => set_m_session (f (m_session o)) o) w.

End Members.

Section Methods.
Context {S : Type} `{UserAccountSession S}.

(** Build-time values that other files define. *)
Variable wxUSE_SECRETSTORE : bool.
Variable SLIC3R_APP_NAME : std_string.
Variable client_id : std_string.

(** The platform of the PKCE generator. *)
Variable sha256 : std_string -> result std_string.
Variable mt19937 : Type.
Variable seed : Z -> mt19937.
Variable distribution : Z -> Z -> mt19937 -> Z * mt19937.

Variable defaults : MemberDefaults.

(** *** The helpers of the anonymous namespace *)

Definition is_secret_store_ok (e : Env) : bool * Env :=
  if wxUSE_SECRETSTORE then
    let store := secret_store e in
    if negb (IsOk store) then
      (false,
       BOOST_LOG_TRIVIAL warning
         (lit "wxSecretStore is not supported: " ++ errmsg store) e)
    else (true, e)
  else (false, e).

(** [GUI::format("%1% (%2%).", a, b)]. *)
Definition format_parenthesised (a b : std_string) : std_string :=
  a ++ lit " (" ++ b ++ lit ").".

(** [GUI::format_wxstr(L"%1%/PrusaAccount/%2%", SLIC3R_APP_NAME, opt)]. *)
Definition service_name (opt : std_string) : std_string :=
  SLIC3R_APP_NAME ++ lit "/PrusaAccount/" ++ opt.

Definition save_secret (opt usr psswd : std_string) (e : Env) : bool * Env :=
  if wxUSE_SECRETSTORE then
    let store := secret_store e in
    if negb (IsOk store) then
      let msg :=
        format_parenthesised
          (lit "This system doesn't support storing passwords securely")
          (errmsg store) in
      (false, BOOST_LOG_TRIVIAL error msg e)
    else
      let service := service_name opt in
      let username := usr in
      let password := psswd in
      let (saved, store) := Save service username password store in
      let e := set_secret_store store e in
      if negb saved then
        let msg :=
          lit "Failed to save credentials to the system secret store." in
        (false, BOOST_LOG_TRIVIAL error msg e)
      else (true, e)
  else
    (false,
     BOOST_LOG_TRIVIAL error
       (lit "wxUSE_SECRETSTORE not supported. Cannot save password to the system store.")
       e).

(** [load_secret(opt, usr, psswd)]: the result carries the values of the two
    reference parameters after the call; a failed load leaves them as they
    were. *)
Definition load_secret (opt usr psswd : std_string) (e : Env)
  : (bool * std_string * std_string) * Env :=
  if wxUSE_SECRETSTORE then
    let store := secret_store e in
    if negb (IsOk store) then
      let msg :=
        format_parenthesised
          (lit "This system doesn't support storing passwords securely")
          (errmsg store) in
      ((false, usr, psswd), BOOST_LOG_TRIVIAL error msg e)
    else
      let service := service_name opt in
      match Load service store with
      | None =>
          let msg :=
            lit "Failed to load credentials from the system secret store." in
          ((false, usr, psswd), BOOST_LOG_TRIVIAL error msg e)
      | Some (username, password) => ((true, username, password), e)
      end
  else
    ((false, usr, psswd),
     BOOST_LOG_TRIVIAL error
       (lit "wxUSE_SECRETSTORE not supported. Cannot load password from the system store.")
       e).

(** *** Control flags and timers *)

(** [wakeup_session_thread]: the flag is set under [m_thread_stop_mutex];
    [notify_all] makes the waiting worker evaluate its predicate again and
    has no state of its own. *)
Definition wakeup_session_thread (w : World S) : World S :=
  on_this (set_m_thread_wakeup true) w.

Definition on_activate_window (active : bool) (w : World S) : World S :=
  on_this (set_m_window_is_active active) w.

Definition set_refresh_time (seconds : Z) (w : World S) : World S :=
  on_this
    (fun o =>
       set_m_token_timer
         (RefreshTimer.set_refresh_time seconds (m_token_timer o)) o)
    w.

(** *** Persistence *)

Definition set_username (username : std_string) (w : World S) : World S :=
  let w := on_this (set_m_username username) w in
  let (ok, e) := is_secret_store_ok (env w) in
  let w := on_env (fun _ => e) w in
  if ok then
    let session := m_session (this w) in
    let tokens :=
      if m_remember_session (this w) then
        get_access_token session
        ++ lit "|" ++ get_refresh_token session
        ++ lit "|" ++ to_string (get_next_token_timeout session)
      else [] in
    let (_, e) :=
      save_secret (lit "tokens") (get_shared_session_key session) tokens
        (env w) in
    on_env (fun _ => e) w
  else w.

Definition set_remember_session (b : bool) (w : World S) : World S :=
  let w := on_this (set_m_remember_session b) w in
  set_username (m_username (this w)) w.

Definition set_polling_enabled (enabled : bool) (w : World S) : World S :=
  on_session
    (set_polling_action
       (if enabled then USER_ACCOUNT_ACTION_CONNECT_PRINTER_MODELS
        else USER_ACCOUNT_ACTION_DUMMY))
    w.

Definition on_uuid_map_success (w : World S) : World S :=
  on_session (set_polling_action USER_ACCOUNT_ACTION_CONNECT_STATUS) w.

(** *** Login *)

Definition login_redirect (w : World S) : result (World S) :=
  let AUTH_HOST := lit "https://account.prusa3d.com" in
  let CLIENT_ID := client_id in
  let REDIRECT_URI := lit "prusaslicer://login" in
  let (rd, e) := draw_random_device (env w) in
  let w := on_env (fun _ => e) w in
  code_verifier <-
    CodeChalengeGenerator.generate_verifier mt19937 seed distribution rd;
  let w := on_this (set_m_code_verifier code_verifier) w in
  code_challenge <-
    CodeChalengeGenerator.generate_chalenge sha256 code_verifier;
  let w :=
    match CodeChalengeGenerator.generate_chalenge_error sha256 code_verifier with
    | Some msg => on_env (BOOST_LOG_TRIVIAL error msg) w
    | None => w
    end in
  let w :=
    on_env (BOOST_LOG_TRIVIAL info (lit "code verifier: " ++ code_verifier)) w in
  let w :=
    on_env (BOOST_LOG_TRIVIAL info (lit "code challenge: " ++ code_challenge)) w in
  let url :=
    AUTH_HOST ++ lit "/o/authorize/?client_id=" ++ CLIENT_ID
    ++ lit "&response_type=code&code_challenge=" ++ code_challenge
    ++ lit "&code_challenge_method=S256&scope=basic_info&redirect_uri="
    ++ REDIRECT_URI ++ lit "&choose_account=1" in
  Returns (on_env (wxQueueEvent (EVT_OPEN_PRUSAAUTH url)) w).

Definition is_logged (w : World S) : bool :=
  negb (bool_decide (m_username (this w) = [])).

Definition do_login (w : World S) : result (World S) :=
  w <- (if negb (is_initialized (m_session (this w)))
        then login_redirect w
        else Returns (on_session enqueue_test_with_refresh w));
  Returns (wakeup_session_thread w).

Definition do_clear (w : World S) : World S :=
  let w := on_session clear w in
  let w := set_username [] w in
  on_this (fun o => set_m_token_timer (RefreshTimer.Stop (m_token_timer o)) o) w.

Definition do_logout (w : World S) : World S :=
  let w := do_clear w in
  on_env (wxQueueEvent EVT_UA_LOGGEDOUT) w.

Definition on_login_code_recieved (url_message : std_string) (w : World S)
  : World S :=
  let code := CodeFromMessage.get_code_from_message url_message in
  let w :=
    on_session (init_with_code code (m_code_verifier (this w))) w in
  wakeup_session_thread w.

(** *** The enqueue methods

    Each method has a block under [m_session_mutex], which either returns
    from the method after logging or calls the session, and then the
    wake-up.  The Boolean of a block tells whether the method goes on to
    the wake-up. *)

Definition guarded_block (message : std_string) (call : S -> S)
    (w : World S) : bool * World S :=
  if negb (is_initialized (m_session (this w))) then
    (false, on_env (BOOST_LOG_TRIVIAL error message) w)
  else (true, on_session call w).

Definition then_wakeup (block : bool * World S) : World S :=
  let (entered, w) := block in
  if entered then wakeup_session_thread w else w.

Definition enqueue_connect_printer_models_action_block (w : World S) :=
  guarded_block
    (lit "Connect Printer Models connection failed - Not Logged in.")
    (enqueue_action USER_ACCOUNT_ACTION_CONNECT_PRINTER_MODELS
       nullptr nullptr [])
    w.

Definition enqueue_connect_printer_models_action (w : World S) : World S :=
  then_wakeup (enqueue_connect_printer_models_action_block w).

Definition enqueue_connect_status_action_block (w : World S) :=
  guarded_block
    (lit "Connect Status endpoint connection failed - Not Logged in.")
    (enqueue_action USER_ACCOUNT_ACTION_CONNECT_STATUS nullptr nullptr [])
    w.

Definition enqueue_connect_status_action (w : World S) : World S :=
  then_wakeup (enqueue_connect_status_action_block w).

Definition enqueue_test_connection_block (w : World S) :=
  guarded_block
    (lit "Connect Printers endpoint connection failed - Not Logged in.")
    enqueue_test_with_refresh
    w.

Definition enqueue_test_connection (w : World S) : World S :=
  then_wakeup (enqueue_test_connection_block w).

Definition enqueue_avatar_action_block (url : std_string) (w : World S) :=
  guarded_block
    (lit "Connect Printers endpoint connection failed - Not Logged in.")
    (enqueue_action USER_ACCOUNT_ACTION_AVATAR nullptr nullptr url)
    w.

Definition enqueue_avatar_action (url : std_string) (w : World S) : World S :=
  then_wakeup (enqueue_avatar_action_block url w).

Definition enqueue_printer_data_action_block (uuid : std_string)
    (w : World S) :=
  guarded_block
    (lit "Connect Printers endpoint connection failed - Not Logged in.")
    (enqueue_action USER_ACCOUNT_ACTION_CONNECT_DATA_FROM_UUID
       nullptr nullptr uuid)
    w.

Definition enqueue_printer_data_action (uuid : std_string) (w : World S)
  : World S :=
  then_wakeup (enqueue_printer_data_action_block uuid w).

Definition enqueue_refresh_block (w : World S) :=
  guarded_block
    (lit "Connect Printers endpoint connection failed - Not Logged in.")
    (Session.enqueue_refresh [])
    w.

Definition enqueue_refresh (w : World S) : World S :=
  then_wakeup (enqueue_refresh_block w).

(** *** Timer callbacks *)

Definition on_token_timer (w : World S) : World S := enqueue_refresh w.

Definition on_polling_timer (w : World S) : World S :=
  if negb (m_window_is_active (this w)) then w
  else wakeup_session_thread w.

(** *** Construction and destruction *)

(** [init_session_thread]: the polling timer is started and the thread
    created; the body of the thread is the worker below. *)
Definition init_session_thread (w : World S) : World S :=
  on_this
    (fun o =>
       set_m_thread_joinable true
         (set_m_polling_timer
            (RefreshTimer.Start 10000 (m_polling_timer o)) o))
    w.

(** [list.size() > i ? list[i] : std::string()]. *)
Definition at_or_empty (token_list : list std_string) (i : nat)
  : std_string :=
  match token_list !! i with
  | Some token => token
  | None => []
  end.

(** The first block of the constructor, from the declaration of the four
    strings to [shared_session_key = key0]: the access token, the refresh
    token, the shared session key and the text of the expiry time, as read
    from the secret store.  The assertions of the source are compiled
    out. *)
Definition recover_tokens (e : Env)
  : (std_string * std_string * std_string * std_string) * Env :=
  let (ok, e) := is_secret_store_ok e in
  if ok then
    let '((loaded, key0, tokens), e) := load_secret (lit "tokens") [] [] e in
    if loaded then
      let token_list := split (is_any_of (lit "|")) tokens in
      let access_token := at_or_empty token_list 0 in
      let refresh_token := at_or_empty token_list 1 in
      let next_timeout := at_or_empty token_list 2 in
      ((access_token, refresh_token, key0, next_timeout), e)
    else
      let '((_, key0, access_token), e) :=
        load_secret (lit "access_token") key0 [] e in
      let '((_, key1, refresh_token), e) :=
        load_secret (lit "refresh_token") [] [] e in
      let '((_, key2, next_timeout), e) :=
        load_secret (lit "access_token_timeout") [] [] e in
      ((access_token, refresh_token, key0, next_timeout), e)
  else (([], [], [], []), e).

(** The constructor; [connect_polling] is
    [m_app_config->get_bool("connect_polling")]. *)
Definition new_UserAccountCommunication (connect_polling : bool) (e : Env)
  : result (World S) :=
  let m_polling_timer := RefreshTimer.new_wxTimer in
  let m_token_timer := RefreshTimer.new_wxTimer in
  let '((access_token, refresh_token, shared_session_key, next_timeout), e) :=
    recover_tokens e in
  next <- (if bool_decide (next_timeout = []) then Returns 0
           else stoll next_timeout);
  let remain_time := wrap_llong (next - clock e) in
  let '(access_token, m_token_timer) :=
    if remain_time <=? 0 then ([], m_token_timer)
    else (access_token,
          RefreshTimer.set_refresh_time (wrap_int remain_time) m_token_timer) in
  let has_token := negb (bool_decide (refresh_token = [])) in
  let m_session :=
    make_session access_token refresh_token shared_session_key
      connect_polling in
  let w :=
    {| this :=
         {| m_session := m_session;
            m_thread_joinable := false;
            m_thread_stop := default_thread_stop defaults;
            m_thread_wakeup := default_thread_wakeup defaults;
            m_window_is_active := default_window_is_active defaults;
            m_polling_timer := m_polling_timer;
            m_token_timer := m_token_timer;
            m_code_verifier := [];
            m_username := [];
            m_remember_session := default_remember_session defaults |};
       env := e |} in
  let w := init_session_thread w in
  if has_token then do_login w else Returns w.

(** The destructor up to [notify_all]: the timers are stopped and, if the
    thread is joinable, the stop flag is set; [join] then waits for the
    worker to leave its loop. *)
Definition request_stop (w : World S) : World S :=
  let w :=
    on_this
      (fun o => set_m_token_timer (RefreshTimer.Stop (m_token_timer o)) o) w in
  let w :=
    on_this
      (fun o => set_m_polling_timer (RefreshTimer.Stop (m_polling_timer o)) o)
      w in
  if m_thread_joinable (this w)
  then on_this (set_m_thread_stop true) w
  else w.

End Methods.

End Orchestrator.

(** ** The worker thread

    The body of the thread started by [init_session_thread], one shared-memory
    access per step, interleaved with the calls that other threads make on the
    object.  Accesses are taken to be sequentially consistent. *)

Module Worker.
Import Session Orchestrator.

(** Where the worker stands in the loop. *)
Inductive location : Type :=
| AtWait            (* m_thread_stop_condition.wait_for(...) *)
| AtStopCheck       (* if (m_thread_stop) break; *)
| AtActiveCheck     (* !m_window_is_active && ... *)
| AtWakeupCheck     (* ... && !m_thread_wakeup *)
| AtClearWakeup     (* m_thread_wakeup = false; *)
| AtProcess         (* m_session->process_action_queue(), under m_session_mutex *)
| Exited.           (* after break *)

(** What the worker did, step by step: the values it read and the calls it
    made. *)
Inductive observation : Type :=
| Woke (timed_out : bool)
| ReadStop (value : bool)
| ReadActive (value : bool)
| ReadWakeup (value : bool)
| ClearedWakeup
| Processed
| LeftLoop.

(** The calls of the enqueue methods. *)
Inductive enqueue_call : Type :=
| call_enqueue_connect_printer_models_action
| call_enqueue_connect_status_action
| call_enqueue_test_connection
| call_enqueue_avatar_action (url : std_string)
| call_enqueue_printer_data_action (uuid : std_string)
| call_enqueue_refresh.

(** What the other threads do to the object, one critical section at a
    time. *)
Inductive caller_step (S : Type) : Type :=
| EnqueueBlock (call : enqueue_call)   (* the block of an enqueue method *)
| WakeupSessionThread                  (* wakeup_session_thread() *)
| OnActivateWindow (active : bool)     (* on_activate_window(active) *)
| RequestStop                          (* the destructor, up to notify_all *)
| SessionCall (f : S -> S).            (* another call on m_session, under the mutex *)
Arguments EnqueueBlock {S} call.
Arguments WakeupSessionThread {S}.
Arguments OnActivateWindow {S} active.
Arguments RequestStop {S}.
Arguments SessionCall {S} f.

Inductive event (S : Type) : Type :=
| WorkerStep                 (* the worker takes its next step *)
| WaitTimeout                (* the wait of the worker times out *)
| Caller (c : caller_step S).
Arguments WorkerStep {S}.
Arguments WaitTimeout {S}.
Arguments Caller {S} c.

Record Running (S : Type) := {
  world : World S;
  worker : location;
  observed : list observation;
}.
Arguments world {S} _.
Arguments worker {S} _.
Arguments observed {S} _.
Arguments Build_Running {S} _ _ _.

Section Loop.
Context {S : Type} `{UserAccountSession S}.

(** The block of an enqueue method, and the whole method. *)
Definition enqueue_block (call : enqueue_call) (w : World S)
  : bool * World S :=
  match call with
  | call_enqueue_connect_printer_models_action =>
      enqueue_connect_printer_models_action_block w
  | call_enqueue_connect_status_action =>
      enqueue_connect_status_action_block w
  | call_enqueue_test_connection => enqueue_test_connection_block w
  | call_enqueue_avatar_action url => enqueue_avatar_action_block url w
  | call_enqueue_printer_data_action uuid =>
      enqueue_printer_data_action_block uuid w
  | call_enqueue_refresh => enqueue_refresh_block w
  end.

Definition enqueue (call : enqueue_call) (w : World S) : World S :=
  match call with
  | call_enqueue_connect_printer_models_action =>
      enqueue_connect_printer_models_action w
  | call_enqueue_connect_status_action => enqueue_connect_status_action w
  | call_enqueue_test_connection => enqueue_test_connection w
  | call_enqueue_avatar_action url => enqueue_avatar_action url w
  | call_enqueue_printer_data_action uuid =>
      enqueue_printer_data_action uuid w
  | call_enqueue_refresh => enqueue_refresh w
  end.

(** The predicate of [wait_for]: [m_thread_stop || m_thread_wakeup]. *)
Definition wait_predicate (w : World S) : bool :=
  m_thread_stop (this w) || m_thread_wakeup (this w).

Definition goto (l : location) (o : observation) (w : World S)
    (r : Running S) : Running S :=
  {| world := w; worker := l; observed := observed r ++ [o] |}.

(** One step of the worker.  [wait_for] returns when its predicate holds
    or when it times out; a worker whose predicate is false and whose wait
    has not timed out stays where it is. *)
Definition worker_step (timed_out : bool) (r : Running S) : Running S :=
  let w := world r in
  match worker r with
  | AtWait =>
      if wait_predicate w || timed_out
      then goto AtStopCheck (Woke timed_out) w r
      else r
  | AtStopCheck =>
      if m_thread_stop (this w)
      then goto Exited (ReadStop true) w r
      else goto AtActiveCheck (ReadStop false) w r
  | AtActiveCheck =>
      if negb (m_window_is_active (this w))
      then goto AtWakeupCheck (ReadActive false) w r
      else goto AtClearWakeup (ReadActive true) w r
  | AtWakeupCheck =>
      if negb (m_thread_wakeup (this w))
      then goto AtWait (ReadWakeup false) w r
      else goto AtClearWakeup (ReadWakeup true) w r
  | AtClearWakeup =>
      goto AtProcess ClearedWakeup (on_this (set_m_thread_wakeup false) w) r
  | AtProcess =>
      goto AtWait Processed (on_session process_action_queue w) r
  | Exited => r
  end.

Definition caller (c : caller_step S) (w : World S) : World S :=
  match c with
  | EnqueueBlock call => snd (enqueue_block call w)
  | WakeupSessionThread => wakeup_session_thread w
  | OnActivateWindow active => on_activate_window active w
  | RequestStop => request_stop w
  | SessionCall f => on_session f w
  end.

Definition step (r : Running S) (ev : event S) : Running S :=
  match ev with
  | WorkerStep => worker_step false r
  | WaitTimeout =>
      match worker r with
      | AtWait => worker_step true r
      | _ => r
      end
  | Caller c =>
      {| world := caller c (world r); worker := worker r;
         observed := observed r |}
  end.

(** A schedule is a list of events, run from left to right. *)
Definition run (schedule : list (event S)) (r : Running S) : Running S :=
  fold_left step schedule r.

(** The number of calls of [process_action_queue] so far. *)
Fixpoint drains (obs : list observation) : nat :=
  match obs with
  | [] => 0
  | Processed :: obs' => Datatypes.S (drains obs')
  | _ :: obs' => drains obs'
  end.

(** The number of steps that a schedule gives to the worker. *)
Fixpoint worker_steps (schedule : list (event S)) : nat :=
  match schedule with
  | [] => 0
  | WorkerStep :: schedule' => Datatypes.S (worker_steps schedule')
  | _ :: schedule' => worker_steps schedule'
  end.

(** The thread as [init_session_thread] starts it. *)
Definition start (w : World S) : Running S :=
  {| world := w; worker := AtWait; observed := [] |}.

End Loop.

End Worker.

(** ** The language of the loop *)

Module WorkerLog.
Import Worker.




(** The worker steps left, at most, before a worker that reads the stop
    flag set leaves the loop. *)
Definition steps_to_exit (l : location) : nat :=
  match l with
  | AtActiveCheck => 6
  | AtWakeupCheck => 5
  | AtClearWakeup => 4
  | AtProcess => 3
  | AtWait => 2
  | AtStopCheck => 1
  | Exited => 0
  end.


(** The locations up to the stop check of an iteration. *)
Definition before_stop_check (l : location) : bool :=
  match l with
  | AtWait | AtStopCheck | Exited => true
  | _ => false
  end.

(** The caller steps of a schedule, in order, and their effect alone. *)
Fixpoint callers_of {S : Type} (schedule : list (event S))
  : list (caller_step S) :=
  match schedule with
  | [] => []
  | Caller c :: schedule' => c :: callers_of schedule'
  | _ :: schedule' => callers_of schedule'
  end.

Definition run_callers {S : Type} `{Session.UserAccountSession S}
    (cs : list (caller_step S)) (w : Orchestrator.World S)
  : Orchestrator.World S :=
  fold_left (fun w c => caller c w) cs w.

End WorkerLog.

(** ** The session of the specification *)

Module SessionModel.
Import Session.

(** Modelled from the spec: the kinds of a Pending Action (section 3 of the
    specification); [UserAccountSession] and its queue are defined outside
    this translation unit. *)
Inductive action_kind : Type :=
| refresh
| test_with_refresh
| connect_printer_models
| connect_status
| avatar_fetch
| data_by_id
| dummy.

(** Modelled from the spec: a Pending Action, which is missing from this
    translation unit: a kind, an optional success callback, an optional
    failure callback and a string payload. *)
Record PendingAction := {
  kind : action_kind;
  on_success : option callback;
  on_failure : option callback;
  payload : std_string;
}.

Definition kind_of_id (id : UserAccountActionID) : action_kind :=
  match id with
  | USER_ACCOUNT_ACTION_DUMMY => dummy
  | USER_ACCOUNT_ACTION_CONNECT_PRINTER_MODELS => connect_printer_models
  | USER_ACCOUNT_ACTION_CONNECT_STATUS => connect_status
  | USER_ACCOUNT_ACTION_AVATAR => avatar_fetch
  | USER_ACCOUNT_ACTION_CONNECT_DATA_FROM_UUID => data_by_id
  end.

(** Modelled from the spec: the enqueue operations of the session, which are
    missing from this translation unit, append one Pending Action of the
    matching kind to the queue that the session owns. *)
Class SessionQueue (S : Type) `{UserAccountSession S} : Type := {
  pending : S -> list PendingAction;
  enqueue_action_pending id success failure input session :
    pending (enqueue_action id success failure input session)
    = pending session
      ++ [{| kind := kind_of_id id; on_success := success;
             on_failure := failure; payload := input |}];
  enqueue_refresh_pending body session :
    exists action,
      kind action = refresh
      /\ pending (enqueue_refresh body session) = pending session ++ [action];
  enqueue_test_with_refresh_pending session :
    exists action,
      kind action = test_with_refresh
      /\ pending (enqueue_test_with_refresh session)
         = pending session ++ [action];
}.

(** Modelled from the spec: a session, which is missing from this
    translation unit, holding the token bundle, the polling action and a
    FIFO queue of Pending Actions that [process_action_queue] drains
    entirely; [processed] keeps what was drained, oldest first. *)
Record SpecSession := {
  access_token : std_string;
  refresh_token : std_string;
  shared_session_key : std_string;
  next_token_timeout : Z;
  polling_action : UserAccountActionID;
  code_exchange : option (std_string * std_string);
  queue : list PendingAction;
  processed : list PendingAction;
}.

Definition with_queue (q done : list PendingAction) (s : SpecSession)
  : SpecSession :=
  {| access_token := access_token s; refresh_token := refresh_token s;
     shared_session_key := shared_session_key s;
     next_token_timeout := next_token_timeout s;
     polling_action := polling_action s;
     code_exchange := code_exchange s;
     queue := q; processed := done |}.

#[export] Instance spec_session : UserAccountSession SpecSession := {
  make_session access refresh key connect_polling :=
    {| access_token := access; refresh_token := refresh;
       shared_session_key := key; next_token_timeout := 0;
       polling_action :=
         if connect_polling then USER_ACCOUNT_ACTION_CONNECT_PRINTER_MODELS
         else USER_ACCOUNT_ACTION_DUMMY;
       code_exchange := None; queue := []; processed := [] |};
  is_initialized s :=
    negb (bool_decide (access_token s = []))
    || negb (bool_decide (refresh_token s = []));
  enqueue_action id success failure input s :=
    with_queue
      (queue s ++ [{| kind := kind_of_id id; on_success := success;
                      on_failure := failure; payload := input |}])
      (processed s) s;
  enqueue_refresh body s :=
    with_queue
      (queue s ++ [{| kind := refresh; on_success := None;
                      on_failure := None; payload := body |}])
      (processed s) s;
  enqueue_test_with_refresh s :=
    with_queue
      (queue s ++ [{| kind := test_with_refresh; on_success := None;
                      on_failure := None; payload := [] |}])
      (processed s) s;
  process_action_queue s := with_queue [] (processed s ++ queue s) s;
  init_with_code code verifier s :=
    {| access_token := access_token s; refresh_token := refresh_token s;
       shared_session_key := shared_session_key s;
       next_token_timeout := next_token_timeout s;
       polling_action := polling_action s;
       code_exchange := Some (code, verifier);
       queue := queue s; processed := processed s |};
  clear s :=
    {| access_token := []; refresh_token := [];
       shared_session_key := []; next_token_timeout := 0;
       polling_action := polling_action s;
       code_exchange := None;
       queue := queue s; processed := processed s |};
  get_access_token := access_token;
  get_refresh_token := refresh_token;
  get_shared_session_key := shared_session_key;
  get_next_token_timeout := next_token_timeout;
  set_polling_action id s :=
    {| access_token := access_token s; refresh_token := refresh_token s;
       shared_session_key := shared_session_key s;
       next_token_timeout := next_token_timeout s;
       polling_action := id;
       code_exchange := code_exchange s;
       queue := queue s; processed := processed s |};
}.

(** The session above keeps the contract of the queue. *)
#[export] Instance spec_session_queue : SessionQueue SpecSession :=
  {| pending := queue;
     enqueue_action_pending := fun id success failure input s => eq_refl;
     enqueue_refresh_pending := fun body s =>
       ex_intro _
         {| kind := refresh; on_success := None; on_failure := None;
            payload := body |}
         (conj eq_refl eq_refl);
     enqueue_test_with_refresh_pending := fun s =>
       ex_intro _
         {| kind := test_with_refresh; on_success := None;
            on_failure := None; payload := [] |}
         (conj eq_refl eq_refl) |}.

(** The kind of action that each enqueue method is to append. *)
Definition matching_kind (call : Worker.enqueue_call) : action_kind :=
  match call with
  | Worker.call_enqueue_connect_printer_models_action => connect_printer_models
  | Worker.call_enqueue_connect_status_action => connect_status
  | Worker.call_enqueue_test_connection => test_with_refresh
  | Worker.call_enqueue_avatar_action _ => avatar_fetch
  | Worker.call_enqueue_printer_data_action _ => data_by_id
  | Worker.call_enqueue_refresh => refresh
  end.

(** A world for examples: a logged-in session that remembers
    [next_token_timeout], a working secret store, an empty log. *)
Definition example_store : SecretStore.wxSecretStore :=
  {| SecretStore.IsOk := true; SecretStore.errmsg := [];
     SecretStore.accepts_save := true;
     SecretStore.secrets := ∅;
     SecretStore.save_requests := [] |}.

Definition example_env : Orchestrator.Env :=
  {| Orchestrator.secret_store := example_store;
     Orchestrator.log := [];
     Orchestrator.queued_events := [];
     Orchestrator.clock := 1700000000;
     Orchestrator.random_device := fun n => 2024 + Z.of_nat n;
     Orchestrator.random_device_calls := 0 |}.

Definition example_session : SpecSession :=
  {| access_token := lit "AT"; refresh_token := lit "RT";
     shared_session_key := lit "key"; next_token_timeout := 1700003600;
     polling_action := USER_ACCOUNT_ACTION_DUMMY;
     code_exchange := None; queue := []; processed := [] |}.

Definition example_object (remember active : bool)
  : Orchestrator.UserAccountCommunication SpecSession :=
  {| Orchestrator.m_session := example_session;
     Orchestrator.m_thread_joinable := true;
     Orchestrator.m_thread_stop := false;
     Orchestrator.m_thread_wakeup := false;
     Orchestrator.m_window_is_active := active;
     Orchestrator.m_polling_timer := RefreshTimer.Start 10000 RefreshTimer.new_wxTimer;
     Orchestrator.m_token_timer := RefreshTimer.new_wxTimer;
     Orchestrator.m_code_verifier := [];
     Orchestrator.m_username := lit "user";
     Orchestrator.m_remember_session := remember |}.

Definition example_world (remember active : bool)
  : Orchestrator.World SpecSession :=
  {| Orchestrator.this := example_object remember active;
     Orchestrator.env := example_env |}.

End SessionModel.

(** ** What is persisted, and what the constructor reads back *)

Module Persisted.
Import StringUtil SessionModel.

(** [s] starts, after white space and an optional sign, with the decimal
    number [v]: [s = ws ++ sign ++ ds ++ rest] with [ds] the longest run of
    digits, which is not empty. *)
Definition leading_number (s : std_string) (v : Z) : Prop :=
  exists ws sign ds rest,
    s = ws ++ sign ++ ds ++ rest
    /\ forallb isspace ws = true
    /\ ((sign = [] /\ v = digits_value ds)
        \/ (sign = lit "+" /\ v = digits_value ds)
        \/ (sign = lit "-" /\ v = - digits_value ds))
    /\ ds <> []
    /\ forallb isdigit ds = true
    /\ match rest with
       | c :: _ => isdigit c = false
       | [] => True
       end.

Section Recovered.
Context {S : Type} `{Session.UserAccountSession S}.

(** The bundle of the specification:
    [access_token|refresh_token|next_token_timeout]. *)
Definition token_bundle (session : S) : std_string :=
  Session.get_access_token session ++ lit "|"
  ++ Session.get_refresh_token session
  ++ lit "|" ++ to_string (Session.get_next_token_timeout session).

(** What [set_username] is to write. *)
Definition tokens_to_store (w : Orchestrator.World S) : std_string :=
  if Orchestrator.m_remember_session (Orchestrator.this w)
  then token_bundle (Orchestrator.m_session (Orchestrator.this w))
  else [].

End Recovered.

(** The text of the expiry time that the constructor recovers from the
    secret store. *)
Definition stored_timeout (wxUSE_SECRETSTORE : bool)
    (SLIC3R_APP_NAME : std_string) (e : Orchestrator.Env) : std_string :=
  snd (fst (Orchestrator.recover_tokens wxUSE_SECRETSTORE SLIC3R_APP_NAME e)).

(** Secret stores for examples: the combined record under the tokens
    service of the application [PrusaSlicer]. *)
Definition store_with_tokens (tokens : std_string) : SecretStore.wxSecretStore :=
  {| SecretStore.IsOk := true; SecretStore.errmsg := [];
     SecretStore.accepts_save := true;
     SecretStore.secrets :=
       {[ lit "PrusaSlicer/PrusaAccount/tokens" := (lit "key", tokens) ]};
     SecretStore.save_requests := [] |}.

Definition env_with_tokens (tokens : std_string) : Orchestrator.Env :=
  {| Orchestrator.secret_store := store_with_tokens tokens;
     Orchestrator.log := [];
     Orchestrator.queued_events := [];
     Orchestrator.clock := 1700000000;
     Orchestrator.random_device := fun n => 2024 + Z.of_nat n;
     Orchestrator.random_device_calls := 0 |}.

Definition example_defaults : Orchestrator.MemberDefaults :=
  {| Orchestrator.default_thread_stop := false;
     Orchestrator.default_thread_wakeup := false;
     Orchestrator.default_window_is_active := true;
     Orchestrator.default_remember_session := true |}.

(** The constructor on the session of the specification, with the
    reference digest and the example engine. *)
Definition example_construct (tokens : std_string)
  : result (Orchestrator.World SessionModel.SpecSession) :=
  Orchestrator.new_UserAccountCommunication true (lit "PrusaSlicer")
    (lit "client") Sha256Reference.platform_sha256 Z LcgEngine.seed
    LcgEngine.distribution example_defaults true (env_with_tokens tokens).

End Persisted.

(** ** Executions of the worker on the session of the specification *)

Module WorkerExamples.
Import Session Orchestrator Worker WorkerLog SessionModel.

Definition avatar_url : std_string := lit "https://example.org/avatar.png".

Definition refresh_action : PendingAction :=
  {| kind := refresh; on_success := None; on_failure := None; payload := [] |}.

Definition avatar_action : PendingAction :=
  {| kind := avatar_fetch; on_success := None; on_failure := None;
     payload := avatar_url |}.

(** A refresh is enqueued and the worker, woken up, passes the stop check
    and the gate: it stands before [process_action_queue]. *)
Definition until_past_stop_check : list (event SpecSession) :=
  [Caller (EnqueueBlock call_enqueue_refresh); Caller WakeupSessionThread;
   WorkerStep; WorkerStep; WorkerStep; WorkerStep; WorkerStep].

(** Then the destructor sets the stop flag. *)
Definition stop_requested : Running SpecSession :=
  run (until_past_stop_check ++ [Caller RequestStop])
    (start (example_world true false)).

(** Then another thread enqueues an avatar action, and the worker goes
    on. *)
Definition after_stop : list (event SpecSession) :=
  [Caller (EnqueueBlock (call_enqueue_avatar_action avatar_url));
   Caller WakeupSessionThread; WorkerStep].

(** A stop request that finds the worker at the wait. *)
Definition stopped_at_wait : Running SpecSession :=
  run [Caller RequestStop] (start (example_world true false)).

Definition after_stop_at_wait : list (event SpecSession) :=
  [Caller (EnqueueBlock (call_enqueue_avatar_action avatar_url));
   Caller WakeupSessionThread;
   WorkerStep; WorkerStep; WorkerStep; WorkerStep; WorkerStep; WorkerStep].



End WorkerExamples.

From Stdlib Require DecimalPos.

(** ** Inverse operations and character classes, for the statements below *)

Module Inverses.
Import Base64Url StringUtil.

(** The fields joined with a separator, as [set_username] joins its three
    fields with ['|']. *)
Fixpoint join (separator : ascii) (fields : list std_string) : std_string :=
  match fields with
  | [] => []
  | [field] => field
  | field :: fields' => field ++ separator :: join separator fields'
  end.

(** The number of separators in a string. *)
Fixpoint separators (is_separator : ascii -> bool) (s : std_string) : nat :=
  match s with
  | [] => 0
  | c :: s' =>
      if is_separator c then S (separators is_separator s')
      else separators is_separator s'
  end.

(** A string without a separator. *)
Definition free_of (is_separator : ascii -> bool) (s : std_string) : Prop :=
  forallb (fun c => negb (is_separator c)) s = true.

(** The characters of base64url: [[A-Za-z0-9]], ['-'] and ['_']. *)
Definition url_character (c : ascii) : Prop :=
  CodeChalengeGenerator.alphanumeric c \/ c = "-"%char \/ c = "_"%char.

(** The position of a character in an alphabet. *)
Fixpoint position (alphabet : std_string) (c : ascii) : Z :=
  match alphabet with
  | [] => 0
  | x :: alphabet' => if char_eqb x c then 0 else 1 + position alphabet' c
  end.

Definition url_value (c : ascii) : Z := position url_alphabet c.

Definition byte_of (v : Z) : ascii := ascii_of_N (Z.to_N (v mod 256)).

Definition group_of (c3 c2 c1 c0 : Z) : Z :=
  c3 * 262144 + c2 * 4096 + c1 * 64 + c0.

(** The decoder of base64url without padding: four characters give three
    bytes, a final group of three characters two bytes, of two characters
    one byte. *)
Fixpoint base64url_decode (s : std_string) : std_string :=
  match s with
  | c3 :: c2 :: c1 :: c0 :: rest =>
      let g := group_of (url_value c3) (url_value c2) (url_value c1)
                 (url_value c0) in
      byte_of (g / 65536) :: byte_of (g / 256) :: byte_of g
      :: base64url_decode rest
  | [c3; c2; c1] =>
      let g := group_of (url_value c3) (url_value c2) (url_value c1) 0 in
      [byte_of (g / 65536); byte_of (g / 256)]
  | [c3; c2] =>
      let g := group_of (url_value c3) (url_value c2) 0 0 in
      [byte_of (g / 65536)]
  | _ => []
  end.

End Inverses.

Module DecimalText.

(** *** The decimal text of a number *)

Definition uint_chars (d : Decimal.uint) : std_string :=
  list_ascii_of_string (NilEmpty.string_of_uint d).

(** The value of a decimal, read digit by digit from an accumulator. *)
Fixpoint uint_value (d : Decimal.uint) (acc : Z) : Z :=
  match d with
  | Decimal.Nil => acc
  | Decimal.D0 d' => uint_value d' (10 * acc)
  | Decimal.D1 d' => uint_value d' (10 * acc + 1)
  | Decimal.D2 d' => uint_value d' (10 * acc + 2)
  | Decimal.D3 d' => uint_value d' (10 * acc + 3)
  | Decimal.D4 d' => uint_value d' (10 * acc + 4)
  | Decimal.D5 d' => uint_value d' (10 * acc + 5)
  | Decimal.D6 d' => uint_value d' (10 * acc + 6)
  | Decimal.D7 d' => uint_value d' (10 * acc + 7)
  | Decimal.D8 d' => uint_value d' (10 * acc + 8)
  | Decimal.D9 d' => uint_value d' (10 * acc + 9)
  end.

End DecimalText.

(** ** The object that the constructor leaves *)

Module Constructed.
Import Session Orchestrator.

(** The members at the end of the constructor when [do_login] is not
    called: the thread is started, the polling timer runs every ten seconds,
    no verifier and no user name are set, and the flags have the values of
    their member initialisers. *)
Definition constructed_object {S : Type} (defaults : MemberDefaults)
    (session : S) (token_timer : RefreshTimer.wxTimer)
  : UserAccountCommunication S :=
  {| m_session := session;
     m_thread_joinable := true;
     m_thread_stop := default_thread_stop defaults;
     m_thread_wakeup := default_thread_wakeup defaults;
     m_window_is_active := default_window_is_active defaults;
     m_polling_timer := RefreshTimer.Start 10000 RefreshTimer.new_wxTimer;
     m_token_timer := token_timer;
     m_code_verifier := [];
     m_username := [];
     m_remember_session := default_remember_session defaults |}.

(** The password of a record of the store, empty when there is none. *)
Definition stored_password (store : SecretStore.wxSecretStore)
    (service : std_string) : std_string :=
  match SecretStore.Load service store with
  | Some (_, password) => password
  | None => []
  end.

Definition stored_username (store : SecretStore.wxSecretStore)
    (service : std_string) : std_string :=
  match SecretStore.Load service store with
  | Some (username, _) => username
  | None => []
  end.

(** One for a record that the store does not hold, zero otherwise. *)
Definition is_missing (store : SecretStore.wxSecretStore)
    (service : std_string) : nat :=
  match SecretStore.Load service store with
  | Some _ => 0
  | None => 1
  end.

(** An environment whose store holds the separate records of earlier
    versions, the one of the expiry time excepted. *)
Definition legacy_store : SecretStore.wxSecretStore :=
  {| SecretStore.IsOk := true; SecretStore.errmsg := [];
     SecretStore.accepts_save := true;
     SecretStore.secrets :=
       {[ lit "PrusaSlicer/PrusaAccount/access_token"
            := (lit "key", lit "AT");
          lit "PrusaSlicer/PrusaAccount/refresh_token"
            := (lit "other", lit "RT") ]};
     SecretStore.save_requests := [] |}.

Definition legacy_env : Env :=
  set_secret_store legacy_store SessionModel.example_env.

End Constructed.

(** ** The login redirect *)

Module Login.

(** A digest that returns a digest that is not empty, or throws, as the
    three variants of [sha256] do. *)
Definition digest_contract (sha256 : std_string -> result std_string)
  : Prop :=
  forall input, sha256 input <> Undefined /\ sha256 input <> Returns [].

(** The URL of [login_redirect], with the fields of its format string
    filled in. *)
Definition authorize_url (client_id code_challenge : std_string)
  : std_string :=
  lit "https://account.prusa3d.com/o/authorize/?client_id=" ++ client_id
  ++ lit "&response_type=code&code_challenge=" ++ code_challenge
  ++ lit "&code_challenge_method=S256&scope=basic_info&redirect_uri=prusaslicer://login&choose_account=1".

End Login.

(** ** Schedules without a wake-up *)

Module Quiet.
Import Worker.

(** The events that neither set the wake-up flag nor the stop flag nor let
    the wait time out. *)
Definition quiet {S : Type} (ev : event S) : bool :=
  match ev with
  | WorkerStep => true
  | WaitTimeout => false
  | Caller (EnqueueBlock _) => true
  | Caller WakeupSessionThread => false
  | Caller (OnActivateWindow _) => true
  | Caller RequestStop => false
  | Caller (SessionCall _) => true
  end.

(** The state of the thread after a call that the schedule does not list. *)
Definition after_call {S : Type}
    (f : Orchestrator.World S -> Orchestrator.World S) (r : Running S)
  : Running S :=
  {| world := f (world r); worker := worker r; observed := observed r |}.

End Quiet.

(** ** More executions on the session of the specification *)

Module MoreExamples.
Import Session Orchestrator Worker SessionModel.

(** The example world after the session was cleared: no tokens, so the
    session is not initialized. *)
Definition logged_out_world : World SpecSession :=
  on_session clear (example_world true true).

(** An action is enqueued and the window activated, but nobody wakes the
    worker up. *)
Definition enqueue_without_wakeup : list (event SpecSession) :=
  [Caller (EnqueueBlock call_enqueue_refresh); WorkerStep;
   Caller (OnActivateWindow true); WorkerStep; WorkerStep].

Definition six_steps : list (event SpecSession) := repeat WorkerStep 6.

(** The worker is woken up and passes the stop check before the destructor
    runs. *)
Definition woken_before_stop : list (event SpecSession) :=
  [Caller WakeupSessionThread; WorkerStep; WorkerStep].

(** A world whose access token holds the separator of the stored
    bundle. *)
Definition separator_world : World SpecSession :=
  on_session
    (fun s =>
       {| access_token := lit "A|B"; refresh_token := refresh_token s;
          shared_session_key := shared_session_key s;
          next_token_timeout := next_token_timeout s;
          polling_action := polling_action s;
          code_exchange := code_exchange s;
          queue := queue s; processed := processed s |})
    (example_world true true).

End MoreExamples.

(** * Properties *)

(** ** Characters and machine integers *)

Lemma char_code_range c : 0 <= char_code c < 256.
Proof.
  unfold char_code. pose proof (N_ascii_bounded c) as H. lia.
Qed.

Lemma char_eqb_eq a b : char_eqb a b = true <-> a = b.
Proof. apply Ascii.eqb_eq. Qed.

Lemma char_eqb_neq a b : char_eqb a b = false <-> a <> b.
Proof. apply Ascii.eqb_neq. Qed.

Module MachineIntFacts.
Import MachineInt.

Lemma wrap_int_range z : in_int (wrap_int z).
Proof.
  unfold in_int, wrap_int, INT_MIN, INT_MAX.
  pose proof (Z.mod_pos_bound (z + 2 ^ 31) (2 ^ 32) ltac:(lia)). lia.
Qed.

Lemma wrap_int_id z : in_int z -> wrap_int z = z.
Proof.
  unfold in_int, wrap_int, INT_MIN, INT_MAX. intros H.
  rewrite Z.mod_small; lia.
Qed.

(** Wrapping is a congruence modulo [2^32]. *)
Lemma wrap_int_congr z : exists k, wrap_int z = z + k * 2 ^ 32.
Proof.
  unfold wrap_int. exists (- ((z + 2 ^ 31) / 2 ^ 32)).
  pose proof (Z.div_mod (z + 2 ^ 31) (2 ^ 32) ltac:(lia)). lia.
Qed.

Lemma wrap_int_idem_sub a b : wrap_int (wrap_int a - b) = wrap_int (a - b).
Proof.
  unfold wrap_int.
  replace (((a + 2 ^ 31) mod 2 ^ 32 - 2 ^ 31 - b + 2 ^ 31))
    with ((a + 2 ^ 31) mod 2 ^ 32 + (- b)) by lia.
  rewrite Zplus_mod_idemp_l. f_equal. f_equal. lia.
Qed.

Lemma std_max_spec a b : std_max a b = Z.max a b.
Proof. unfold std_max. destruct (Z.ltb_spec a b); lia. Qed.

End MachineIntFacts.

(** ** get_code_from_message *)

Module CodeFromMessageFacts.
Import MachineInt CodeFromMessage.

Lemma matches_at_occurs s pat p : matches_at s pat p = true <-> occurs_at s pat p.
Proof. unfold matches_at, occurs_at. apply bool_decide_eq_true. Qed.

(** An occurrence of a non-empty pattern lies inside the string. *)
Lemma occurs_at_bound s pat p :
  pat <> [] -> occurs_at s pat p -> (p + length pat <= length s)%nat.
Proof.
  unfold occurs_at. intros Hne Hocc.
  assert (Hlen : length (take (length pat) (drop p s)) = length pat)
    by (rewrite Hocc; reflexivity).
  rewrite length_take, length_drop in Hlen.
  destruct pat as [|c pat]; [congruence|].
  cbn [length] in *. lia.
Qed.

(** The backward scan returns the greatest matching index at or below its
    start, and [npos] when there is none. *)
Lemma rfind_scan_spec s pat n :
  (rfind_scan s pat n = npos /\ forall q, (q <= n)%nat -> ~ occurs_at s pat q)
  \/ (exists p, (p <= n)%nat /\ rfind_scan s pat n = Z.of_nat p /\
        occurs_at s pat p /\
        forall q, (p < q <= n)%nat -> ~ occurs_at s pat q).
Proof.
  induction n as [|n IH]; simpl.
  - destruct (matches_at s pat 0) eqn:Hm.
    + right. exists 0%nat. apply matches_at_occurs in Hm.
      repeat split; auto. intros q Hq. lia.
    + left. split; [reflexivity|]. intros q Hq Hocc.
      replace q with 0%nat in Hocc by lia.
      apply matches_at_occurs in Hocc. congruence.
  - destruct (matches_at s pat (S n)) eqn:Hm.
    + right. exists (S n). apply matches_at_occurs in Hm.
      repeat split; auto. intros q Hq. lia.
    + assert (Hno : ~ occurs_at s pat (S n)).
      { intros Hocc. apply matches_at_occurs in Hocc. congruence. }
      destruct IH as [[Hnp Hall]|(p & Hle & Hres & Hp & Hlast)].
      * left. split; [exact Hnp|]. intros q Hq.
        destruct (decide (q = S n)) as [->|Hneq]; [exact Hno|].
        apply Hall. lia.
      * right. exists p. repeat split; auto.
        intros q Hq. destruct (decide (q = S n)) as [->|Hneq]; [exact Hno|].
        apply Hlast. lia.
Qed.

(** [rfind] finds the last occurrence of a non-empty pattern. *)
Lemma rfind_spec s pat :
  pat <> [] ->
  (rfind s pat = npos /\ forall q, ~ occurs_at s pat q)
  \/ (exists p, rfind s pat = Z.of_nat p /\ occurs_at s pat p /\
        forall q, (p < q)%nat -> ~ occurs_at s pat q).
Proof.
  intros Hne. unfold rfind.
  destruct (Nat.leb_spec (length pat) (length s)) as [Hle|Hgt].
  - destruct (rfind_scan_spec s pat (length s - length pat))
      as [[Hnp Hall]|(p & Hp & Hres & Hocc & Hlast)].
    + left. split; [exact Hnp|]. intros q Hq.
      pose proof (occurs_at_bound s pat q Hne Hq).
      apply (Hall q); [lia|exact Hq].
    + right. exists p. repeat split; auto. intros q Hpq Hq.
      pose proof (occurs_at_bound s pat q Hne Hq).
      apply (Hlast q); [lia|exact Hq].
  - left. split; [reflexivity|]. intros q Hocc.
    pose proof (occurs_at_bound s pat q Hne Hocc). lia.
Qed.

(** With enough fuel the loop appends the alphanumeric run that starts at
    index [i]; the size of the string is always enough. *)
Lemma code_loop_run fuel s i out :
  (length s - i <= fuel)%nat ->
  code_loop fuel s (Z.of_nat i) out = out ++ alnum_run (drop i s).
Proof.
  revert i out. induction fuel as [|fuel IH]; intros i out Hfuel; simpl.
  - rewrite drop_ge by lia. simpl. now rewrite app_nil_r.
  - destruct (Z.ltb_spec (Z.of_nat i) (Z.of_nat (length s))) as [Hlt|Hge].
    + rewrite Nat2Z.id.
      destruct (lookup_lt_is_Some_2 s i ltac:(lia)) as [c Hc].
      rewrite Hc. rewrite (drop_S s c i Hc). simpl.
      destruct (is_alnum c).
      * replace (Z.of_nat i + 1) with (Z.of_nat (S i)) by lia.
        rewrite IH by lia. now rewrite <- app_assoc.
      * now rewrite app_nil_r.
    + rewrite drop_ge by lia. simpl. now rewrite app_nil_r.
Qed.

(** [alnum_run] is the maximal alphanumeric prefix. *)
Lemma alnum_run_maximal s :
  exists rest,
    s = alnum_run s ++ rest
    /\ Forall (fun c => is_alnum c = true) (alnum_run s)
    /\ match rest with
       | [] => True
       | c :: _ => is_alnum c = false
       end.
Proof.
  induction s as [|c s (rest & Heq & Hall & Hstop)]; simpl.
  - exists []. repeat split; constructor.
  - destruct (is_alnum c) eqn:Hc.
    + exists rest. repeat split; [simpl; congruence|constructor; auto|exact Hstop].
    + exists (c :: s). repeat split; [constructor|exact Hc].
Qed.

(** When the marker occurs, the result is the alphanumeric run that follows
    its last occurrence. *)
Lemma get_code_after_last_marker s p :
  Z.of_nat (length s) < size_t_modulus ->
  occurs_at s (lit "code=") p ->
  (forall q, (p < q)%nat -> ~ occurs_at s (lit "code=") q) ->
  get_code_from_message s = alnum_run (drop (p + 5) s).
Proof.
  intros Hsize Hocc Hlast. unfold get_code_from_message.
  assert (Hne : lit "code=" <> []) by discriminate.
  pose proof (occurs_at_bound _ _ _ Hne Hocc) as Hb. simpl in Hb.
  destruct (rfind_spec s (lit "code=") Hne)
    as [[_ Hnone]|(p' & Hres & Hocc' & Hlast')].
  - exfalso. exact (Hnone p Hocc).
  - assert (p' = p) as ->.
    { destruct (Nat.lt_trichotomy p' p) as [Hlt|[Heq|Hgt]]; [|exact Heq|].
      - exfalso. exact (Hlast' p Hlt Hocc).
      - exfalso. exact (Hlast p' Hgt Hocc'). }
    rewrite Hres. unfold wrap_size_t.
    rewrite Z.mod_small by lia.
    replace (Z.of_nat p + 5) with (Z.of_nat (p + 5)) by lia.
    now rewrite code_loop_run by lia.
Qed.

(** When the marker does not occur, [rfind] returns [npos], [npos + 5] wraps
    around to [4], and the loop reads the alphanumeric run at index 4. *)
Lemma get_code_without_marker s :
  (forall q, ~ occurs_at s (lit "code=") q) ->
  get_code_from_message s = alnum_run (drop 4 s).
Proof.
  intros Hnone. unfold get_code_from_message.
  assert (Hne : lit "code=" <> []) by discriminate.
  destruct (rfind_spec s (lit "code=") Hne)
    as [[Hres _]|(p' & _ & Hocc' & _)].
  - rewrite Hres.
    replace (wrap_size_t (npos + 5)) with (Z.of_nat 4) by reflexivity.
    now rewrite code_loop_run by lia.
  - exfalso. exact (Hnone p' Hocc').
Qed.

(** The examples of the specification that the code satisfies. *)
Example get_code_example_marker :
  get_code_from_message (lit "prusaslicer://login?x=1&code=AbC123&state=xyz")
  = lit "AbC123".
Proof. reflexivity. Qed.

Example get_code_example_marker_at_end :
  get_code_from_message (lit "code=") = [].
Proof. reflexivity. Qed.

(** Of several markers the last one counts. *)
Example get_code_example_two_markers :
  get_code_from_message (lit "code=abc&code=def") = lit "def".
Proof. reflexivity. Qed.

(** C1. A redirect payload without any [code=] marker does not yield the
    empty code: [rfind] returns [npos], the start index [npos + 5] wraps to
    4, and the characters from index 4 on are returned.  For the payload
    [prusaslicer://login?error=access_denied] the extracted code is
    [aslicer]. *)
Theorem get_code_from_message_no_marker_not_empty :
  let url_message := lit "prusaslicer://login?error=access_denied" in
  (forall q, ~ occurs_at url_message (lit "code=") q)
  /\ rfind url_message (lit "code=") = npos
  /\ wrap_size_t (npos + 5) = 4
  /\ get_code_from_message url_message = lit "aslicer".
Proof.
  intros url_message.
  assert (Hne : lit "code=" <> []) by discriminate.
  assert (Hr : rfind url_message (lit "code=") = npos) by reflexivity.
  repeat split; try reflexivity.
  intros q Hocc.
  destruct (rfind_spec url_message (lit "code=") Hne)
    as [[_ Hnone]|(p & Hres & Hp & _)].
  - exact (Hnone q Hocc).
  - pose proof (occurs_at_bound _ _ _ Hne Hp) as Hb.
    rewrite Hr in Hres. cbn in Hb.
    unfold npos, size_t_modulus in Hres. lia.
Qed.

End CodeFromMessageFacts.

(** ** set_refresh_time *)

Module RefreshTimerFacts.
Import MachineInt MachineIntFacts RefreshTimer.

(** The two wrapping operations amount to one wrap of the exact value. *)
Lemma refresh_delay_wrap seconds :
  refresh_delay seconds = Z.max (wrap_int (seconds * 1000 - 66666)) 60000.
Proof.
  unfold refresh_delay, int_sub, int_mul.
  now rewrite std_max_spec, wrap_int_idem_sub.
Qed.

Lemma refresh_delay_in_int seconds : in_int (refresh_delay seconds).
Proof.
  rewrite refresh_delay_wrap.
  pose proof (wrap_int_range (seconds * 1000 - 66666)) as H.
  unfold in_int, INT_MIN, INT_MAX in *. lia.
Qed.

Lemma refresh_delay_floor seconds : 60000 <= refresh_delay seconds.
Proof. rewrite refresh_delay_wrap. lia. Qed.

(** The examples of the specification. *)
Example refresh_delay_1000 : refresh_delay 1000 = 933334.
Proof. reflexivity. Qed.

Example refresh_delay_10 : refresh_delay 10 = 60000.
Proof. reflexivity. Qed.

(** The values of [seconds] for which the exact delay fits an [int]. *)
Lemma exact_delay_in_int seconds :
  in_int (seconds * 1000 - 66666) <-> -2147416 <= seconds <= 2147550.
Proof. unfold in_int, INT_MIN, INT_MAX. lia. Qed.

(** Up to 2147483 seconds not even the product overflows. *)
Lemma product_in_int seconds :
  0 <= seconds <= 2147483 -> int_mul seconds 1000 = seconds * 1000.
Proof.
  intros Hs. unfold int_mul. apply wrap_int_id.
  unfold in_int, INT_MIN, INT_MAX. lia.
Qed.

(** C2, as stated, fails: a lifetime of 3,000,000 seconds (about 35 days)
    schedules the floor of 60000 ms, not 2,999,933,334 ms. *)
Lemma set_refresh_time_not_ideal_for_all :
  in_int 3000000
  /\ timer_interval (set_refresh_time 3000000 new_wxTimer) = 60000
  /\ ideal_delay 3000000 = 2999933334
  /\ timer_interval (set_refresh_time 3000000 new_wxTimer)
     <> ideal_delay 3000000.
Proof. repeat split; vm_compute; congruence. Qed.

(** C2, amended.  Whenever [seconds * 1000 - 66666] is representable as an
    [int], [set_refresh_time] stops the token timer and restarts it as a
    running one-shot timer whose delay in milliseconds is
    [max(seconds * 1000 - 66666, 60000)]. *)
Theorem set_refresh_time_delay seconds m_token_timer :
  in_int (seconds * 1000 - 66666) ->
  set_refresh_time seconds m_token_timer
  = {| timer_running := true; timer_one_shot := true;
       timer_interval := Z.max (seconds * 1000 - 66666) 60000 |}.
Proof.
  intros Hrange. unfold set_refresh_time, StartOnce.
  now rewrite refresh_delay_wrap, wrap_int_id.
Qed.

Lemma set_refresh_time_delay_witness :
  in_int (1000 * 1000 - 66666)
  /\ set_refresh_time 1000 new_wxTimer
     = {| timer_running := true; timer_one_shot := true;
          timer_interval := 933334 |}.
Proof.
  assert (H : in_int (1000 * 1000 - 66666))
    by (unfold in_int, INT_MIN, INT_MAX; lia).
  split; [exact H|].
  exact (set_refresh_time_delay 1000 new_wxTimer H).
Defined.

(** C10, as stated, fails: 2,147,484 exceeds [INT_MAX / 1000], the product
    wraps, but the subtraction wraps back and the delay is the ideal one. *)
Lemma refresh_delay_ideal_beyond_int_max_div_1000 :
  INT_MAX / 1000 < 2147484
  /\ int_mul 2147484 1000 <> 2147484 * 1000
  /\ refresh_delay 2147484 = 2147417334
  /\ refresh_delay 2147484 = ideal_delay 2147484.
Proof. repeat split; vm_compute; congruence. Qed.

(** C10, amended.  For every [seconds] above [INT_MAX / 1000] the product
    [seconds * 1000] wraps; the scheduled delay differs from
    [max(seconds * 1000 - 66666, 60000)] over unbounded integers exactly when
    [seconds > 2147550], i.e. when [seconds * 1000 - 66666] exceeds
    [INT_MAX]; from 2147484 to 2147550 the two agree. *)
Theorem refresh_delay_overflow seconds :
  INT_MAX / 1000 < seconds ->
  int_mul seconds 1000 <> seconds * 1000
  /\ (refresh_delay seconds <> ideal_delay seconds <-> 2147550 < seconds).
Proof.
  intros Hbig.
  assert (Hq : INT_MAX / 1000 = 2147483) by reflexivity.
  rewrite Hq in Hbig. split.
  - unfold int_mul. pose proof (wrap_int_range (seconds * 1000)) as H.
    unfold in_int, INT_MIN, INT_MAX in H. lia.
  - unfold ideal_delay. split.
    + intros Hneq.
      destruct (Z_lt_le_dec 2147550 seconds) as [Hlt|Hle]; [exact Hlt|].
      exfalso. apply Hneq. rewrite refresh_delay_wrap, wrap_int_id.
      * reflexivity.
      * unfold in_int, INT_MIN, INT_MAX. lia.
    + intros Hlt Heq.
      pose proof (refresh_delay_in_int seconds) as H.
      unfold in_int, INT_MIN, INT_MAX in H. lia.
Qed.

Lemma refresh_delay_overflow_witness :
  INT_MAX / 1000 < 3000000
  /\ int_mul 3000000 1000 <> 3000000 * 1000
  /\ (refresh_delay 3000000 <> ideal_delay 3000000 <-> 2147550 < 3000000).
Proof.
  assert (H : INT_MAX / 1000 < 3000000) by (vm_compute; reflexivity).
  split; [exact H|].
  exact (refresh_delay_overflow 3000000 H).
Defined.

End RefreshTimerFacts.

(** ** The PKCE generator *)

Module Base64Facts.
Import Base64 Base64Url.

(** Decides a property of all 256 characters by cases. *)
Ltac by_all_chars c := destruct c as [[] [] [] [] [] [] [] []]; reflexivity.

Lemma land_fc_shr2 c : Z.shiftr (Z.land (char_code c) 0xfc) 2 = char_code c / 4.
Proof. by_all_chars c. Qed.

Lemma land_03_shl4 c :
  Z.shiftl (Z.land (char_code c) 0x03) 4 = (char_code c mod 4) * 16.
Proof. by_all_chars c. Qed.

Lemma land_f0_shr4 c : Z.shiftr (Z.land (char_code c) 0xf0) 4 = char_code c / 16.
Proof. by_all_chars c. Qed.

Lemma land_c0_shr6 c : Z.shiftr (Z.land (char_code c) 0xc0) 6 = char_code c / 64.
Proof. by_all_chars c. Qed.

Lemma land_0f_shl2 c :
  Z.shiftl (Z.land (char_code c) 0x0f) 2 = (char_code c mod 16) * 4.
Proof. by_all_chars c. Qed.

Lemma land_3f c : Z.land (char_code c) 0x3f = char_code c mod 64.
Proof. by_all_chars c. Qed.

Ltac sextet_arith :=
  intros; unfold sextet, group24;
  repeat match goal with
         | |- context [char_code ?c] =>
             let v := fresh "v" in
             let Hv := fresh "Hv" in
             pose proof (char_code_range c) as Hv;
             set (v := char_code c) in *; clearbody v
         end;
  change (64 ^ 3) with 262144; change (64 ^ 2) with 4096;
  change (64 ^ 1) with 64; change (64 ^ 0) with 1;
  Z.div_mod_to_equations; lia.

Lemma sextet3 a b c : sextet (group24 a b c) 3 = char_code a / 4.
Proof. sextet_arith. Qed.

Lemma sextet2 a b c :
  sextet (group24 a b c) 2 = (char_code a mod 4) * 16 + char_code b / 16.
Proof. sextet_arith. Qed.

Lemma sextet1 a b c :
  sextet (group24 a b c) 1 = char_code c / 64 + (char_code b mod 16) * 4.
Proof. sextet_arith. Qed.

Lemma sextet0 a b c : sextet (group24 a b c) 0 = char_code c mod 64.
Proof. sextet_arith. Qed.

Lemma sextet_range g k : 0 <= sextet g k < 64.
Proof. unfold sextet. apply Z.mod_pos_bound. lia. Qed.

Lemma tab_digit : tab = digit standard_alphabet.
Proof. reflexivity. Qed.

Lemma enc0_sextet a b c : enc0 a = digit standard_alphabet (sextet (group24 a b c) 3).
Proof. unfold enc0. now rewrite tab_digit, land_fc_shr2, sextet3. Qed.

Lemma enc1_sextet a b c :
  enc1 a b = digit standard_alphabet (sextet (group24 a b c) 2).
Proof.
  unfold enc1. now rewrite tab_digit, land_03_shl4, land_f0_shr4, sextet2.
Qed.

Lemma enc2_sextet a b c :
  enc2 b c = digit standard_alphabet (sextet (group24 a b c) 1).
Proof.
  unfold enc2. now rewrite tab_digit, land_c0_shr6, land_0f_shl2, sextet1.
Qed.

Lemma enc3_sextet a b c :
  enc3 c = digit standard_alphabet (sextet (group24 a b c) 0).
Proof. unfold enc3. now rewrite tab_digit, land_3f, sextet0. Qed.

(** Induction on strings three characters at a time. *)
Lemma triple_ind (P : std_string -> Prop) :
  P [] -> (forall a, P [a]) -> (forall a b, P [a; b]) ->
  (forall a b c rest, P rest -> P (a :: b :: c :: rest)) ->
  forall s, P s.
Proof.
  intros H0 H1 H2 H3 s.
  assert (H : P s /\ (forall a, P (a :: s)) /\ (forall a b, P (a :: b :: s))).
  { induction s as [|x s (IH0 & IH1 & IH2)]; repeat split; auto. }
  apply H.
Qed.

(** The encoder of boost::beast computes base64 of RFC 4648. *)
Lemma encode_base64 input : encode input = base64 input.
Proof.
  induction input as [|a|a b|a b c rest IH] using triple_ind.
  - reflexivity.
  - cbn [encode base64].
    rewrite (enc0_sextet a zero zero). change tab with (digit standard_alphabet).
    rewrite land_03_shl4.
    rewrite (sextet2 a zero zero).
    change (char_code zero) with 0. change (0 / 16) with 0.
    now rewrite Z.add_0_r.
  - cbn [encode base64].
    rewrite (enc0_sextet a b zero), (enc1_sextet a b zero).
    change tab with (digit standard_alphabet).
    rewrite land_0f_shl2, (sextet1 a b zero).
    change (char_code zero) with 0. change (0 / 64) with 0.
    now rewrite Z.add_0_l.
  - cbn [encode base64].
    rewrite (enc0_sextet a b c), (enc1_sextet a b c), (enc2_sextet a b c),
      (enc3_sextet a b c), IH.
    reflexivity.
Qed.

(** [encode] returns exactly [encoded_size] characters, the size the caller
    gives to the buffer. *)
Lemma encode_length input :
  Z.of_nat (length (encode input)) = encoded_size (Z.of_nat (length input)).
Proof.
  unfold encoded_size.
  induction input as [|a|a b|a b c rest IH] using triple_ind;
    try reflexivity.
  cbn [encode length].
  rewrite !Nat2Z.inj_succ, IH.
  Z.div_mod_to_equations. lia.
Qed.

(** A digit of either alphabet is never the padding character. *)
Lemma digit_not_padding alphabet v :
  alphabet = standard_alphabet \/ alphabet = url_alphabet ->
  0 <= v < 64 -> digit alphabet v <> "="%char.
Proof.
  intros Ha Hv. unfold digit.
  assert (Hn : (Z.to_nat v < 64)%nat) by lia.
  revert Hn. generalize (Z.to_nat v). intros n Hn.
  do 64 (destruct n as [|n]; [destruct Ha as [-> | ->]; discriminate|]).
  lia.
Qed.

Lemma url_safe_digit v :
  0 <= v < 64 -> url_safe (digit standard_alphabet v) = digit url_alphabet v.
Proof.
  intros Hv. unfold digit.
  assert (Hn : (Z.to_nat v < 64)%nat) by lia.
  revert Hn. generalize (Z.to_nat v). intros n Hn.
  do 64 (destruct n as [|n]; [reflexivity|]).
  lia.
Qed.

Lemma strip_padding_cons_keep c s :
  c <> "="%char -> strip_padding (c :: s) = c :: strip_padding s.
Proof.
  intros Hc. cbn [strip_padding].
  destruct (strip_padding s); [|reflexivity].
  apply char_eqb_neq in Hc. now rewrite Hc.
Qed.

Lemma strip_padding_snoc s c :
  strip_padding (s ++ [c])
  = if char_eqb c "=" then strip_padding s else s ++ [c].
Proof.
  induction s as [|x s IH].
  - cbn. destruct (char_eqb c "="); reflexivity.
  - cbn [app strip_padding]. rewrite IH.
    destruct (char_eqb c "=") eqn:Hc.
    + reflexivity.
    + destruct (s ++ [c]) eqn:Hs; [destruct s; discriminate|reflexivity].
Qed.

(** Base64url is base64 made URL safe and stripped of its padding. *)
Lemma base64url_nopad_direct bytes :
  base64url_nopad bytes = base64url_direct bytes.
Proof.
  unfold base64url_nopad.
  induction bytes as [|a|a b|a b c rest IH] using triple_ind.
  - reflexivity.
  - cbn [base64 base64url_direct map].
    rewrite !url_safe_digit by apply sextet_range.
    rewrite !strip_padding_cons_keep
      by (apply digit_not_padding; [now right|apply sextet_range]).
    reflexivity.
  - cbn [base64 base64url_direct map].
    rewrite !url_safe_digit by apply sextet_range.
    rewrite !strip_padding_cons_keep
      by (apply digit_not_padding; [now right|apply sextet_range]).
    reflexivity.
  - cbn [base64 base64url_direct map].
    rewrite !url_safe_digit by apply sextet_range.
    rewrite !strip_padding_cons_keep
      by (apply digit_not_padding; [now right|apply sextet_range]).
    now rewrite IH.
Qed.

Lemma base64url_direct_nonempty bytes :
  bytes <> [] -> base64url_direct bytes <> [].
Proof.
  destruct bytes as [|a [|b [|c rest]]]; [congruence|discriminate..].
Qed.

End Base64Facts.

Module CodeChalengeGeneratorFacts.
Import MachineInt Base64 Base64Url Base64Facts CodeChalengeGenerator.

(** The buffer has exactly the size that [encode] writes. *)
Lemma resize_and_encode_encode input : resize_and_encode input = encode input.
Proof.
  unfold resize_and_encode.
  rewrite drop_ge; [apply app_nil_r|].
  rewrite repeat_length, <- encode_length. lia.
Qed.

Lemma replace_twice_url_safe output :
  replace "/" "_" (replace "+" "-" output) = map url_safe output.
Proof.
  unfold replace. rewrite map_map. apply map_ext. intros c.
  unfold url_safe. destruct (char_eqb c "+") eqn:Hplus; [reflexivity|].
  reflexivity.
Qed.

Lemma snoc_cases (s : std_string) : s = [] \/ exists s' c, s = s' ++ [c].
Proof.
  destruct s as [|x s] using rev_ind; [now left|right; eauto].
Qed.

(** The loop removes the trailing padding when a character other than ['=']
    remains, and otherwise runs into [back()] of the empty string. *)
Lemma pop_padding_strip fuel output :
  (length output < fuel)%nat ->
  pop_padding fuel output
  = match strip_padding output with
    | [] => Undefined
    | stripped => Returns stripped
    end.
Proof.
  revert output. induction fuel as [|fuel IH]; intros output Hfuel; [lia|].
  cbn [pop_padding].
  destruct (snoc_cases output) as [->|(s' & c & ->)]; [reflexivity|].
  rewrite last_snoc, removelast_last, strip_padding_snoc.
  rewrite length_app in Hfuel. cbn [length] in Hfuel.
  destruct (char_eqb c "=").
  - apply IH. lia.
  - destruct (s' ++ [c]) eqn:Hs; [destruct s'; discriminate|reflexivity].
Qed.

(** On a non-empty input [base64_encode] is defined and is base64url without
    padding; on the empty input [output.back()] is evaluated on an empty
    string. *)
Lemma base64_encode_url input :
  input <> [] -> base64_encode input = Returns (base64url_nopad input).
Proof.
  intros Hne. unfold base64_encode.
  rewrite replace_twice_url_safe, resize_and_encode_encode, encode_base64.
  rewrite pop_padding_strip by lia.
  fold (base64url_nopad input).
  pose proof (base64url_direct_nonempty input Hne) as Hd.
  rewrite <- base64url_nopad_direct in Hd.
  destruct (base64url_nopad input); [congruence|reflexivity].
Qed.

Example base64_encode_empty : base64_encode [] = Undefined.
Proof. reflexivity. Qed.

(** The challenge of the verifier [abc] with the reference digest. *)
Example generate_chalenge_abc :
  generate_chalenge Sha256Reference.platform_sha256 (lit "abc")
  = Returns (lit "ungWv48Bz-pBQUDeXa4iI7ADYaOWF3qctBD_YfIAFa0").
Proof. vm_compute. reflexivity. Qed.

(** A digest that throws leaves the challenge empty. *)
Lemma generate_chalenge_throws sha256 verifier e :
  sha256 verifier = Throws e -> generate_chalenge sha256 verifier = Returns [].
Proof. intros H. unfold generate_chalenge. now rewrite H. Qed.

(** C3. [generate_chalenge] is a function of the verifier and of the platform
    digest alone.  When the digest returns (32 bytes for SHA-256; any
    non-empty string will do), the challenge is the base64 encoding of the
    digest with ['+'] replaced by ['-'], ['/'] replaced by ['_'] and every
    trailing ['='] removed, which is base64url without padding. *)
Theorem generate_chalenge_base64url sha256 verifier digest :
  sha256 verifier = Returns digest ->
  digest <> [] ->
  generate_chalenge sha256 verifier = Returns (base64url_nopad digest)
  /\ base64url_nopad digest = base64url_direct digest.
Proof.
  intros Hsha Hne. unfold generate_chalenge. rewrite Hsha. split.
  - cbn [bind]. now rewrite base64_encode_url.
  - apply base64url_nopad_direct.
Qed.

Lemma generate_chalenge_base64url_witness :
  Sha256Reference.platform_sha256 (lit "abc")
  = Returns (Sha256Reference.sha256 (lit "abc"))
  /\ Sha256Reference.sha256 (lit "abc") <> []
  /\ generate_chalenge Sha256Reference.platform_sha256 (lit "abc")
     = Returns (base64url_nopad (Sha256Reference.sha256 (lit "abc")))
  /\ base64url_nopad (Sha256Reference.sha256 (lit "abc"))
     = base64url_direct (Sha256Reference.sha256 (lit "abc")).
Proof.
  assert (H1 : Sha256Reference.platform_sha256 (lit "abc")
               = Returns (Sha256Reference.sha256 (lit "abc")))
    by reflexivity.
  assert (H2 : Sha256Reference.sha256 (lit "abc") <> [])
    by (vm_compute; discriminate).
  split; [exact H1|]. split; [exact H2|].
  exact (generate_chalenge_base64url Sha256Reference.platform_sha256
           (lit "abc") (Sha256Reference.sha256 (lit "abc")) H1 H2).
Defined.

(** Every character of [chars] is alphanumeric. *)
Lemma chars_alphanumeric : Forall alphanumeric chars.
Proof.
  unfold chars, lit. cbn [list_ascii_of_string].
  repeat (constructor; [unfold alphanumeric; vm_compute; intuition congruence|]).
  constructor.
Qed.

Lemma chars_lookup k :
  0 <= k < Z.of_nat (length chars) ->
  exists c, chars !! Z.to_nat k = Some c /\ alphanumeric c.
Proof.
  intros Hk.
  destruct (lookup_lt_is_Some_2 chars (Z.to_nat k) ltac:(lia)) as [c Hc].
  exists c. split; [exact Hc|].
  pose proof chars_alphanumeric as Hall.
  rewrite Forall_forall in Hall. apply Hall.
  eapply list_elem_of_lookup_2. exact Hc.
Qed.

(** The loop appends [n] alphanumeric characters, whatever the engine
    draws within the bounds of the distribution. *)
Lemma verifier_loop_spec (G : Type) (distribution : Z -> Z -> G -> Z * G) :
  uniform_int_contract distribution ->
  forall n gen code_verifier,
  exists v,
    verifier_loop G distribution n gen code_verifier
    = Returns (code_verifier ++ v)
    /\ length v = n /\ Forall alphanumeric v.
Proof.
  intros Hcontract. induction n as [|n IH]; intros gen code_verifier.
  - exists []. cbn. rewrite app_nil_r. repeat split. constructor.
  - cbn [verifier_loop].
    pose proof (Hcontract 0 (Z.of_nat (length chars) - 1) gen
                  ltac:(vm_compute; congruence)) as Hk.
    destruct (distribution 0 (Z.of_nat (length chars) - 1) gen) as [k gen'].
    cbn [fst] in Hk.
    destruct (chars_lookup k ltac:(lia)) as (c & Hc & Hal).
    replace ((0 <=? k) && (k <? Z.of_nat (length chars))) with true
      by (symmetry; apply andb_true_iff; split;
          [apply Z.leb_le|apply Z.ltb_lt]; lia).
    rewrite Hc.
    destruct (IH gen' (code_verifier ++ [c])) as (v & Hv & Hlen & Hall).
    exists (c :: v). rewrite Hv, <- app_assoc. cbn.
    repeat split; [congruence|now constructor].
Qed.

Lemma example_engine_contract : uniform_int_contract LcgEngine.distribution.
Proof.
  intros a b g Hab. unfold LcgEngine.distribution. cbn [fst].
  pose proof (Z.mod_pos_bound g (b - a + 1) ltac:(lia)). lia.
Qed.

Example generate_verifier_example :
  generate_verifier Z LcgEngine.seed LcgEngine.distribution 2024
  = Returns (lit "O5s7uDAhep0FOjqlGpcfsbWZuvUpob8jO3gL8LCl").
Proof. vm_compute. reflexivity. Qed.

(** C4. Whatever values the engine draws within the bounds of the
    distribution, [generate_verifier] returns a string of exactly 40
    characters, all of them in [[A-Za-z0-9]]. *)
Theorem generate_verifier_length_alphabet
    (G : Type) (seed : Z -> G) (distribution : Z -> Z -> G -> Z * G)
    (rd : Z) :
  uniform_int_contract distribution ->
  exists code_verifier,
    generate_verifier G seed distribution rd = Returns code_verifier
    /\ length code_verifier = 40%nat
    /\ Forall alphanumeric code_verifier.
Proof.
  intros Hcontract. unfold generate_verifier, generate_code_verifier.
  destruct (verifier_loop_spec G distribution Hcontract 40 (seed rd) [])
    as (v & Hv & Hlen & Hall).
  exists v. auto.
Qed.

Lemma generate_verifier_length_alphabet_witness :
  uniform_int_contract LcgEngine.distribution
  /\ exists code_verifier,
       generate_verifier Z LcgEngine.seed LcgEngine.distribution 2024
       = Returns code_verifier
       /\ length code_verifier = 40%nat
       /\ Forall alphanumeric code_verifier.
Proof.
  split; [exact example_engine_contract|].
  exact (generate_verifier_length_alphabet Z LcgEngine.seed
           LcgEngine.distribution 2024 example_engine_contract).
Defined.

End CodeChalengeGeneratorFacts.

(** ** The enqueue methods *)

Module EnqueueFacts.
Import Session Orchestrator Worker SessionModel.

Section WithSession.
Context {S : Type} `{SessionQueue S}.

(** Every enqueue method is its block followed by the wake-up. *)
Lemma enqueue_block_then_wakeup call (w : World S) :
  enqueue call w = then_wakeup (enqueue_block call w).
Proof. destruct call; reflexivity. Qed.

(** The call that each block makes on the session appends one action of
    the matching kind. *)
Lemma enqueue_block_not_initialized call (w : World S) :
  is_initialized (m_session (this w)) = false ->
  exists message,
    enqueue_block call w
    = (false, on_env (BOOST_LOG_TRIVIAL error message) w).
Proof.
  intros Hinit.
  destruct call; cbn [enqueue_block];
    unfold enqueue_connect_printer_models_action_block,
      enqueue_connect_status_action_block, enqueue_test_connection_block,
      enqueue_avatar_action_block, enqueue_printer_data_action_block,
      enqueue_refresh_block, guarded_block;
    rewrite Hinit; cbn [negb]; eexists; reflexivity.
Qed.

Lemma enqueue_block_initialized call (w : World S) :
  is_initialized (m_session (this w)) = true ->
  exists w' action,
    enqueue_block call w = (true, w')
    /\ kind action = matching_kind call
    /\ pending (m_session (this w')) = pending (m_session (this w)) ++ [action]
    /\ env w' = env w
    /\ m_thread_wakeup (this w') = m_thread_wakeup (this w)
    /\ m_thread_stop (this w') = m_thread_stop (this w)
    /\ m_window_is_active (this w') = m_window_is_active (this w).
Proof.
  intros Hinit.
  destruct call; cbn [enqueue_block];
    unfold enqueue_connect_printer_models_action_block,
      enqueue_connect_status_action_block, enqueue_test_connection_block,
      enqueue_avatar_action_block, enqueue_printer_data_action_block,
      enqueue_refresh_block, guarded_block;
    rewrite Hinit; cbn [negb].
  1, 2, 4, 5:
    eexists; eexists; split; [reflexivity|];
    cbn; rewrite enqueue_action_pending;
    repeat split; reflexivity.
  - destruct (enqueue_test_with_refresh_pending (m_session (this w)))
      as (action & Hkind & Hq).
    eexists; exists action; split; [reflexivity|].
    cbn; rewrite Hq; repeat split; assumption.
  - destruct (enqueue_refresh_pending [] (m_session (this w)))
      as (action & Hkind & Hq).
    eexists; exists action; split; [reflexivity|].
    cbn; rewrite Hq; repeat split; assumption.
Qed.

(** C7. For each of the six enqueue methods: when the session reports not
    initialized, the call only adds one error line to the log, leaving the
    object (session, queue and wake-up flag) as it was; otherwise it
    appends exactly one Pending Action of the matching kind to the queue
    of the session and sets the wake-up flag, leaving the log as it was.
    The methods return nothing and throw nothing. *)
Theorem enqueue_guarded_append call (w : World S) :
  (is_initialized (m_session (this w)) = false ->
     this (enqueue call w) = this w
     /\ exists message,
          env (enqueue call w) = BOOST_LOG_TRIVIAL error message (env w))
  /\ (is_initialized (m_session (this w)) = true ->
        (exists action,
           kind action = matching_kind call
           /\ pending (m_session (this (enqueue call w)))
              = pending (m_session (this w)) ++ [action])
        /\ m_thread_wakeup (this (enqueue call w)) = true
        /\ wait_predicate (enqueue call w) = true
        /\ env (enqueue call w) = env w).
Proof.
  rewrite enqueue_block_then_wakeup. split; intros Hinit.
  - destruct (enqueue_block_not_initialized call w Hinit) as (msg & ->).
    cbn. split; [reflexivity|]. now exists msg.
  - destruct (enqueue_block_initialized call w Hinit)
      as (w' & action & -> & Hkind & Hq & Henv & _).
    cbn. unfold wait_predicate. cbn.
    repeat split; [|apply orb_true_r|exact Henv].
    exists action. split; [exact Hkind|exact Hq].
Qed.

End WithSession.

(** Both cases of the theorem on the session of the specification: a session
    without tokens, and a logged-in one. *)
Lemma enqueue_guarded_append_witness :
  let logged_out := on_session clear (example_world true false) in
  let logged_in := example_world true false in
  (is_initialized (m_session (this logged_out)) = false
   /\ this (enqueue call_enqueue_refresh logged_out) = this logged_out
   /\ exists message,
        env (enqueue call_enqueue_refresh logged_out)
        = BOOST_LOG_TRIVIAL error message (env logged_out))
  /\ (is_initialized (m_session (this logged_in)) = true
      /\ (exists action,
            kind action = matching_kind call_enqueue_refresh
            /\ pending (m_session (this (enqueue call_enqueue_refresh logged_in)))
               = pending (m_session (this logged_in)) ++ [action])
      /\ m_thread_wakeup (this (enqueue call_enqueue_refresh logged_in)) = true
      /\ wait_predicate (enqueue call_enqueue_refresh logged_in) = true
      /\ env (enqueue call_enqueue_refresh logged_in) = env logged_in).
Proof.
  intros logged_out logged_in. split.
  - split; [reflexivity|].
    exact (proj1 (enqueue_guarded_append call_enqueue_refresh logged_out)
             eq_refl).
  - split; [reflexivity|].
    exact (proj2 (enqueue_guarded_append call_enqueue_refresh logged_in)
             eq_refl).
Defined.

(** The two cases on the session of the specification. *)
Example enqueue_refresh_example :
  queue (m_session (this (enqueue_refresh (example_world true false))))
  = [{| kind := refresh; on_success := None; on_failure := None;
        payload := [] |}]
  /\ m_thread_wakeup (this (enqueue_refresh (example_world true false))) = true.
Proof. split; reflexivity. Qed.

Example enqueue_avatar_not_initialized :
  let w := on_session clear (example_world true false) in
  this (enqueue_avatar_action (lit "https://example.org/a.png") w) = this w
  /\ log (env (enqueue_avatar_action (lit "https://example.org/a.png") w))
     = [(error,
         lit "Connect Printers endpoint connection failed - Not Logged in.")].
Proof. split; reflexivity. Qed.

End EnqueueFacts.

(** ** set_username *)

Module PersistenceFacts.
Import Session SecretStore Orchestrator StringUtil SessionModel Persisted.

Section WithSession.
Context {S : Type} `{UserAccountSession S}.
Variable SLIC3R_APP_NAME : std_string.

Lemma Save_requests service username password store :
  save_requests (snd (Save service username password store))
  = save_requests store ++ [(service, username, password)].
Proof. unfold Save. destruct (accepts_save store); reflexivity. Qed.

Lemma Save_accepted service username password store :
  accepts_save store = true ->
  fst (Save service username password store) = true
  /\ secrets (snd (Save service username password store)) !! service
     = Some (username, password).
Proof.
  intros Hacc. unfold Save. rewrite Hacc. cbn. split; [reflexivity|].
  apply lookup_insert_eq.
Qed.

(** C8. With the secret store compiled in and reporting [IsOk],
    [set_username] sends exactly one [Save] request to the store, for the
    service [<app>/PrusaAccount/tokens], under the shared session key of
    the session as user name; the value is the empty string when
    remember-session is off and the bundle
    [access_token|refresh_token|next_token_timeout] of the current session
    when it is on.  The request is made in both cases; when the platform
    carries it out, the value is what the store then holds under that
    service, and nothing is logged. *)
Theorem set_username_stores_tokens username (w : World S) :
  IsOk (secret_store (env w)) = true ->
  let w' := set_username true SLIC3R_APP_NAME username w in
  let service := service_name SLIC3R_APP_NAME (lit "tokens") in
  let key := get_shared_session_key (m_session (this w)) in
  let value := tokens_to_store w in
  m_username (this w') = username
  /\ secret_store (env w') = snd (Save service key value (secret_store (env w)))
  /\ save_requests (secret_store (env w'))
     = save_requests (secret_store (env w)) ++ [(service, key, value)]
  /\ (accepts_save (secret_store (env w)) = true ->
        secrets (secret_store (env w')) !! service = Some (key, value)
        /\ log (env w') = log (env w)).
Proof.
  intros Hok. cbn zeta.
  unfold set_username, is_secret_store_ok, save_secret, tokens_to_store,
    token_bundle.
  cbn -[lit Save service_name to_string].
  repeat (rewrite Hok; cbn -[lit Save service_name to_string]).
  set (service := service_name SLIC3R_APP_NAME (lit "tokens")).
  set (key := get_shared_session_key (m_session (this w))).
  set (value := if m_remember_session (this w) then _ else _).
  destruct (Save service key value (secret_store (env w)))
    as [saved store'] eqn:Hsave.
  assert (Hstore : store' = snd (Save service key value (secret_store (env w))))
    by now rewrite Hsave.
  assert (Hsaved : saved = fst (Save service key value (secret_store (env w))))
    by now rewrite Hsave.
  destruct saved; cbn -[lit Save service_name to_string].
  - split; [reflexivity|]. split; [reflexivity|].
    split; [rewrite Hstore; apply Save_requests|].
    intros Hacc. split; [|reflexivity].
    rewrite Hstore. now apply Save_accepted.
  - split; [reflexivity|]. split; [reflexivity|].
    split; [rewrite Hstore; apply Save_requests|].
    intros Hacc. exfalso.
    destruct (Save_accepted service key value _ Hacc) as [Hfst _].
    congruence.
Qed.

End WithSession.

(** Remember-session off: the empty string is stored under the tokens
    service. *)
Lemma set_username_stores_tokens_witness :
  IsOk (secret_store (env (example_world false true))) = true
  /\ let w' := set_username true (lit "PrusaSlicer") [] (example_world false true) in
     m_username (this w') = []
     /\ secret_store (env w')
        = snd (Save (lit "PrusaSlicer/PrusaAccount/tokens") (lit "key") []
                 example_store)
     /\ save_requests (secret_store (env w'))
        = [(lit "PrusaSlicer/PrusaAccount/tokens", lit "key", [])]
     /\ (accepts_save example_store = true ->
           secrets (secret_store (env w'))
             !! lit "PrusaSlicer/PrusaAccount/tokens"
           = Some (lit "key", [])
           /\ log (env w') = []).
Proof.
  split; [reflexivity|].
  exact (set_username_stores_tokens (lit "PrusaSlicer") []
           (example_world false true) eq_refl).
Defined.

(** Remember-session on: the bundle is stored. *)
Example set_username_remember_example :
  save_requests
    (secret_store
       (env (set_username true (lit "PrusaSlicer") (lit "user")
               (example_world true true))))
  = [(lit "PrusaSlicer/PrusaAccount/tokens", lit "key",
      lit "AT|RT|1700003600")].
Proof. reflexivity. Qed.

(** Without a usable store nothing is written. *)
Lemma set_username_without_store {S : Type} `{UserAccountSession S}
    app username (w : World S) :
  secret_store (env (set_username false app username w)) = secret_store (env w).
Proof. reflexivity. Qed.

End PersistenceFacts.

(** ** std::stoll and the constructor *)

Module StollFacts.
Import MachineInt StringUtil Persisted.

Lemma skip_spaces_spec s :
  exists ws, s = ws ++ skip_spaces s /\ forallb isspace ws = true.
Proof.
  induction s as [|c s (ws & Heq & Hws)]; [now exists []|].
  cbn [skip_spaces]. destruct (isspace c) eqn:Hc.
  - exists (c :: ws). cbn. rewrite Hc, Hws. split; [congruence|reflexivity].
  - now exists [].
Qed.

Lemma digits_prefix_spec s :
  exists rest,
    s = digits_prefix s ++ rest
    /\ forallb isdigit (digits_prefix s) = true
    /\ match rest with
       | c :: _ => isdigit c = false
       | [] => True
       end.
Proof.
  induction s as [|c s (rest & Heq & Hds & Hrest)]; [now exists []|].
  cbn [digits_prefix]. destruct (isdigit c) eqn:Hc.
  - exists rest. cbn. rewrite Hc, Hds. repeat split; [congruence|exact Hrest].
  - exists (c :: s). repeat split. exact Hc.
Qed.

Lemma split_sign_spec s :
  (split_sign s = (true, drop 1 s) /\ take 1 s = lit "-")
  \/ (split_sign s = (false, drop 1 s) /\ take 1 s = lit "+")
  \/ (split_sign s = (false, s) /\ take 1 s <> lit "-" /\ take 1 s <> lit "+").
Proof.
  destruct s as [|c s]; [right; right; repeat split; discriminate|].
  cbn [split_sign]. destruct (char_eqb c "-") eqn:Hm.
  - left. apply char_eqb_eq in Hm. subst c. now split.
  - destruct (char_eqb c "+") eqn:Hp.
    + right; left. apply char_eqb_eq in Hp. subst c. now split.
    + right; right. apply char_eqb_neq in Hm, Hp.
      repeat split; cbn; congruence.
Qed.

(** [stoll] never runs into undefined behaviour, and throws only one of its
    two exceptions. *)
Lemma stoll_total s :
  (exists v, stoll s = Returns v)
  \/ stoll s = Throws (invalid_argument (lit "stoll"))
  \/ stoll s = Throws (out_of_range (lit "stoll")).
Proof.
  unfold stoll. destruct (split_sign (skip_spaces s)) as [negative rest].
  destruct (digits_prefix rest) as [|d ds]; [now right; left|].
  destruct ((LLONG_MIN <=? _) && (_ <=? LLONG_MAX)); [left; eauto|now right; right].
Qed.

(** What [stoll] returns is the leading number of the string, which fits
    [long long]. *)
Lemma stoll_returns_leading_number s v :
  stoll s = Returns v ->
  leading_number s v /\ LLONG_MIN <= v <= LLONG_MAX.
Proof.
  unfold stoll. intros Hs.
  destruct (skip_spaces_spec s) as (ws & Hws & Hspaces).
  destruct (split_sign (skip_spaces s)) as [negative rest] eqn:Hsign.
  destruct (digits_prefix_spec rest) as (tail & Hrest & Hdigits & Htail).
  destruct (digits_prefix rest) as [|d ds] eqn:Hds; [discriminate|].
  destruct ((LLONG_MIN <=? _) && (_ <=? LLONG_MAX)) eqn:Hrange; [|discriminate].
  injection Hs as Hv.
  apply andb_true_iff in Hrange. destruct Hrange as [Hlo Hhi].
  apply Z.leb_le in Hlo, Hhi. rewrite Hv in Hlo, Hhi.
  split; [|lia].
  destruct (split_sign_spec (skip_spaces s))
    as [[Heq Hhead]|[[Heq Hhead]|[Heq [Hm Hp]]]];
    rewrite Hsign in Heq; injection Heq as Hneg Hr; subst negative.
  - exists ws, (lit "-"), (d :: ds), tail.
    repeat split; try assumption; try discriminate.
    + rewrite Hws at 1. f_equal.
      rewrite <- (take_drop 1 (skip_spaces s)), Hhead, <- Hr, Hrest.
      reflexivity.
    + right; right. split; [reflexivity|]. now rewrite <- Hv.
  - exists ws, (lit "+"), (d :: ds), tail.
    repeat split; try assumption; try discriminate.
    + rewrite Hws at 1. f_equal.
      rewrite <- (take_drop 1 (skip_spaces s)), Hhead, <- Hr, Hrest.
      reflexivity.
    + right; left. split; [reflexivity|]. now rewrite <- Hv.
  - exists ws, [], (d :: ds), tail.
    repeat split; try assumption; try discriminate.
    + rewrite Hws at 1. f_equal. cbn [app]. now rewrite <- Hr, Hrest.
    + left. split; [reflexivity|]. now rewrite <- Hv.
Qed.

Lemma isdigit_not_space c : isdigit c = true -> isspace c = false.
Proof.
  unfold isdigit, isspace. cbn zeta. intros H.
  apply andb_true_iff in H. destruct H as [H1 H2].
  apply Z.leb_le in H1, H2. change (char_code "0") with 48 in H1.
  change (char_code "9") with 57 in H2.
  apply orb_false_iff. split.
  - apply Z.eqb_neq. lia.
  - apply andb_false_iff. right. apply Z.leb_gt. lia.
Qed.

Lemma isdigit_not_sign c :
  isdigit c = true -> char_eqb c "-" = false /\ char_eqb c "+" = false.
Proof.
  intros H. split; apply char_eqb_neq; intros ->; discriminate.
Qed.

Lemma skip_spaces_app ws s :
  forallb isspace ws = true ->
  match s with
  | c :: _ => isspace c = false
  | [] => True
  end ->
  skip_spaces (ws ++ s) = s.
Proof.
  intros Hws Hs. induction ws as [|c ws IH]; cbn.
  - destruct s as [|c s]; [reflexivity|]. cbn. now rewrite Hs.
  - cbn in Hws. apply andb_true_iff in Hws. destruct Hws as [Hc Hws].
    rewrite Hc. now apply IH.
Qed.

Lemma digits_prefix_app ds rest :
  forallb isdigit ds = true ->
  match rest with
  | c :: _ => isdigit c = false
  | [] => True
  end ->
  digits_prefix (ds ++ rest) = ds.
Proof.
  intros Hds Hrest. induction ds as [|d ds IH]; cbn.
  - destruct rest as [|c rest]; [reflexivity|]. cbn. now rewrite Hrest.
  - cbn in Hds. apply andb_true_iff in Hds. destruct Hds as [Hd Hds].
    rewrite Hd. f_equal. now apply IH.
Qed.

(** Conversely, a leading number that fits [long long] is what [stoll]
    returns. *)
Lemma leading_number_stoll s v :
  leading_number s v -> LLONG_MIN <= v <= LLONG_MAX -> stoll s = Returns v.
Proof.
  intros (ws & sign & ds & rest & -> & Hws & Hsign & Hne & Hds & Hrest) Hv.
  destruct ds as [|d ds]; [congruence|].
  assert (Hd : isdigit d = true).
  { cbn in Hds. now apply andb_true_iff in Hds. }
  pose proof (isdigit_not_space d Hd) as Hdspace.
  pose proof (isdigit_not_sign d Hd) as [Hdm Hdp].
  unfold stoll.
  destruct Hsign as [[-> ->]|[[-> ->]|[-> ->]]].
  - rewrite skip_spaces_app by assumption.
    cbn [app split_sign]. rewrite Hdm, Hdp.
    change (digits_prefix (d :: ds ++ rest))
      with (digits_prefix ((d :: ds) ++ rest)).
    rewrite digits_prefix_app by assumption.
    replace ((LLONG_MIN <=? _) && (_ <=? LLONG_MAX)) with true; [reflexivity|].
    symmetry. apply andb_true_iff. split; apply Z.leb_le; lia.
  - rewrite skip_spaces_app by (assumption || reflexivity).
    cbn [lit list_ascii_of_string app split_sign].
    change (char_eqb "+" "-") with false. change (char_eqb "+" "+") with true.
    cbn iota.
    change (digits_prefix (d :: ds ++ rest))
      with (digits_prefix ((d :: ds) ++ rest)).
    rewrite digits_prefix_app by assumption.
    replace ((LLONG_MIN <=? _) && (_ <=? LLONG_MAX)) with true; [reflexivity|].
    symmetry. apply andb_true_iff. split; apply Z.leb_le; lia.
  - rewrite skip_spaces_app by (assumption || reflexivity).
    cbn [lit list_ascii_of_string app split_sign].
    change (char_eqb "-" "-") with true. cbn iota.
    change (digits_prefix (d :: ds ++ rest))
      with (digits_prefix ((d :: ds) ++ rest)).
    rewrite digits_prefix_app by assumption.
    replace ((LLONG_MIN <=? _) && (_ <=? LLONG_MAX)) with true; [reflexivity|].
    symmetry. apply andb_true_iff. split; apply Z.leb_le; lia.
Qed.

(** [stoll] throws exactly on the strings without a leading number that
    fits [long long]. *)
Lemma stoll_throws_iff s :
  (exists e, stoll s = Throws e)
  <-> ~ exists v, leading_number s v /\ LLONG_MIN <= v <= LLONG_MAX.
Proof.
  split.
  - intros [e He] (v & Hv & Hrange).
    rewrite (leading_number_stoll s v Hv Hrange) in He. discriminate.
  - intros Hnone.
    destruct (stoll_total s) as [[v Hv]|[Hi|Ho]]; [|eauto..].
    exfalso. apply Hnone. exists v. now apply stoll_returns_leading_number.
Qed.

Example stoll_trailing_text : stoll (lit "12abc") = Returns 12.
Proof. reflexivity. Qed.

Example stoll_leading_space_and_sign : stoll (lit "  +42") = Returns 42.
Proof. reflexivity. Qed.

Example stoll_no_digits :
  stoll (lit "abc") = Throws (invalid_argument (lit "stoll")).
Proof. reflexivity. Qed.

Example stoll_too_large :
  stoll (lit "9223372036854775808") = Throws (out_of_range (lit "stoll")).
Proof. reflexivity. Qed.

End StollFacts.

Module ConstructorFacts.
Import MachineInt StringUtil Session SecretStore Orchestrator SessionModel.
Import Persisted StollFacts CodeChalengeGenerator.

Section WithSession.
Context {S : Type} `{UserAccountSession S}.
Variable wxUSE_SECRETSTORE : bool.
Variable SLIC3R_APP_NAME : std_string.
Variable client_id : std_string.
Variable sha256 : std_string -> result std_string.
Variable mt19937 : Type.
Variable seed : Z -> mt19937.
Variable distribution : Z -> Z -> mt19937 -> Z * mt19937.
Variable defaults : MemberDefaults.

Lemma verifier_loop_no_throw n gen acc exn :
  verifier_loop mt19937 distribution n gen acc <> Throws exn.
Proof.
  revert gen acc.
  induction n as [|n IH]; intros gen acc; cbn [verifier_loop];
    [discriminate|].
  destruct (distribution 0 _ gen) as [k gen'].
  destruct ((0 <=? k) && _); [|discriminate].
  destruct (chars !! Z.to_nat k); [apply IH|discriminate].
Qed.

Lemma generate_chalenge_no_throw verifier exn :
  generate_chalenge sha256 verifier <> Throws exn.
Proof.
  unfold generate_chalenge.
  destruct (bind (sha256 verifier) _); discriminate.
Qed.

Lemma login_redirect_no_throw (w : World S) exn :
  login_redirect client_id sha256 mt19937 seed distribution w <> Throws exn.
Proof.
  unfold login_redirect. destruct (draw_random_device (env w)) as [rd e].
  unfold generate_verifier, generate_code_verifier.
  destruct (verifier_loop mt19937 distribution 40 (seed rd) []) as [v|e'|] eqn:Hv;
    cbn [bind]; [|now apply verifier_loop_no_throw in Hv|discriminate].
  destruct (generate_chalenge sha256 v) as [c|e'|] eqn:Hc;
    cbn [bind]; [discriminate|now apply generate_chalenge_no_throw in Hc
                |discriminate].
Qed.

Lemma do_login_no_throw (w : World S) exn :
  do_login client_id sha256 mt19937 seed distribution w <> Throws exn.
Proof.
  unfold do_login. destruct (negb (is_initialized (m_session (this w)))).
  - destruct (login_redirect _ _ _ _ _ w) as [w'|e'|] eqn:Hl; cbn [bind];
      [discriminate|now apply login_redirect_no_throw in Hl|discriminate].
  - cbn [bind]. discriminate.
Qed.

(** The constructor throws exactly when the recovered text is not empty
    and [stoll] throws on it, and then with the exception of [stoll]. *)
Lemma constructor_throws connect_polling e exn :
  new_UserAccountCommunication wxUSE_SECRETSTORE SLIC3R_APP_NAME client_id
    sha256 mt19937 seed distribution defaults connect_polling e
  = Throws exn
  <-> stored_timeout wxUSE_SECRETSTORE SLIC3R_APP_NAME e <> []
      /\ stoll (stored_timeout wxUSE_SECRETSTORE SLIC3R_APP_NAME e)
         = Throws exn.
Proof.
  unfold new_UserAccountCommunication, stored_timeout.
  destruct (recover_tokens wxUSE_SECRETSTORE SLIC3R_APP_NAME e)
    as [[[[access_token refresh_token] key] next_timeout] e'].
  cbn [fst snd].
  destruct (bool_decide_reflect (next_timeout = [])) as [Hempty|Hne].
  - cbn [bind]. split; [|intros [Hc _]; congruence].
    intros Hthrow. exfalso. revert Hthrow.
    destruct (wrap_llong (0 - clock e') <=? 0);
      destruct (negb (bool_decide (refresh_token = [])));
      try discriminate; apply do_login_no_throw.
  - destruct (stoll next_timeout) as [next|exn'|] eqn:Hstoll; cbn [bind].
    + split; [|intros [_ Hc]; discriminate].
      intros Hthrow. exfalso. revert Hthrow.
      destruct (wrap_llong (next - clock e') <=? 0);
        destruct (negb (bool_decide (refresh_token = [])));
        try discriminate; apply do_login_no_throw.
    + split.
      * intros Hthrow. split; [exact Hne|]. congruence.
      * intros [_ Hthrow]. congruence.
    + split; [discriminate|intros [_ Hc]; discriminate].
Qed.

(** An empty text is not parsed at all. *)
Lemma constructor_empty_timeout connect_polling e exn :
  stored_timeout wxUSE_SECRETSTORE SLIC3R_APP_NAME e = [] ->
  new_UserAccountCommunication wxUSE_SECRETSTORE SLIC3R_APP_NAME client_id
    sha256 mt19937 seed distribution defaults connect_polling e
  <> Throws exn.
Proof.
  intros Hempty Hthrow. apply constructor_throws in Hthrow.
  destruct Hthrow as [Hne _]. congruence.
Qed.

(** C9, amended.  A non-empty stored expiry text goes to [std::stoll]
    unguarded, and construction throws exactly when [std::stoll] does, with
    its exception ([std::invalid_argument] or [std::out_of_range]): that
    is, exactly when the text does not begin, after white space and an
    optional sign, with a decimal number that fits [long long].
    Characters after that number are ignored. *)
Theorem constructor_throws_iff_no_leading_number connect_polling e :
  stored_timeout wxUSE_SECRETSTORE SLIC3R_APP_NAME e <> [] ->
  let constructed :=
    new_UserAccountCommunication wxUSE_SECRETSTORE SLIC3R_APP_NAME
      client_id sha256 mt19937 seed distribution defaults connect_polling e in
  (forall exn,
     constructed = Throws exn
     <-> stoll (stored_timeout wxUSE_SECRETSTORE SLIC3R_APP_NAME e)
         = Throws exn)
  /\ (forall exn,
        constructed = Throws exn ->
        exn = invalid_argument (lit "stoll")
        \/ exn = out_of_range (lit "stoll"))
  /\ ((exists exn, constructed = Throws exn)
      <-> ~ exists v,
            leading_number (stored_timeout wxUSE_SECRETSTORE SLIC3R_APP_NAME e) v
            /\ LLONG_MIN <= v <= LLONG_MAX).
Proof.
  intros Hne constructed.
  assert (Hiff : forall exn,
             constructed = Throws exn
             <-> stoll (stored_timeout wxUSE_SECRETSTORE SLIC3R_APP_NAME e)
                 = Throws exn).
  { intros exn. unfold constructed. rewrite constructor_throws. tauto. }
  split; [exact Hiff|]. split.
  - intros exn Hthrow. apply Hiff in Hthrow.
    destruct (stoll_total
                (stored_timeout wxUSE_SECRETSTORE SLIC3R_APP_NAME e))
      as [[v Hv]|[Hi|Ho]];
      [congruence|left; congruence|right; congruence].
  - rewrite <- stoll_throws_iff.
    split; intros [exn Hexn]; exists exn; now apply Hiff.
Qed.

End WithSession.

(** C9, as stated, fails: the stored text [1700003600xyz] is not a decimal
    integer, yet construction does not throw: [stoll] reads [1700003600],
    the refresh timer is scheduled and the session is created. *)
Lemma constructor_accepts_trailing_text :
  stored_timeout true (lit "PrusaSlicer")
    (env_with_tokens (lit "AT|RT|1700003600xyz"))
  = lit "1700003600xyz"
  /\ is_decimal_integer (lit "1700003600xyz") = false
  /\ exists w,
       example_construct (lit "AT|RT|1700003600xyz") = Returns w
       /\ RefreshTimer.timer_interval (m_token_timer (this w)) = 3533334
       /\ get_access_token (m_session (this w)) = lit "AT".
Proof.
  split; [vm_compute; reflexivity|]. split; [reflexivity|].
  destruct (example_construct (lit "AT|RT|1700003600xyz")) as [w| |] eqn:Hc;
    [|vm_compute in Hc; discriminate..].
  exists w. split; [reflexivity|].
  assert (Hw : Returns w = example_construct (lit "AT|RT|1700003600xyz"))
    by (symmetry; exact Hc).
  vm_compute in Hw. injection Hw as ->. split; reflexivity.
Qed.

Lemma constructor_throws_iff_no_leading_number_witness :
  stored_timeout true (lit "PrusaSlicer") (env_with_tokens (lit "AT|RT|soon"))
  <> []
  /\ let constructed := example_construct (lit "AT|RT|soon") in
     (forall exn,
        constructed = Throws exn
        <-> stoll (stored_timeout true (lit "PrusaSlicer")
                     (env_with_tokens (lit "AT|RT|soon")))
            = Throws exn)
     /\ (forall exn,
           constructed = Throws exn ->
           exn = invalid_argument (lit "stoll")
           \/ exn = out_of_range (lit "stoll"))
     /\ ((exists exn, constructed = Throws exn)
         <-> ~ exists v,
               leading_number
                 (stored_timeout true (lit "PrusaSlicer")
                    (env_with_tokens (lit "AT|RT|soon"))) v
               /\ LLONG_MIN <= v <= LLONG_MAX).
Proof.
  assert (Hne : stored_timeout true (lit "PrusaSlicer")
                  (env_with_tokens (lit "AT|RT|soon")) <> [])
    by (vm_compute; discriminate).
  split; [exact Hne|].
  exact (constructor_throws_iff_no_leading_number true (lit "PrusaSlicer")
           (lit "client") Sha256Reference.platform_sha256 Z LcgEngine.seed
           LcgEngine.distribution example_defaults true
           (env_with_tokens (lit "AT|RT|soon")) Hne).
Defined.

Example constructor_throws_example :
  example_construct (lit "AT|RT|soon")
  = Throws (invalid_argument (lit "stoll")).
Proof. vm_compute. reflexivity. Qed.

End ConstructorFacts.

(** ** The worker thread *)

Module WorkerFacts.
Import Session Orchestrator Worker WorkerLog.

Section WithSession.
Context {S : Type} `{UserAccountSession S}.

Implicit Types (r : Running S) (w : World S) (schedule : list (event S)).

(** *** Caller steps and the control flags *)

Lemma enqueue_block_flags call w :
  m_thread_stop (this (snd (enqueue_block call w))) = m_thread_stop (this w)
  /\ m_thread_wakeup (this (snd (enqueue_block call w)))
     = m_thread_wakeup (this w).
Proof.
  destruct call; cbn [enqueue_block];
    unfold enqueue_connect_printer_models_action_block,
      enqueue_connect_status_action_block, enqueue_test_connection_block,
      enqueue_avatar_action_block, enqueue_printer_data_action_block,
      enqueue_refresh_block, guarded_block;
    destruct (negb (is_initialized (m_session (this w)))); split; reflexivity.
Qed.

(** No caller clears the stop flag. *)
Lemma caller_keeps_stop c w :
  m_thread_stop (this w) = true -> m_thread_stop (this (caller c w)) = true.
Proof.
  intros Hstop. destruct c as [call| |active| |f]; cbn [caller].
  - now rewrite (proj1 (enqueue_block_flags call w)).
  - exact Hstop.
  - exact Hstop.
  - unfold request_stop. cbn.
    destruct (m_thread_joinable (this w)); [reflexivity|exact Hstop].
  - exact Hstop.
Qed.


(** An enqueue method is its block and then, unless the block returned, the
    wake-up: two caller steps of a schedule. *)
Lemma enqueue_as_caller_steps call w :
  is_initialized (m_session (this w)) = true ->
  run_callers [EnqueueBlock call; WakeupSessionThread] w = enqueue call w.
Proof.
  intros Hinit. unfold run_callers. cbn [fold_left caller].
  destruct call; cbn [enqueue_block enqueue];
    unfold enqueue_connect_printer_models_action,
      enqueue_connect_status_action, enqueue_test_connection,
      enqueue_avatar_action, enqueue_printer_data_action, enqueue_refresh,
      enqueue_connect_printer_models_action_block,
      enqueue_connect_status_action_block, enqueue_test_connection_block,
      enqueue_avatar_action_block, enqueue_printer_data_action_block,
      enqueue_refresh_block, guarded_block, then_wakeup;
    rewrite Hinit; reflexivity.
Qed.

(** *** Steps and the log *)


Lemma drains_app obs o :
  drains (obs ++ [o])
  = (drains obs + match o with Processed => 1 | _ => 0 end)%nat.
Proof.
  induction obs as [|x obs IH]; cbn [app drains].
  - destruct o; reflexivity.
  - destruct x; rewrite IH; reflexivity.
Qed.


Lemma wakeup_check_logged r :
  worker r = AtWakeupCheck ->
  observed (step r WorkerStep)
  = observed r ++ [ReadWakeup (m_thread_wakeup (this (world r)))].
Proof.
  intros Hat. cbn [step]. unfold worker_step. rewrite Hat.
  destruct (m_thread_wakeup (this (world r))); reflexivity.
Qed.

Lemma stop_check_logged r :
  worker r = AtStopCheck ->
  observed (step r WorkerStep)
  = observed r ++ [ReadStop (m_thread_stop (this (world r)))].
Proof.
  intros Hat. cbn [step]. unfold worker_step. rewrite Hat.
  destruct (m_thread_stop (this (world r))); reflexivity.
Qed.






(** *** Monotonicity and stability *)




(** The worker never writes the stop flag. *)
Lemma worker_step_stop timed_out r :
  m_thread_stop (this (world (worker_step timed_out r)))
  = m_thread_stop (this (world r)).
Proof.
  unfold worker_step.
  destruct (worker r);
    repeat match goal with
           | |- context [if ?b then _ else _] => destruct b eqn:?
           end; cbn; congruence.
Qed.

(** No step clears the stop flag. *)
Lemma step_keeps_stop r ev :
  m_thread_stop (this (world r)) = true ->
  m_thread_stop (this (world (step r ev))) = true.
Proof.
  intros Hstop. destruct ev as [| |c]; cbn [step].
  - now rewrite worker_step_stop.
  - destruct (worker r); try exact Hstop. now rewrite worker_step_stop.
  - cbn. now apply caller_keeps_stop.
Qed.




Lemma run_cons ev schedule r :
  run (ev :: schedule) r = run schedule (step r ev).
Proof. reflexivity. Qed.

(** *** A wake-up request leads to a drain *)


(** *** After the stop request *)

(** A worker that finds the stop flag set before the stop check of its
    iteration never calls [process_action_queue] again, and changes
    nothing: the world evolves by the caller steps alone. *)
Lemma stopped_before_check schedule r :
  m_thread_stop (this (world r)) = true ->
  before_stop_check (worker r) = true ->
  before_stop_check (worker (run schedule r)) = true
  /\ drains (observed (run schedule r)) = drains (observed r)
  /\ world (run schedule r) = run_callers (callers_of schedule) (world r).
Proof.
  revert r. induction schedule as [|ev schedule IH]; intros r Hstop Hloc.
  - cbn. auto.
  - rewrite run_cons.
    pose proof (step_keeps_stop r ev Hstop) as Hstop'.
    destruct ev as [| |c]; cbn [callers_of].
    + cbn [step] in *. unfold worker_step in *.
      destruct (worker r) eqn:Hat; try discriminate.
      * unfold wait_predicate in *. rewrite Hstop in *. cbn [orb] in *.
        destruct (IH _ Hstop' eq_refl) as (Hb & Hd & Hw).
        cbn in Hd, Hw. rewrite drains_app in Hd. cbn in Hd.
        repeat split; [exact Hb|lia|exact Hw].
      * rewrite Hstop in *.
        destruct (IH _ Hstop' eq_refl) as (Hb & Hd & Hw).
        cbn in Hd, Hw. rewrite drains_app in Hd. cbn in Hd.
        repeat split; [exact Hb|lia|exact Hw].
      * apply IH; [exact Hstop|now rewrite Hat].
    + cbn [step] in *.
      destruct (worker r) eqn:Hat; try discriminate.
      * unfold worker_step in *. rewrite Hat, orb_true_r in *.
        destruct (IH _ Hstop' eq_refl) as (Hb & Hd & Hw).
        cbn in Hd, Hw. rewrite drains_app in Hd. cbn in Hd.
        repeat split; [exact Hb|lia|exact Hw].
      * apply IH; [exact Hstop|now rewrite Hat].
      * apply IH; [exact Hstop|now rewrite Hat].
    + cbn [step] in *.
      destruct (IH _ Hstop' Hloc) as (Hb & Hd & Hw).
      cbn in Hd, Hw. repeat split; assumption.
Qed.

(** After the stop request the worker calls [process_action_queue] at most
    once more, and only if it was past the stop check of its iteration. *)
Lemma at_most_one_drain_after_stop schedule r :
  m_thread_stop (this (world r)) = true ->
  (drains (observed (run schedule r))
   <= drains (observed r)
      + (if before_stop_check (worker r) then 0 else 1))%nat.
Proof.
  revert r. induction schedule as [|ev schedule IH]; intros r Hstop.
  - cbn. lia.
  - destruct (before_stop_check (worker r)) eqn:Hloc.
    { destruct (stopped_before_check (ev :: schedule) r Hstop Hloc)
        as (_ & Hd & _). lia. }
    rewrite run_cons.
    pose proof (step_keeps_stop r ev Hstop) as Hstop'.
    specialize (IH (step r ev) Hstop').
    destruct ev as [| |c].
    + cbn [step] in *. unfold worker_step in *.
      destruct (worker r) eqn:Hat; try discriminate.
      * destruct (negb (m_window_is_active (this (world r))));
          cbn in IH; rewrite drains_app in IH; cbn in IH; lia.
      * destruct (negb (m_thread_wakeup (this (world r))));
          cbn in IH; rewrite drains_app in IH; cbn in IH; lia.
      * cbn in IH. rewrite drains_app in IH. cbn in IH. lia.
      * cbn in IH. rewrite drains_app in IH. cbn in IH. lia.
    + cbn [step] in *.
      destruct (worker r) eqn:Hat; try discriminate;
        rewrite Hat in IH; cbn in IH; lia.
    + cbn [step] in *. cbn in IH. rewrite Hloc in IH. lia.
Qed.

(** After the stop request, six steps are enough for the worker to leave
    the loop, wherever it stands. *)
Lemma stopped_worker_exits schedule r :
  m_thread_stop (this (world r)) = true ->
  (steps_to_exit (worker r) <= worker_steps schedule)%nat ->
  worker (run schedule r) = Exited.
Proof.
  revert r. induction schedule as [|ev schedule IH]; intros r Hstop Hsteps.
  - cbn in *. destruct (worker r); cbn in Hsteps; try lia. reflexivity.
  - rewrite run_cons.
    pose proof (step_keeps_stop r ev Hstop) as Hstop'.
    specialize (IH (step r ev) Hstop').
    destruct ev as [| |c]; cbn [worker_steps] in Hsteps.
    + cbn [step] in *. unfold worker_step in *.
      destruct (worker r) eqn:Hat; cbn [steps_to_exit] in Hsteps.
      * unfold wait_predicate in *. rewrite Hstop in *. cbn [orb] in *.
        apply IH. cbn. lia.
      * rewrite Hstop in *. apply IH. cbn. lia.
      * destruct (negb (m_window_is_active (this (world r))));
          apply IH; cbn; lia.
      * destruct (negb (m_thread_wakeup (this (world r))));
          apply IH; cbn; lia.
      * apply IH. cbn. lia.
      * apply IH. cbn. lia.
      * apply IH. rewrite Hat. cbn. lia.
    + cbn [step] in *.
      destruct (worker r) eqn:Hat; cbn [steps_to_exit] in Hsteps;
        try (apply IH; rewrite Hat; cbn; lia).
      unfold worker_step in *. rewrite Hat, orb_true_r in *.
      apply IH. cbn. lia.
    + cbn [step] in *. apply IH. cbn. exact Hsteps.
Qed.

Lemma run_callers_only cs r :
  worker (run (map Caller cs) r) = worker r
  /\ observed (run (map Caller cs) r) = observed r
  /\ world (run (map Caller cs) r) = run_callers cs (world r).
Proof.
  revert r. induction cs as [|c cs IH]; intros r; [now cbn|].
  cbn [map]. rewrite run_cons.
  destruct (IH (step r (Caller c))) as (Hw & Ho & Hworld).
  cbn [step] in *. cbn in Hw, Ho, Hworld. repeat split; assumption.
Qed.


(** *** The log and the session *)






(** C6, amended.  Once the stop flag is set: (1) the worker calls
    [process_action_queue] at most once more, and not at all if it stood
    at the wait or at the stop check (or had left the loop) when the flag
    was set; (2) in that case the worker changes nothing any more, so
    that whatever is enqueued afterwards stays unprocessed; (3) after six
    steps, at most, the worker has left the loop.  An iteration that had
    passed the stop check when the flag was set still runs to its end. *)
Theorem stop_request_ends_worker r schedule :
  m_thread_stop (this (world r)) = true ->
  (drains (observed (run schedule r))
   <= drains (observed r)
      + (if before_stop_check (worker r) then 0 else 1))%nat
  /\ (before_stop_check (worker r) = true ->
      drains (observed (run schedule r)) = drains (observed r)
      /\ world (run schedule r) = run_callers (callers_of schedule) (world r))
  /\ ((6 <= worker_steps schedule)%nat -> worker (run schedule r) = Exited).
Proof.
  intros Hstop. split; [|split].
  - now apply at_most_one_drain_after_stop.
  - intros Hloc.
    destruct (stopped_before_check schedule r Hstop Hloc) as (_ & Hd & Hw).
    now split.
  - intros Hsteps. apply stopped_worker_exits; [exact Hstop|].
    destruct (worker r); cbn; lia.
Qed.

End WithSession.

End WorkerFacts.


(** The worker on the session of the specification. *)
Module WorkerExamplesFacts.
Import Session Orchestrator Worker WorkerLog SessionModel WorkerFacts.
Import WorkerExamples.

(** C6, as stated, fails: the stop flag is set while the worker stands
    between the stop check and [process_action_queue]; an action enqueued
    after the stop request is then processed, together with the one that was
    pending. *)
Lemma action_enqueued_after_stop_is_processed :
  m_thread_stop (this (world stop_requested)) = true
  /\ worker stop_requested = AtProcess
  /\ queue (m_session (this (world stop_requested))) = [refresh_action]
  /\ processed (m_session (this (world stop_requested))) = []
  /\ processed (m_session (this (world (run after_stop stop_requested))))
     = [refresh_action; avatar_action]
  /\ drains (observed (run after_stop stop_requested))
     = Datatypes.S (drains (observed stop_requested)).
Proof. repeat split; vm_compute; reflexivity. Qed.

(** The worker leaves the loop at its next stop check. *)
Example worker_exits_after_last_drain :
  worker (run (after_stop ++ [WorkerStep; WorkerStep]) stop_requested) = Exited.
Proof. vm_compute. reflexivity. Qed.

Lemma stop_request_ends_worker_witness :
  m_thread_stop (this (world stopped_at_wait)) = true
  /\ (drains (observed (run after_stop_at_wait stopped_at_wait))
      <= drains (observed stopped_at_wait)
         + (if before_stop_check (worker stopped_at_wait) then 0 else 1))%nat
  /\ (before_stop_check (worker stopped_at_wait) = true ->
      drains (observed (run after_stop_at_wait stopped_at_wait))
      = drains (observed stopped_at_wait)
      /\ world (run after_stop_at_wait stopped_at_wait)
         = run_callers (callers_of after_stop_at_wait) (world stopped_at_wait))
  /\ ((6 <= worker_steps after_stop_at_wait)%nat ->
      worker (run after_stop_at_wait stopped_at_wait) = Exited).
Proof.
  split; [reflexivity|].
  exact (stop_request_ends_worker stopped_at_wait after_stop_at_wait eq_refl).
Defined.

(** There the action enqueued after the stop request stays in the queue. *)
Example action_enqueued_after_stop_stays_pending :
  queue (m_session (this (world (run after_stop_at_wait stopped_at_wait))))
  = [avatar_action]
  /\ processed
       (m_session (this (world (run after_stop_at_wait stopped_at_wait))))
     = []
  /\ worker (run after_stop_at_wait stopped_at_wait) = Exited.
Proof. repeat split; vm_compute; reflexivity. Qed.


(** An inactive window and no wake-up request: a timeout of the wait does
    not lead to a drain. *)
Example timeout_with_inactive_window :
  observed
    (run [WaitTimeout; WorkerStep; WorkerStep; WorkerStep; WorkerStep]
       (start (example_world true false)))
  = [Woke true; ReadStop false; ReadActive false; ReadWakeup false].
Proof. vm_compute. reflexivity. Qed.

(** An inactive window and a wake-up request: the queue is drained. *)
Example wakeup_with_inactive_window :
  observed
    (run (until_past_stop_check ++ [WorkerStep])
       (start (example_world true false)))
  = [Woke false; ReadStop false; ReadActive false; ReadWakeup true;
     ClearedWakeup; Processed]
  /\ processed
       (m_session
          (this (world (run (until_past_stop_check ++ [WorkerStep])
                          (start (example_world true false))))))
     = [refresh_action].
Proof. split; vm_compute; reflexivity. Qed.

End WorkerExamplesFacts.

(** * Further properties *)

(** ** get_code_from_message, on every payload *)

Module CodeFromMessageMore.
Import MachineInt CodeFromMessage CodeFromMessageFacts.

Lemma alnum_run_all s : Forall (fun c => is_alnum c = true) (alnum_run s).
Proof. destruct (alnum_run_maximal s) as (rest & _ & Hall & _). exact Hall. Qed.

Lemma alnum_run_length s : (length (alnum_run s) <= length s)%nat.
Proof.
  induction s as [|c s IH]; cbn; [lia|].
  destruct (is_alnum c); cbn; lia.
Qed.

Lemma code_loop_past_end fuel s i out :
  Z.of_nat (length s) <= i -> code_loop fuel s i out = out.
Proof.
  intros Hi. destruct fuel as [|fuel]; cbn [code_loop]; [reflexivity|].
  destruct (Z.ltb_spec i (Z.of_nat (length s))); [lia|reflexivity].
Qed.

(** Whatever index the loop starts from, it returns the run at that
    index. *)
Lemma get_code_is_some_run s :
  exists start, get_code_from_message s = alnum_run (drop start s).
Proof.
  unfold get_code_from_message.
  set (i := wrap_size_t (rfind s (lit "code=") + 5)).
  assert (Hi : 0 <= i).
  { unfold i, wrap_size_t, size_t_modulus. apply Z.mod_pos_bound. lia. }
  exists (Z.to_nat i).
  destruct (Nat.le_gt_cases (length s) (Z.to_nat i)) as [Hge|Hlt].
  - rewrite (drop_ge s) by exact Hge. cbn [alnum_run].
    apply code_loop_past_end. lia.
  - rewrite <- (Z2Nat.id i Hi) at 1. now rewrite code_loop_run by lia.
Qed.

(** X1. Whatever the payload, the extracted code holds only characters of
    [[A-Za-z0-9]], is a contiguous piece of the payload and is not longer
    than the payload. *)
Theorem get_code_alphanumeric_piece s :
  Forall (fun c => is_alnum c = true) (get_code_from_message s)
  /\ (exists before after, s = before ++ get_code_from_message s ++ after)
  /\ (length (get_code_from_message s) <= length s)%nat.
Proof.
  destruct (get_code_is_some_run s) as [start Hrun]. rewrite Hrun.
  split; [apply alnum_run_all|]. split.
  - destruct (alnum_run_maximal (drop start s)) as (rest & Heq & _).
    exists (take start s), rest.
    rewrite <- Heq. symmetry. apply take_drop.
  - pose proof (alnum_run_length (drop start s)) as H.
    rewrite length_drop in H. lia.
Qed.

(** An index that [rfind] returns is the last occurrence. *)
Lemma rfind_found s pat p :
  pat <> [] ->
  Z.of_nat (length s) < size_t_modulus ->
  (p < length s)%nat ->
  rfind s pat = Z.of_nat p ->
  occurs_at s pat p /\ forall q, (p < q)%nat -> ~ occurs_at s pat q.
Proof.
  intros Hne Hsize Hp Hres.
  destruct (rfind_spec s pat Hne) as [[Hnp _]|(p' & Hres' & Hocc & Hlast)].
  - rewrite Hnp in Hres. unfold npos in Hres. lia.
  - rewrite Hres' in Hres. apply Nat2Z.inj in Hres. subst p'. now split.
Qed.

Lemma rfind_not_found s pat :
  pat <> [] ->
  Z.of_nat (length s) < size_t_modulus ->
  rfind s pat = npos ->
  forall q, ~ occurs_at s pat q.
Proof.
  intros Hne Hsize Hres q Hocc.
  destruct (rfind_spec s pat Hne) as [[_ Hnone]|(p' & Hres' & Hp' & _)].
  - exact (Hnone q Hocc).
  - pose proof (occurs_at_bound _ _ _ Hne Hp') as Hb.
    rewrite Hres in Hres'. unfold npos in Hres'.
    destruct pat as [|c pat]; [congruence|]. cbn [length] in Hb. lia.
Qed.

(** X2. When the marker [code=] occurs in the payload, the extracted code is
    the longest run of alphanumeric characters that directly follows the
    last occurrence of the marker: it stops at the first other character or
    at the end of the payload, and is empty when nothing alphanumeric
    follows. *)
Theorem get_code_follows_last_marker s p :
  Z.of_nat (length s) < size_t_modulus ->
  occurs_at s (lit "code=") p ->
  (forall q, (p < q)%nat -> ~ occurs_at s (lit "code=") q) ->
  exists rest,
    drop (p + 5) s = get_code_from_message s ++ rest
    /\ Forall (fun c => is_alnum c = true) (get_code_from_message s)
    /\ match rest with
       | [] => True
       | c :: _ => is_alnum c = false
       end.
Proof.
  intros Hsize Hocc Hlast.
  rewrite (get_code_after_last_marker s p Hsize Hocc Hlast).
  apply alnum_run_maximal.
Qed.

Lemma get_code_follows_last_marker_witness :
  let s := lit "login?code=old1&state=7&code=New2-x" in
  Z.of_nat (length s) < size_t_modulus
  /\ occurs_at s (lit "code=") 24
  /\ (forall q, (24 < q)%nat -> ~ occurs_at s (lit "code=") q)
  /\ exists rest,
       drop (24 + 5) s = get_code_from_message s ++ rest
       /\ Forall (fun c => is_alnum c = true) (get_code_from_message s)
       /\ match rest with
          | [] => True
          | c :: _ => is_alnum c = false
          end.
Proof.
  intros s.
  assert (Hsize : Z.of_nat (length s) < size_t_modulus) by (vm_compute; reflexivity).
  assert (Hp : (24 < length s)%nat) by (cbn; lia).
  destruct (rfind_found s (lit "code=") 24 ltac:(discriminate) Hsize Hp eq_refl)
    as [Hocc Hlast].
  split; [exact Hsize|]. split; [exact Hocc|]. split; [exact Hlast|].
  exact (get_code_follows_last_marker s 24 Hsize Hocc Hlast).
Defined.

Example get_code_two_markers_value :
  get_code_from_message (lit "login?code=old1&state=7&code=New2-x") = lit "New2".
Proof. reflexivity. Qed.

(** X3. When the marker [code=] does not occur, the result is the run of
    alphanumeric characters that starts at index 4 of the payload, because
    [npos + 5] wraps around to 4; it is empty exactly when the payload has
    at most four characters or its character at index 4 is not
    alphanumeric. *)
Theorem get_code_without_marker_reads_index_4 s :
  (forall q, ~ occurs_at s (lit "code=") q) ->
  get_code_from_message s = alnum_run (drop 4 s)
  /\ (get_code_from_message s = []
      <-> match s !! 4%nat with
          | Some c => is_alnum c = false
          | None => True
          end).
Proof.
  intros Hnone. rewrite (get_code_without_marker s Hnone).
  split; [reflexivity|].
  destruct (s !! 4%nat) as [c|] eqn:Hc.
  - rewrite (drop_S s c 4 Hc). cbn [alnum_run].
    destruct (is_alnum c); split; congruence.
  - apply lookup_ge_None in Hc. rewrite drop_ge by lia. cbn. tauto.
Qed.

Lemma get_code_without_marker_reads_index_4_witness :
  let s := lit "state=xyz&error=denied" in
  (forall q, ~ occurs_at s (lit "code=") q)
  /\ get_code_from_message s = alnum_run (drop 4 s)
  /\ (get_code_from_message s = []
      <-> match s !! 4%nat with
          | Some c => is_alnum c = false
          | None => True
          end).
Proof.
  intros s.
  assert (Hnone : forall q, ~ occurs_at s (lit "code=") q).
  { apply rfind_not_found; [discriminate|vm_compute; reflexivity|reflexivity]. }
  split; [exact Hnone|].
  exact (get_code_without_marker_reads_index_4 s Hnone).
Defined.

End CodeFromMessageMore.

(** ** The refresh timer, for every number of seconds *)

Module RefreshTimerMore.
Import MachineInt MachineIntFacts RefreshTimer RefreshTimerFacts.

(** X4. For every [int] given to [set_refresh_time], overflow or not, the
    token timer ends up running, one-shot, with a delay between the floor of
    60000 ms and [INT_MAX]; the state the timer was in before does not
    matter, so a second call replaces the first. *)
Theorem set_refresh_time_always_within_bounds seconds seconds' t t' :
  let scheduled := set_refresh_time seconds t in
  timer_running scheduled = true
  /\ timer_one_shot scheduled = true
  /\ 60000 <= timer_interval scheduled <= INT_MAX
  /\ set_refresh_time seconds t' = scheduled
  /\ set_refresh_time seconds (set_refresh_time seconds' t) = scheduled.
Proof.
  cbn. repeat split.
  - apply refresh_delay_floor.
  - pose proof (refresh_delay_in_int seconds) as H. unfold in_int in H. lia.
Qed.

(** X5. As long as the exact delay fits an [int], a longer token lifetime
    never gives a shorter delay, and the delay stays 66666 ms ahead of the
    expiry whenever the lifetime exceeds 126666 ms. *)
Theorem refresh_delay_monotone a b :
  in_int (a * 1000 - 66666) -> in_int (b * 1000 - 66666) -> a <= b ->
  refresh_delay a <= refresh_delay b
  /\ (127 <= a -> refresh_delay a = a * 1000 - 66666).
Proof.
  intros Ha Hb Hab.
  rewrite !refresh_delay_wrap, !wrap_int_id by assumption. lia.
Qed.

Lemma refresh_delay_monotone_witness :
  in_int (3600 * 1000 - 66666) /\ in_int (7200 * 1000 - 66666) /\ 3600 <= 7200
  /\ refresh_delay 3600 <= refresh_delay 7200
  /\ (127 <= 3600 -> refresh_delay 3600 = 3600 * 1000 - 66666).
Proof.
  assert (Ha : in_int (3600 * 1000 - 66666))
    by (unfold in_int, INT_MIN, INT_MAX; lia).
  assert (Hb : in_int (7200 * 1000 - 66666))
    by (unfold in_int, INT_MIN, INT_MAX; lia).
  assert (Hab : 3600 <= 7200) by lia.
  split; [exact Ha|]. split; [exact Hb|]. split; [exact Hab|].
  exact (refresh_delay_monotone 3600 7200 Ha Hb Hab).
Defined.

End RefreshTimerMore.

(** ** base64_encode: alphabet, length and losslessness *)

Module Base64More.
Import Base64 Base64Url Base64Facts CodeChalengeGenerator.
Import CodeChalengeGeneratorFacts Inverses.

(** [base64_encode] returns only on a non-empty input, and then the
    unpadded base64url of the input. *)
Lemma base64_encode_returns input output :
  base64_encode input = Returns output ->
  input <> [] /\ output = base64url_direct input.
Proof.
  intros Hout. destruct input as [|c input]; [discriminate|].
  split; [discriminate|].
  rewrite base64_encode_url in Hout by discriminate.
  injection Hout as <-. apply base64url_nopad_direct.
Qed.

Lemma url_digit_character v :
  0 <= v < 64 -> url_character (digit url_alphabet v).
Proof.
  intros Hv. unfold digit.
  assert (Hn : (Z.to_nat v < 64)%nat) by lia.
  revert Hn. generalize (Z.to_nat v). intros n Hn.
  do 64 (destruct n as [|n];
         [unfold url_character, alphanumeric; vm_compute;
          first [left; left; intuition congruence
                |left; right; left; intuition congruence
                |left; right; right; intuition congruence
                |right; left; reflexivity
                |right; right; reflexivity]|]).
  lia.
Qed.

Lemma base64url_direct_characters bytes :
  Forall url_character (base64url_direct bytes).
Proof.
  induction bytes as [|a|a b|a b c rest IH] using triple_ind;
    cbn [base64url_direct];
    repeat (constructor; [apply url_digit_character, sextet_range|]);
    [constructor..|exact IH].
Qed.

Lemma base64url_direct_length bytes :
  length (base64url_direct bytes) = ((4 * length bytes + 2) / 3)%nat.
Proof.
  induction bytes as [|a|a b|a b c rest IH] using triple_ind;
    try reflexivity.
  cbn [base64url_direct length]. rewrite IH.
  replace (4 * S (S (S (length rest))) + 2)%nat
    with ((4 * length rest + 2) + 4 * 3)%nat by lia.
  rewrite Nat.div_add by lia. lia.
Qed.

(** X6. For every input that is not empty, [base64_encode] returns, and
    its output holds only characters of [[A-Za-z0-9]], ['-'] and ['_'] (no
    ['+'], ['/'] or ['=']) and has [(4 n + 2) / 3] characters for an input
    of [n] bytes: 43 for the 32 bytes of a SHA-256 digest. *)
Theorem base64_encode_url_safe input :
  input <> [] ->
  exists output,
    base64_encode input = Returns output
    /\ Forall url_character output
    /\ length output = ((4 * length input + 2) / 3)%nat
    /\ (length input = 32%nat -> length output = 43%nat).
Proof.
  intros Hne. exists (base64url_direct input).
  rewrite base64_encode_url by exact Hne. rewrite base64url_nopad_direct.
  split; [reflexivity|].
  split; [apply base64url_direct_characters|].
  split; [apply base64url_direct_length|].
  intros H32. now rewrite base64url_direct_length, H32.
Qed.

Lemma base64_encode_url_safe_witness :
  lit "??>>" <> []
  /\ exists output,
       base64_encode (lit "??>>") = Returns output
       /\ Forall url_character output
       /\ length output = ((4 * length (lit "??>>") + 2) / 3)%nat
       /\ (length (lit "??>>") = 32%nat -> length output = 43%nat).
Proof.
  assert (H : lit "??>>" <> []) by discriminate.
  split; [exact H|].
  exact (base64_encode_url_safe (lit "??>>") H).
Defined.

(** The two characters that plain base64 would write as ['/'] and ['+']. *)
Example base64_encode_url_safe_example :
  base64_encode (lit "??>>") = Returns (lit "Pz8-Pg").
Proof. reflexivity. Qed.

(** *** The decoder inverts the encoder *)

Lemma url_value_digit v : 0 <= v < 64 -> url_value (digit url_alphabet v) = v.
Proof.
  intros Hv. unfold digit.
  rewrite <- (Z2Nat.id v) at 2 by lia.
  assert (Hn : (Z.to_nat v < 64)%nat) by lia.
  revert Hn. generalize (Z.to_nat v). intros n Hn.
  do 64 (destruct n as [|n]; [reflexivity|]).
  lia.
Qed.

Lemma byte_of_char_code c : byte_of (char_code c) = c.
Proof.
  unfold byte_of. pose proof (char_code_range c) as Hc.
  rewrite Z.mod_small by lia. unfold char_code.
  rewrite N2Z.id. apply ascii_N_embedding.
Qed.

Lemma byte_of_mod v : byte_of (v mod 256) = byte_of v.
Proof. unfold byte_of. now rewrite Z.mod_mod by lia. Qed.

Ltac bytes_arith :=
  unfold sextet, group24, group_of;
  repeat match goal with
         | |- context [char_code ?c] =>
             let v := fresh "v" in
             let Hv := fresh "Hv" in
             pose proof (char_code_range c) as Hv;
             set (v := char_code c) in *; clearbody v
         end;
  change (64 ^ 3) with 262144; change (64 ^ 2) with 4096;
  change (64 ^ 1) with 64; change (64 ^ 0) with 1;
  Z.div_mod_to_equations; lia.

Lemma group_of_sextets a b c :
  group_of (sextet (group24 a b c) 3) (sextet (group24 a b c) 2)
    (sextet (group24 a b c) 1) (sextet (group24 a b c) 0)
  = group24 a b c.
Proof. bytes_arith. Qed.

Lemma group_of_sextets_2 a b :
  group_of (sextet (group24 a b zero) 3) (sextet (group24 a b zero) 2)
    (sextet (group24 a b zero) 1) 0
  = group24 a b zero.
Proof. unfold group24. change (char_code zero) with 0. bytes_arith. Qed.

Lemma group_of_sextets_1 a :
  group_of (sextet (group24 a zero zero) 3) (sextet (group24 a zero zero) 2)
    0 0
  = group24 a zero zero.
Proof. unfold group24. change (char_code zero) with 0. bytes_arith. Qed.

Lemma group24_bytes a b c :
  (group24 a b c / 65536) mod 256 = char_code a
  /\ (group24 a b c / 256) mod 256 = char_code b
  /\ group24 a b c mod 256 = char_code c.
Proof. repeat split; bytes_arith. Qed.

Lemma decode_group a b c :
  let g := group24 a b c in
  byte_of (g / 65536) = a /\ byte_of (g / 256) = b /\ byte_of g = c.
Proof.
  cbn zeta. destruct (group24_bytes a b c) as (Ha & Hb & Hc).
  rewrite <- (byte_of_mod (_ / 65536)), <- (byte_of_mod (_ / 256)),
    <- (byte_of_mod (group24 a b c)), Ha, Hb, Hc.
  repeat split; apply byte_of_char_code.
Qed.

Lemma base64url_decode_encode bytes :
  base64url_decode (base64url_direct bytes) = bytes.
Proof.
  induction bytes as [|a|a b|a b c rest IH] using triple_ind.
  - reflexivity.
  - cbn [base64url_direct base64url_decode].
    rewrite !url_value_digit by apply sextet_range.
    rewrite group_of_sextets_1.
    now destruct (decode_group a zero zero) as (-> & _).
  - cbn [base64url_direct base64url_decode].
    rewrite !url_value_digit by apply sextet_range.
    rewrite group_of_sextets_2.
    now destruct (decode_group a b zero) as (-> & -> & _).
  - cbn [base64url_direct base64url_decode].
    rewrite !url_value_digit by apply sextet_range.
    rewrite group_of_sextets, IH.
    now destruct (decode_group a b c) as (-> & -> & ->).
Qed.

(** X7. [base64_encode] loses nothing: for every input that is not empty
    it returns a text that the base64url decoder turns back into the input,
    so no other input is encoded to the same text. *)
Theorem base64_encode_lossless input :
  input <> [] ->
  exists output,
    base64_encode input = Returns output
    /\ base64url_decode output = input
    /\ forall input', base64_encode input' = Returns output -> input' = input.
Proof.
  intros Hne. exists (base64url_direct input).
  rewrite base64_encode_url by exact Hne. rewrite base64url_nopad_direct.
  split; [reflexivity|]. split; [apply base64url_decode_encode|].
  intros input' Hout'.
  destruct (base64_encode_returns input' _ Hout') as [_ Heq'].
  rewrite <- (base64url_decode_encode input'),
    <- (base64url_decode_encode input).
  congruence.
Qed.

Lemma base64_encode_lossless_witness :
  lit "??>>" <> []
  /\ exists output,
       base64_encode (lit "??>>") = Returns output
       /\ base64url_decode output = lit "??>>"
       /\ forall input',
            base64_encode input' = Returns output -> input' = lit "??>>".
Proof.
  assert (H : lit "??>>" <> []) by discriminate.
  split; [exact H|].
  exact (base64_encode_lossless (lit "??>>") H).
Defined.

(** X8. [generate_chalenge] returns the empty string exactly when the
    digest throws: the exception is swallowed, and a digest that returns
    gives a challenge that is not empty. *)
Theorem generate_chalenge_empty_iff_digest_throws sha256 verifier :
  (forall digest, sha256 verifier = Returns digest -> digest <> []) ->
  generate_chalenge sha256 verifier = Returns []
  <-> exists e, sha256 verifier = Throws e.
Proof.
  intros Hdigest. unfold generate_chalenge.
  destruct (sha256 verifier) as [digest|e|] eqn:Hsha; cbn [bind].
  - rewrite base64_encode_url by now apply Hdigest.
    split; [|intros [e He]; discriminate].
    intros Hempty. injection Hempty as Hempty. exfalso.
    rewrite base64url_nopad_direct in Hempty.
    exact (base64url_direct_nonempty digest (Hdigest digest eq_refl) Hempty).
  - split; [eauto|reflexivity].
  - split; [discriminate|intros [e He]; discriminate].
Qed.

Lemma generate_chalenge_empty_iff_digest_throws_witness :
  (forall digest,
     Sha256Reference.platform_sha256 (lit "abc") = Returns digest ->
     digest <> [])
  /\ (generate_chalenge Sha256Reference.platform_sha256 (lit "abc")
      = Returns []
      <-> exists e, Sha256Reference.platform_sha256 (lit "abc") = Throws e).
Proof.
  assert (H : forall digest,
             Sha256Reference.platform_sha256 (lit "abc") = Returns digest ->
             digest <> []).
  { intros digest Hd. unfold Sha256Reference.platform_sha256 in Hd.
    injection Hd as <-. vm_compute. discriminate. }
  split; [exact H|].
  exact (generate_chalenge_empty_iff_digest_throws
           Sha256Reference.platform_sha256 (lit "abc") H).
Defined.

End Base64More.

(** ** boost::split, std::to_string and std::stoll together *)

Module StringUtilMore.
Import MachineInt StringUtil Persisted StollFacts Inverses DecimalText.

Lemma split_nonempty sep s : split sep s <> [].
Proof.
  induction s as [|c s IH]; cbn; [discriminate|].
  destruct (sep c); [discriminate|].
  destruct (split sep s); [congruence|discriminate].
Qed.

Lemma split_free sep s : free_of sep s -> split sep s = [s].
Proof.
  unfold free_of. induction s as [|c s IH]; cbn; [reflexivity|].
  intros H. apply andb_true_iff in H. destruct H as [Hc Hs].
  apply negb_true_iff in Hc. rewrite Hc, (IH Hs). reflexivity.
Qed.

Lemma split_field sep field c rest :
  free_of sep field -> sep c = true ->
  split sep (field ++ c :: rest) = field :: split sep rest.
Proof.
  unfold free_of. intros Hfield Hc.
  induction field as [|x field IH]; cbn.
  - now rewrite Hc.
  - cbn in Hfield. apply andb_true_iff in Hfield.
    destruct Hfield as [Hx Hfield]. apply negb_true_iff in Hx.
    rewrite Hx, (IH Hfield). reflexivity.
Qed.

(** X9. [boost::split] with [token_compress_off] undoes a join: fields that
    hold no separator, joined with a separator, are split into the very same
    fields (empty fields included); and a string always splits into one
    token more than it has separators, the empty string into one empty
    token. *)
Theorem split_join sep c fields s :
  sep c = true ->
  Forall (free_of sep) fields ->
  fields <> [] ->
  split sep (join c fields) = fields
  /\ length (split sep s) = S (separators sep s).
Proof.
  intros Hc Hfree Hne. split.
  - induction fields as [|field fields IH]; [congruence|].
    apply Forall_cons in Hfree. destruct Hfree as [Hfield Hfree].
    destruct fields as [|field' fields].
    + cbn. now apply split_free.
    + cbn [join]. rewrite split_field by assumption.
      f_equal. apply IH; [exact Hfree|discriminate].
  - induction s as [|x s IH]; cbn; [reflexivity|].
    destruct (sep x); cbn; [now rewrite IH|].
    destruct (split sep s) eqn:Hs; [now apply split_nonempty in Hs|].
    cbn in *. exact IH.
Qed.

Lemma split_join_witness :
  is_any_of (lit "|") "|"%char = true
  /\ Forall (free_of (is_any_of (lit "|"))) [lit "AT"; []; lit "17"]
  /\ [lit "AT"; []; lit "17"] <> []
  /\ split (is_any_of (lit "|")) (join "|" [lit "AT"; []; lit "17"])
     = [lit "AT"; []; lit "17"]
  /\ length (split (is_any_of (lit "|")) (lit "a||b"))
     = S (separators (is_any_of (lit "|")) (lit "a||b")).
Proof.
  assert (Hc : is_any_of (lit "|") "|"%char = true) by reflexivity.
  assert (Hfree : Forall (free_of (is_any_of (lit "|")))
                    [lit "AT"; []; lit "17"])
    by (repeat constructor).
  assert (Hne : [lit "AT"; []; lit "17"] <> []) by discriminate.
  split; [exact Hc|]. split; [exact Hfree|]. split; [exact Hne|].
  exact (split_join (is_any_of (lit "|")) "|"%char [lit "AT"; []; lit "17"]
           (lit "a||b") Hc Hfree Hne).
Defined.

Lemma uint_chars_digits d : forallb isdigit (uint_chars d) = true.
Proof. induction d; cbn; auto. Qed.

Lemma uint_chars_value d acc :
  fold_left (fun acc c => acc * 10 + (char_code c - char_code "0"))
    (uint_chars d) acc
  = uint_value d acc.
Proof.
  revert acc. unfold uint_chars.
  induction d as [|d IH|d IH|d IH|d IH|d IH|d IH|d IH|d IH|d IH|d IH];
    intros acc; cbn [NilEmpty.string_of_uint list_ascii_of_string fold_left
                      uint_value];
    [reflexivity|rewrite IH; f_equal; vm_compute char_code; lia..].
Qed.

Lemma uint_value_acc d acc :
  uint_value d (Z.pos acc) = Z.pos (Pos.of_uint_acc d acc).
Proof.
  revert acc. induction d; intros acc; cbn [uint_value Pos.of_uint_acc];
    [reflexivity|..];
    match goal with
    | |- uint_value _ ?z = Z.pos (Pos.of_uint_acc _ ?p) =>
        replace z with (Z.pos p) by lia
    end; apply IHd.
Qed.

Lemma uint_value_of_uint d : uint_value d 0 = Z.of_N (Pos.of_uint d).
Proof.
  induction d; cbn [uint_value Pos.of_uint]; [reflexivity|exact IHd|..];
    match goal with
    | |- uint_value _ ?z = Z.of_N (N.pos (Pos.of_uint_acc _ ?p)) =>
        change z with (Z.pos p)
    end; apply uint_value_acc.
Qed.

Lemma positive_chars p :
  let cs := uint_chars (Pos.to_uint p) in
  cs <> [] /\ forallb isdigit cs = true /\ digits_value cs = Z.pos p.
Proof.
  cbn zeta. repeat split.
  - pose proof (DecimalPos.Unsigned.to_uint_nonnil p) as Hnil.
    unfold uint_chars. destruct (Pos.to_uint p); [congruence|discriminate..].
  - apply uint_chars_digits.
  - unfold digits_value. rewrite uint_chars_value, uint_value_of_uint.
    now rewrite DecimalPos.Unsigned.of_to.
Qed.

Lemma to_string_cases z :
  (z = 0 /\ to_string z = lit "0")
  \/ (exists p, z = Z.pos p /\ to_string z = uint_chars (Pos.to_uint p))
  \/ (exists p, z = Z.neg p
                /\ to_string z = "-"%char :: uint_chars (Pos.to_uint p)).
Proof.
  destruct z as [|p|p].
  - now left.
  - right; left. exists p. split; [reflexivity|].
    unfold to_string, uint_chars. cbn [Z.to_int NilZero.string_of_int].
    pose proof (DecimalPos.Unsigned.to_uint_nonnil p) as Hnil.
    unfold NilZero.string_of_uint.
    destruct (Pos.to_uint p); [congruence|reflexivity..].
  - right; right. exists p. split; [reflexivity|].
    unfold to_string, uint_chars. cbn [Z.to_int NilZero.string_of_int].
    pose proof (DecimalPos.Unsigned.to_uint_nonnil p) as Hnil.
    unfold NilZero.string_of_uint.
    destruct (Pos.to_uint p); [congruence|reflexivity..].
Qed.

(** The text of a number is its own leading number. *)
Lemma to_string_leading_number z : leading_number (to_string z) z.
Proof.
  destruct (to_string_cases z) as [[-> ->]|[(p & -> & ->)|(p & -> & ->)]].
  - exists [], [], (lit "0"), []. repeat split; try discriminate. now left.
  - destruct (positive_chars p) as (Hne & Hdigits & Hvalue).
    exists [], [], (uint_chars (Pos.to_uint p)), [].
    rewrite app_nil_r. repeat split; try assumption. left. now split.
  - destruct (positive_chars p) as (Hne & Hdigits & Hvalue).
    exists [], (lit "-"), (uint_chars (Pos.to_uint p)), [].
    rewrite app_nil_r. repeat split; try assumption.
    right; right. split; [reflexivity|]. rewrite Hvalue. reflexivity.
Qed.

Lemma digit_not_pipe c : isdigit c = true -> is_any_of (lit "|") c = false.
Proof.
  intros Hc. cbn. rewrite orb_false_r. apply char_eqb_neq.
  intros ->. discriminate.
Qed.

Lemma digits_free_of_pipe cs :
  forallb isdigit cs = true -> free_of (is_any_of (lit "|")) cs.
Proof.
  unfold free_of. induction cs as [|c cs IH]; [reflexivity|].
  cbn [forallb]. intros H. apply andb_true_iff in H. destruct H as [Hc Hcs].
  rewrite (digit_not_pipe c Hc). cbn. now apply IH.
Qed.

Lemma to_string_free_of_pipe z : free_of (is_any_of (lit "|")) (to_string z).
Proof.
  destruct (to_string_cases z) as [[-> ->]|[(p & -> & ->)|(p & -> & ->)]].
  - reflexivity.
  - apply digits_free_of_pipe, positive_chars.
  - unfold free_of. cbn [forallb].
    change (negb (is_any_of (lit "|") "-")) with true. cbn [andb].
    apply digits_free_of_pipe, positive_chars.
Qed.

Lemma to_string_nonempty z : to_string z <> [].
Proof.
  destruct (to_string_cases z) as [[_ ->]|[(p & _ & ->)|(p & _ & ->)]];
    try discriminate.
  apply positive_chars.
Qed.

(** X10. What [std::to_string] writes, [std::stoll] reads back: for every
    [long long] value the text is never empty, holds no ['|'], and parses to
    the same value without an exception. *)
Theorem stoll_to_string z :
  LLONG_MIN <= z <= LLONG_MAX ->
  stoll (to_string z) = Returns z
  /\ to_string z <> []
  /\ free_of (is_any_of (lit "|")) (to_string z).
Proof.
  intros Hrange. split; [|split].
  - apply leading_number_stoll; [apply to_string_leading_number|exact Hrange].
  - apply to_string_nonempty.
  - apply to_string_free_of_pipe.
Qed.

Lemma stoll_to_string_witness :
  LLONG_MIN <= -1700003600 <= LLONG_MAX
  /\ stoll (to_string (-1700003600)) = Returns (-1700003600)
  /\ to_string (-1700003600) <> []
  /\ free_of (is_any_of (lit "|")) (to_string (-1700003600)).
Proof.
  assert (H : LLONG_MIN <= -1700003600 <= LLONG_MAX)
    by (unfold LLONG_MIN, LLONG_MAX; lia).
  split; [exact H|].
  exact (stoll_to_string (-1700003600) H).
Defined.

End StringUtilMore.

(** ** The secret store, set_username and the constructor together *)

Module PersistenceMore.
Import MachineInt StringUtil Session SecretStore Orchestrator.
Import Persisted Inverses StollFacts PersistenceFacts ConstructorFacts.
Import StringUtilMore Constructed.

Section WithSession.
Context {S : Type} `{UserAccountSession S}.
Variable SLIC3R_APP_NAME : std_string.
Variable client_id : std_string.
Variable sha256 : std_string -> result std_string.
Variable mt19937 : Type.
Variable seed : Z -> mt19937.
Variable distribution : Z -> Z -> mt19937 -> Z * mt19937.
Variable defaults : MemberDefaults.

Lemma service_name_inj opt opt' :
  service_name SLIC3R_APP_NAME opt = service_name SLIC3R_APP_NAME opt' ->
  opt = opt'.
Proof.
  unfold service_name. intros Heq.
  apply List.app_inv_head in Heq. now apply List.app_inv_head in Heq.
Qed.

(** X11. On a store that reports [IsOk] and carries out the [Save],
    [save_secret] returns [true] and logs nothing, a following
    [load_secret] of the same option returns [true] with the very user
    name and password that were saved, and the records of all other
    options read as before. *)
Theorem save_secret_then_load_secret opt usr psswd usr0 psswd0 e :
  IsOk (secret_store e) = true ->
  accepts_save (secret_store e) = true ->
  let e' := snd (save_secret true SLIC3R_APP_NAME opt usr psswd e) in
  fst (save_secret true SLIC3R_APP_NAME opt usr psswd e) = true
  /\ log e' = log e
  /\ load_secret true SLIC3R_APP_NAME opt usr0 psswd0 e'
     = ((true, usr, psswd), e')
  /\ (forall opt',
        opt' <> opt ->
        fst (load_secret true SLIC3R_APP_NAME opt' usr0 psswd0 e')
        = fst (load_secret true SLIC3R_APP_NAME opt' usr0 psswd0 e)).
Proof.
  intros Hok Hacc. cbn zeta.
  unfold save_secret. rewrite Hok. cbn [negb]. unfold Save. rewrite Hacc.
  cbn [negb fst snd]. split; [reflexivity|]. split; [reflexivity|].
  unfold load_secret, Load.
  cbn [set_secret_store secret_store IsOk secrets]. rewrite Hok.
  cbn [negb]. split.
  - now rewrite lookup_insert_eq.
  - intros opt' Hne. rewrite lookup_insert_ne.
    + destruct (secrets (secret_store e) !! service_name SLIC3R_APP_NAME opt')
        as [[username password]|]; reflexivity.
    + intros Heq. apply service_name_inj in Heq. congruence.
Qed.

(** [set_username] changes one member, whatever the store does. *)
Lemma set_username_this wx username (w : World S) :
  this (set_username wx SLIC3R_APP_NAME username w)
  = set_m_username username (this w).
Proof.
  unfold set_username, is_secret_store_ok, save_secret.
  destruct wx; [|reflexivity].
  cbn -[lit Save service_name to_string].
  destruct (IsOk (secret_store (env w))) eqn:Hok;
    cbn -[lit Save service_name to_string]; [|reflexivity].
  rewrite Hok. cbn -[lit Save service_name to_string].
  destruct (Save _ _ _ _) as [[] store']; reflexivity.
Qed.

Lemma set_username_saved username (w : World S) :
  IsOk (secret_store (env w)) = true ->
  accepts_save (secret_store (env w)) = true ->
  let w' := set_username true SLIC3R_APP_NAME username w in
  IsOk (secret_store (env w')) = true
  /\ accepts_save (secret_store (env w')) = true
  /\ secrets (secret_store (env w'))
     = <[service_name SLIC3R_APP_NAME (lit "tokens")
         := (get_shared_session_key (m_session (this w)), tokens_to_store w)]>
       (secrets (secret_store (env w)))
  /\ log (env w') = log (env w)
  /\ queued_events (env w') = queued_events (env w)
  /\ clock (env w') = clock (env w).
Proof.
  intros Hok Hacc. cbn zeta.
  unfold set_username, is_secret_store_ok, save_secret, tokens_to_store,
    token_bundle.
  cbn -[lit Save service_name to_string].
  repeat (rewrite Hok; cbn -[lit Save service_name to_string]).
  unfold Save. rewrite Hacc.
  cbn -[lit service_name to_string].
  repeat split; assumption.
Qed.

Lemma recover_tokens_combined e key tokens :
  IsOk (secret_store e) = true ->
  secrets (secret_store e) !! service_name SLIC3R_APP_NAME (lit "tokens")
  = Some (key, tokens) ->
  let token_list := split (is_any_of (lit "|")) tokens in
  recover_tokens true SLIC3R_APP_NAME e
  = ((at_or_empty token_list 0, at_or_empty token_list 1, key,
      at_or_empty token_list 2), e).
Proof.
  intros Hok Hload. cbn zeta.
  unfold recover_tokens, is_secret_store_ok, load_secret, Load.
  rewrite Hok. cbn [negb]. rewrite Hok. cbn [negb]. rewrite Hload.
  reflexivity.
Qed.

Lemma split_bundle access refresh timeout :
  free_of (is_any_of (lit "|")) access ->
  free_of (is_any_of (lit "|")) refresh ->
  free_of (is_any_of (lit "|")) timeout ->
  split (is_any_of (lit "|"))
    (access ++ lit "|" ++ refresh ++ lit "|" ++ timeout)
  = [access; refresh; timeout].
Proof.
  intros Ha Hr Ht.
  change (access ++ lit "|" ++ refresh ++ lit "|" ++ timeout)
    with (access ++ "|"%char :: refresh ++ "|"%char :: timeout).
  rewrite split_field by (assumption || reflexivity).
  rewrite split_field by (assumption || reflexivity).
  now rewrite split_free.
Qed.

Lemma recover_after_set_username username (w : World S) :
  IsOk (secret_store (env w)) = true ->
  accepts_save (secret_store (env w)) = true ->
  let w' := set_username true SLIC3R_APP_NAME username w in
  let token_list := split (is_any_of (lit "|")) (tokens_to_store w) in
  recover_tokens true SLIC3R_APP_NAME (env w')
  = ((at_or_empty token_list 0, at_or_empty token_list 1,
      get_shared_session_key (m_session (this w)),
      at_or_empty token_list 2), env w').
Proof.
  intros Hok Hacc. cbn zeta.
  destruct (set_username_saved username w Hok Hacc)
    as (Hok' & _ & Hsecrets & _).
  apply recover_tokens_combined; [exact Hok'|].
  rewrite Hsecrets. apply lookup_insert_eq.
Qed.

(** X12. Round trip of the tokens: on a store that reports [IsOk] and
    carries out the [Save], with remember-session on and no ['|'] inside
    the access and the refresh token, what [set_username] writes is what
    the first block of the constructor reads back: the access token, the
    refresh token, the shared session key and the decimal text of the
    expiry time of the session, and reading logs nothing. *)
Theorem set_username_then_recover_tokens username (w : World S) :
  IsOk (secret_store (env w)) = true ->
  accepts_save (secret_store (env w)) = true ->
  m_remember_session (this w) = true ->
  free_of (is_any_of (lit "|")) (get_access_token (m_session (this w))) ->
  free_of (is_any_of (lit "|")) (get_refresh_token (m_session (this w))) ->
  let session := m_session (this w) in
  let w' := set_username true SLIC3R_APP_NAME username w in
  recover_tokens true SLIC3R_APP_NAME (env w')
  = ((get_access_token session, get_refresh_token session,
      get_shared_session_key session,
      to_string (get_next_token_timeout session)), env w').
Proof.
  intros Hok Hacc Hrem Ha Hr. cbn zeta.
  rewrite (recover_after_set_username username w Hok Hacc).
  unfold tokens_to_store, token_bundle. rewrite Hrem.
  rewrite split_bundle by (assumption || apply to_string_free_of_pipe).
  reflexivity.
Qed.

Lemma constructor_from_recovered wx connect_polling e access refresh key
    timeout e' next :
  recover_tokens wx SLIC3R_APP_NAME e
  = ((access, refresh, key, timeout), e') ->
  (if bool_decide (timeout = []) then Returns 0 else stoll timeout)
  = Returns next ->
  let remain := wrap_llong (next - clock e') in
  let w0 :=
    {| this :=
         constructed_object defaults
           (make_session (if remain <=? 0 then [] else access) refresh key
              connect_polling)
           (if remain <=? 0 then RefreshTimer.new_wxTimer
            else RefreshTimer.set_refresh_time (wrap_int remain)
                   RefreshTimer.new_wxTimer);
       env := e' |} in
  new_UserAccountCommunication wx SLIC3R_APP_NAME client_id sha256 mt19937
    seed distribution defaults connect_polling e
  = if bool_decide (refresh = []) then Returns w0
    else do_login client_id sha256 mt19937 seed distribution w0.
Proof.
  intros Hrec Hnext. cbn zeta. unfold new_UserAccountCommunication.
  rewrite Hrec, Hnext. cbn [bind].
  destruct (wrap_llong (next - clock e') <=? 0);
    destruct (bool_decide (refresh = [])); reflexivity.
Qed.

(** X13. A session saved by [set_username] under the conditions of the
    round trip is resumed by the next constructor: on a store that
    reports [IsOk] and carries out the [Save], with remember-session on,
    no ['|'] inside the access and the refresh token and an expiry time
    that fits [long long], the constructor run on what was saved never
    throws.  It builds the session from the stored refresh token and key;
    it keeps the access token and schedules the refresh timer exactly
    when the remaining time, the expiry time minus the clock in wrapping
    [long long] arithmetic, is positive, and otherwise drops the access
    token and leaves the timer idle; and it calls [do_login] exactly when
    the refresh token is not empty. *)
Theorem constructor_resumes_saved_session username connect_polling
    (w : World S) :
  IsOk (secret_store (env w)) = true ->
  accepts_save (secret_store (env w)) = true ->
  m_remember_session (this w) = true ->
  free_of (is_any_of (lit "|")) (get_access_token (m_session (this w))) ->
  free_of (is_any_of (lit "|")) (get_refresh_token (m_session (this w))) ->
  LLONG_MIN <= get_next_token_timeout (m_session (this w)) <= LLONG_MAX ->
  let session := m_session (this w) in
  let e' := env (set_username true SLIC3R_APP_NAME username w) in
  let remain :=
    wrap_llong (get_next_token_timeout session - clock (env w)) in
  let resumed :=
    {| this :=
         constructed_object defaults
           (make_session
              (if remain <=? 0 then [] else get_access_token session)
              (get_refresh_token session) (get_shared_session_key session)
              connect_polling)
           (if remain <=? 0 then RefreshTimer.new_wxTimer
            else RefreshTimer.set_refresh_time (wrap_int remain)
                   RefreshTimer.new_wxTimer);
       env := e' |} in
  let constructed :=
    new_UserAccountCommunication true SLIC3R_APP_NAME client_id sha256
      mt19937 seed distribution defaults connect_polling e' in
  constructed
  = (if bool_decide (get_refresh_token session = []) then Returns resumed
     else do_login client_id sha256 mt19937 seed distribution resumed)
  /\ forall exn, constructed <> Throws exn.
Proof.
  intros Hok Hacc Hrem Ha Hr Hrange. cbn zeta.
  pose proof (recover_after_set_username username w Hok Hacc) as Hrec.
  cbn zeta in Hrec. unfold tokens_to_store, token_bundle in Hrec.
  rewrite Hrem in Hrec.
  rewrite split_bundle in Hrec
    by (assumption || apply to_string_free_of_pipe).
  change (at_or_empty [?a; ?r; ?t] 0) with a in Hrec.
  cbn [at_or_empty lookup list_lookup] in Hrec.
  assert (Hnext :
            (if bool_decide
                  (to_string (get_next_token_timeout (m_session (this w)))
                   = [])
             then Returns 0
             else stoll
                    (to_string
                       (get_next_token_timeout (m_session (this w)))))
            = Returns (get_next_token_timeout (m_session (this w)))).
  { destruct (bool_decide_reflect
                (to_string (get_next_token_timeout (m_session (this w)))
                 = [])) as [Hempty|_].
    - exfalso. revert Hempty. apply to_string_nonempty.
    - apply leading_number_stoll;
        [apply to_string_leading_number|exact Hrange]. }
  pose proof (constructor_from_recovered true connect_polling _ _ _ _ _ _ _
                Hrec Hnext) as Hnew.
  cbn zeta in Hnew.
  destruct (set_username_saved username w Hok Hacc)
    as (_ & _ & _ & _ & _ & Hclock).
  cbn zeta in Hclock. rewrite Hclock in Hnew.
  split; [exact Hnew|].
  intros exn. rewrite Hnew.
  destruct (bool_decide (get_refresh_token (m_session (this w)) = []));
    [discriminate|apply do_login_no_throw].
Qed.

Lemma no_timeout_no_refresh connect_polling wx e access key e' :
  recover_tokens wx SLIC3R_APP_NAME e = ((access, [], key, []), e') ->
  0 <= clock e' <= LLONG_MAX ->
  new_UserAccountCommunication wx SLIC3R_APP_NAME client_id sha256 mt19937
    seed distribution defaults connect_polling e
  = Returns
      {| this :=
           constructed_object defaults
             (make_session [] [] key connect_polling)
             RefreshTimer.new_wxTimer;
         env := e' |}.
Proof.
  intros Hrec Hclock.
  rewrite (constructor_from_recovered wx connect_polling e access [] key []
             e' 0 Hrec eq_refl).
  cbn zeta.
  assert (Hremain : (wrap_llong (0 - clock e') <=? 0) = true).
  { apply Z.leb_le. unfold wrap_llong, LLONG_MIN, LLONG_MAX in *.
    Z.div_mod_to_equations. lia. }
  rewrite Hremain. reflexivity.
Qed.

(** X14. Turning remember-session off forgets the tokens: on a store that
    reports [IsOk] and carries out the [Save], after
    [set_remember_session(false)] the store holds the empty string under
    the tokens service, and a constructor run on that store (with a clock
    not before the epoch) returns an object with no access and no refresh
    token, the refresh timer not started and no login attempted. *)
Theorem constructor_after_forgetting connect_polling (w : World S) :
  IsOk (secret_store (env w)) = true ->
  accepts_save (secret_store (env w)) = true ->
  0 <= clock (env w) <= LLONG_MAX ->
  let w' := set_remember_session true SLIC3R_APP_NAME false w in
  Load (service_name SLIC3R_APP_NAME (lit "tokens"))
    (secret_store (env w'))
  = Some (get_shared_session_key (m_session (this w)), [])
  /\ new_UserAccountCommunication true SLIC3R_APP_NAME client_id sha256
       mt19937 seed distribution defaults connect_polling (env w')
     = Returns
         {| this :=
              constructed_object defaults
                (make_session [] []
                   (get_shared_session_key (m_session (this w)))
                   connect_polling)
                RefreshTimer.new_wxTimer;
            env := env w' |}.
Proof.
  intros Hok Hacc Hclock. cbn zeta. unfold set_remember_session.
  set (w1 := on_this (set_m_remember_session false) w).
  change (m_username (this w1)) with (m_username (this w)).
  assert (Hok1 : IsOk (secret_store (env w1)) = true) by exact Hok.
  assert (Hacc1 : accepts_save (secret_store (env w1)) = true) by exact Hacc.
  destruct (set_username_saved (m_username (this w)) w1 Hok1 Hacc1)
    as (_ & _ & Hsecrets & _ & _ & Hclock').
  cbn zeta in Hsecrets, Hclock'.
  split.
  - unfold Load. rewrite Hsecrets. apply lookup_insert_eq.
  - pose proof (recover_after_set_username (m_username (this w)) w1 Hok1
                  Hacc1) as Hrec.
    cbn zeta in Hrec.
    apply (no_timeout_no_refresh connect_polling true _ [] _ _ Hrec).
    rewrite Hclock'. exact Hclock.
Qed.

(** X15. Without a usable secret store (not compiled in, or not [IsOk])
    the constructor reads nothing and never throws: it returns an object
    whose session has empty tokens and an empty key, with the polling
    timer running, the refresh timer idle and no login attempted; the only
    trace is the one warning of [is_secret_store_ok] when the store is
    compiled in. *)
Theorem constructor_without_secret_store wx connect_polling e :
  wx = false \/ IsOk (secret_store e) = false ->
  0 <= clock e <= LLONG_MAX ->
  let e' :=
    if wx
    then BOOST_LOG_TRIVIAL warning
           (lit "wxSecretStore is not supported: " ++ errmsg (secret_store e))
           e
    else e in
  new_UserAccountCommunication wx SLIC3R_APP_NAME client_id sha256 mt19937
    seed distribution defaults connect_polling e
  = Returns
      {| this :=
           constructed_object defaults
             (make_session [] [] [] connect_polling)
             RefreshTimer.new_wxTimer;
         env := e' |}.
Proof.
  intros Hstore Hclock. cbn zeta.
  apply (no_timeout_no_refresh connect_polling wx e []).
  - unfold recover_tokens, is_secret_store_ok.
    destruct wx; [|reflexivity].
    destruct Hstore as [Hwx|Hok]; [discriminate|].
    rewrite Hok. reflexivity.
  - destruct wx; exact Hclock.
Qed.

(** X16. The fallback of the constructor to the records of earlier
    versions: when the store is usable and holds no combined record, the
    access token, the refresh token and the expiry text are the passwords
    of the records [access_token], [refresh_token] and
    [access_token_timeout], the empty string for each record that is
    missing; the shared session key is the user name of the
    [access_token] record alone.  The store is only read, and one error
    is logged for the combined record and for each missing one. *)
Theorem recover_tokens_legacy_records e :
  IsOk (secret_store e) = true ->
  Load (service_name SLIC3R_APP_NAME (lit "tokens")) (secret_store e)
  = None ->
  let store := secret_store e in
  let service := service_name SLIC3R_APP_NAME in
  let failure :=
    (error,
     lit "Failed to load credentials from the system secret store.") in
  exists e',
    recover_tokens true SLIC3R_APP_NAME e
    = ((stored_password store (service (lit "access_token")),
        stored_password store (service (lit "refresh_token")),
        stored_username store (service (lit "access_token")),
        stored_password store (service (lit "access_token_timeout"))),
       e')
    /\ secret_store e' = store
    /\ queued_events e' = queued_events e
    /\ log e'
       = log e
         ++ repeat failure
              (1 + is_missing store (service (lit "access_token"))
               + is_missing store (service (lit "refresh_token"))
               + is_missing store (service (lit "access_token_timeout"))).
Proof.
  intros Hok Hnone. cbn zeta.
  unfold recover_tokens, is_secret_store_ok, load_secret, stored_password,
    stored_username, is_missing.
  rewrite Hok. cbn [negb]. rewrite Hok. cbn [negb]. rewrite Hnone.
  cbn [BOOST_LOG_TRIVIAL secret_store]. rewrite Hok. cbn [negb].
  destruct (Load (service_name SLIC3R_APP_NAME (lit "access_token"))
              (secret_store e)) as [[key0 access]|];
    cbn [BOOST_LOG_TRIVIAL secret_store]; rewrite ?Hok; cbn [negb];
    destruct (Load (service_name SLIC3R_APP_NAME (lit "refresh_token"))
                (secret_store e)) as [[key1 refresh]|];
    cbn [BOOST_LOG_TRIVIAL secret_store]; rewrite ?Hok; cbn [negb];
    destruct (Load (service_name SLIC3R_APP_NAME
                      (lit "access_token_timeout"))
                (secret_store e)) as [[key2 timeout]|];
    eexists; (split; [reflexivity|]);
    cbn [BOOST_LOG_TRIVIAL secret_store queued_events log Nat.add repeat];
    rewrite <- ?app_assoc; repeat split; reflexivity.
Qed.

Lemma set_username_requests username (w : World S) :
  IsOk (secret_store (env w)) = true ->
  save_requests
    (secret_store (env (set_username true SLIC3R_APP_NAME username w)))
  = save_requests (secret_store (env w))
    ++ [(service_name SLIC3R_APP_NAME (lit "tokens"),
         get_shared_session_key (m_session (this w)), tokens_to_store w)].
Proof.
  intros Hok.
  unfold set_username, is_secret_store_ok, save_secret, tokens_to_store,
    token_bundle.
  cbn -[lit Save service_name to_string].
  repeat (rewrite Hok; cbn -[lit Save service_name to_string]).
  unfold Save.
  destruct (accepts_save (secret_store (env w))); reflexivity.
Qed.

Lemma set_username_events wx username (w : World S) :
  queued_events (env (set_username wx SLIC3R_APP_NAME username w))
  = queued_events (env w).
Proof.
  unfold set_username, is_secret_store_ok, save_secret.
  destruct wx; [|reflexivity].
  cbn -[lit Save service_name to_string].
  destruct (IsOk (secret_store (env w))) eqn:Hok;
    cbn -[lit Save service_name to_string]; [|reflexivity].
  rewrite Hok. cbn -[lit Save service_name to_string].
  destruct (Save _ _ _ _) as [[] store']; reflexivity.
Qed.

(** X17. [do_logout] clears the session first and saves afterwards: the
    object changes in its session (cleared), its user name (empty, so
    [is_logged] is false) and its refresh timer (stopped) and in nothing
    else, exactly one [EVT_UA_LOGGEDOUT] is queued, and with a usable
    store the one [Save] request carries the key and the tokens of the
    cleared session, or the empty string when remember-session is off. *)
Theorem do_logout_forgets wx (w : World S) :
  let w' := do_logout wx SLIC3R_APP_NAME w in
  let cleared := clear (m_session (this w)) in
  this w'
  = set_m_token_timer (RefreshTimer.Stop (m_token_timer (this w)))
      (set_m_username [] (set_m_session cleared (this w)))
  /\ is_logged w' = false
  /\ queued_events (env w') = queued_events (env w) ++ [EVT_UA_LOGGEDOUT]
  /\ (wx = true ->
      IsOk (secret_store (env w)) = true ->
      save_requests (secret_store (env w'))
      = save_requests (secret_store (env w))
        ++ [(service_name SLIC3R_APP_NAME (lit "tokens"),
             get_shared_session_key cleared,
             if m_remember_session (this w) then token_bundle cleared
             else [])]).
Proof.
  cbn zeta. unfold do_logout, do_clear.
  set (w1 := on_session clear w).
  assert (Hthis : this (set_username wx SLIC3R_APP_NAME [] w1)
                  = set_m_username [] (this w1))
    by apply set_username_this.
  split; [|split; [|split]].
  - cbn [on_env on_this this]. rewrite Hthis. reflexivity.
  - unfold is_logged. cbn [on_env on_this this]. rewrite Hthis. reflexivity.
  - cbn [on_env on_this env wxQueueEvent queued_events].
    now rewrite set_username_events.
  - intros -> Hok. cbn [on_env on_this env wxQueueEvent secret_store].
    now rewrite set_username_requests.
Qed.

(** X25. The round trip needs tokens without the separator: when the
    access token holds one ['|'], the constructor reads its first part as
    the access token, its second part as the refresh token and the
    refresh token as the text of the expiry time, and the expiry time
    that was saved is dropped; the constructor then throws whenever
    [std::stoll] throws on the refresh token. *)
Theorem separator_in_token_shifts_fields username connect_polling
    (w : World S) head tail :
  IsOk (secret_store (env w)) = true ->
  accepts_save (secret_store (env w)) = true ->
  m_remember_session (this w) = true ->
  get_access_token (m_session (this w)) = head ++ lit "|" ++ tail ->
  free_of (is_any_of (lit "|")) head ->
  free_of (is_any_of (lit "|")) tail ->
  free_of (is_any_of (lit "|")) (get_refresh_token (m_session (this w))) ->
  let session := m_session (this w) in
  let e' := env (set_username true SLIC3R_APP_NAME username w) in
  recover_tokens true SLIC3R_APP_NAME e'
  = ((head, tail, get_shared_session_key session,
      get_refresh_token session), e')
  /\ forall exn,
       get_refresh_token session <> [] ->
       stoll (get_refresh_token session) = Throws exn ->
       new_UserAccountCommunication true SLIC3R_APP_NAME client_id sha256
         mt19937 seed distribution defaults connect_polling e'
       = Throws exn.
Proof.
  intros Hok Hacc Hrem Haccess Hhead Htail Hrefresh. cbn zeta.
  pose proof (recover_after_set_username username w Hok
                Hacc) as Hrec.
  cbn zeta in Hrec. unfold tokens_to_store, token_bundle in Hrec.
  rewrite Hrem, Haccess in Hrec.
  change ((head ++ lit "|" ++ tail) ++ lit "|"
          ++ get_refresh_token (m_session (this w)) ++ lit "|"
          ++ to_string (get_next_token_timeout (m_session (this w))))
    with ((head ++ "|"%char :: tail) ++ "|"%char
          :: get_refresh_token (m_session (this w)) ++ "|"%char
          :: to_string (get_next_token_timeout (m_session (this w))))
    in Hrec.
  rewrite <- app_assoc in Hrec. cbn [app] in Hrec.
  rewrite !split_field in Hrec by (assumption || reflexivity).
  rewrite split_free in Hrec by apply to_string_free_of_pipe.
  cbn [at_or_empty lookup list_lookup] in Hrec.
  split; [exact Hrec|].
  intros exn Hne Hthrow. apply constructor_throws.
  unfold stored_timeout. rewrite Hrec. cbn [fst snd]. now split.
Qed.

End WithSession.

Import SessionModel.

Lemma save_secret_then_load_secret_witness :
  IsOk (secret_store SessionModel.example_env) = true
  /\ accepts_save (secret_store SessionModel.example_env) = true
  /\ let e' :=
       snd (save_secret true (lit "PrusaSlicer") (lit "tokens") (lit "key")
              (lit "AT|RT|17") SessionModel.example_env) in
     fst (save_secret true (lit "PrusaSlicer") (lit "tokens") (lit "key")
            (lit "AT|RT|17") SessionModel.example_env) = true
     /\ log e' = log SessionModel.example_env
     /\ load_secret true (lit "PrusaSlicer") (lit "tokens") [] [] e'
        = ((true, lit "key", lit "AT|RT|17"), e')
     /\ (forall opt',
           opt' <> lit "tokens" ->
           fst (load_secret true (lit "PrusaSlicer") opt' [] [] e')
           = fst (load_secret true (lit "PrusaSlicer") opt' [] []
                    SessionModel.example_env)).
Proof.
  split; [reflexivity|]. split; [reflexivity|].
  exact (save_secret_then_load_secret (lit "PrusaSlicer") (lit "tokens")
           (lit "key") (lit "AT|RT|17") [] [] SessionModel.example_env
           eq_refl eq_refl).
Defined.

Lemma set_username_then_recover_tokens_witness :
  let w := SessionModel.example_world true true in
  IsOk (secret_store (env w)) = true
  /\ accepts_save (secret_store (env w)) = true
  /\ m_remember_session (this w) = true
  /\ free_of (is_any_of (lit "|")) (get_access_token (m_session (this w)))
  /\ free_of (is_any_of (lit "|")) (get_refresh_token (m_session (this w)))
  /\ recover_tokens true (lit "PrusaSlicer")
       (env (set_username true (lit "PrusaSlicer") (lit "user") w))
     = ((get_access_token (m_session (this w)),
         get_refresh_token (m_session (this w)),
         get_shared_session_key (m_session (this w)),
         to_string (get_next_token_timeout (m_session (this w)))),
        env (set_username true (lit "PrusaSlicer") (lit "user") w)).
Proof.
  cbn zeta. do 5 (split; [reflexivity|]).
  exact (set_username_then_recover_tokens (lit "PrusaSlicer") (lit "user")
           (SessionModel.example_world true true)
           eq_refl eq_refl eq_refl eq_refl eq_refl).
Defined.

Lemma example_timeout_fits :
  LLONG_MIN
  <= get_next_token_timeout
       (m_session (this (SessionModel.example_world true true)))
  <= LLONG_MAX.
Proof. split; intros Hc; vm_compute in Hc; discriminate Hc. Qed.

Lemma constructor_resumes_saved_session_witness :
  let w := SessionModel.example_world true true in
  let session := m_session (this w) in
  let e' := env (set_username true (lit "PrusaSlicer") (lit "user") w) in
  let remain :=
    wrap_llong (get_next_token_timeout session - clock (env w)) in
  let resumed :=
    {| this :=
         constructed_object example_defaults
           (make_session
              (if remain <=? 0 then [] else get_access_token session)
              (get_refresh_token session) (get_shared_session_key session)
              true)
           (if remain <=? 0 then RefreshTimer.new_wxTimer
            else RefreshTimer.set_refresh_time (wrap_int remain)
                   RefreshTimer.new_wxTimer);
       env := e' |} in
  let constructed :=
    new_UserAccountCommunication true (lit "PrusaSlicer") (lit "client")
      Sha256Reference.platform_sha256 Z LcgEngine.seed LcgEngine.distribution
      example_defaults true e' in
  (LLONG_MIN <= get_next_token_timeout session <= LLONG_MAX)
  /\ constructed
     = (if bool_decide (get_refresh_token session = []) then Returns resumed
        else do_login (lit "client") Sha256Reference.platform_sha256 Z
               LcgEngine.seed LcgEngine.distribution resumed)
  /\ forall exn, constructed <> Throws exn.
Proof.
  cbn zeta. split; [exact example_timeout_fits|].
  exact (constructor_resumes_saved_session (lit "PrusaSlicer") (lit "client")
           Sha256Reference.platform_sha256 Z LcgEngine.seed
           LcgEngine.distribution example_defaults (lit "user") true
           (SessionModel.example_world true true)
           eq_refl eq_refl eq_refl eq_refl eq_refl example_timeout_fits).
Defined.

Lemma example_clock_fits : 0 <= clock SessionModel.example_env <= LLONG_MAX.
Proof. split; intros Hc; vm_compute in Hc; discriminate Hc. Qed.

Lemma constructor_after_forgetting_witness :
  let w := SessionModel.example_world true true in
  let w' := set_remember_session true (lit "PrusaSlicer") false w in
  0 <= clock (env w) <= LLONG_MAX
  /\ Load (service_name (lit "PrusaSlicer") (lit "tokens"))
       (secret_store (env w'))
     = Some (get_shared_session_key (m_session (this w)), [])
  /\ new_UserAccountCommunication true (lit "PrusaSlicer") (lit "client")
       Sha256Reference.platform_sha256 Z LcgEngine.seed
       LcgEngine.distribution example_defaults true (env w')
     = Returns
         {| this :=
              constructed_object example_defaults
                (make_session [] []
                   (get_shared_session_key (m_session (this w))) true)
                RefreshTimer.new_wxTimer;
            env := env w' |}.
Proof.
  cbn zeta. split; [exact example_clock_fits|].
  exact (constructor_after_forgetting (lit "PrusaSlicer") (lit "client")
           Sha256Reference.platform_sha256 Z LcgEngine.seed
           LcgEngine.distribution example_defaults true
           (SessionModel.example_world true true)
           eq_refl eq_refl example_clock_fits).
Defined.

Lemma constructor_without_secret_store_witness :
  (false = false \/ IsOk (secret_store SessionModel.example_env) = false)
  /\ 0 <= clock SessionModel.example_env <= LLONG_MAX
  /\ new_UserAccountCommunication false (lit "PrusaSlicer") (lit "client")
       Sha256Reference.platform_sha256 Z LcgEngine.seed
       LcgEngine.distribution example_defaults true SessionModel.example_env
     = Returns
         {| this :=
              constructed_object example_defaults
                (make_session (S := SessionModel.SpecSession) [] [] [] true)
                RefreshTimer.new_wxTimer;
            env := SessionModel.example_env |}.
Proof.
  split; [left; reflexivity|]. split; [exact example_clock_fits|].
  exact (constructor_without_secret_store (lit "PrusaSlicer") (lit "client")
           Sha256Reference.platform_sha256 Z LcgEngine.seed
           LcgEngine.distribution example_defaults false true
           SessionModel.example_env (or_introl eq_refl) example_clock_fits).
Defined.

Lemma recover_tokens_legacy_records_witness :
  IsOk (secret_store legacy_env) = true
  /\ Load (service_name (lit "PrusaSlicer") (lit "tokens"))
       (secret_store legacy_env)
     = None
  /\ exists e',
       recover_tokens true (lit "PrusaSlicer") legacy_env
       = ((stored_password (secret_store legacy_env)
             (service_name (lit "PrusaSlicer") (lit "access_token")),
           stored_password (secret_store legacy_env)
             (service_name (lit "PrusaSlicer") (lit "refresh_token")),
           stored_username (secret_store legacy_env)
             (service_name (lit "PrusaSlicer") (lit "access_token")),
           stored_password (secret_store legacy_env)
             (service_name (lit "PrusaSlicer") (lit "access_token_timeout"))),
          e')
       /\ secret_store e' = secret_store legacy_env
       /\ queued_events e' = queued_events legacy_env
       /\ log e'
          = log legacy_env
            ++ repeat
                 (error,
                  lit "Failed to load credentials from the system secret store.")
                 (1 + is_missing (secret_store legacy_env)
                        (service_name (lit "PrusaSlicer") (lit "access_token"))
                  + is_missing (secret_store legacy_env)
                      (service_name (lit "PrusaSlicer") (lit "refresh_token"))
                  + is_missing (secret_store legacy_env)
                      (service_name (lit "PrusaSlicer")
                         (lit "access_token_timeout"))).
Proof.
  assert (Hnone : Load (service_name (lit "PrusaSlicer") (lit "tokens"))
                    (secret_store legacy_env) = None)
    by (vm_compute; reflexivity).
  split; [reflexivity|]. split; [exact Hnone|].
  exact (recover_tokens_legacy_records (lit "PrusaSlicer") legacy_env
           eq_refl Hnone).
Defined.

(** The records of earlier versions, read back: the key of the refresh
    record is ignored, and the missing expiry text is empty. *)
Example recover_tokens_legacy_example :
  fst (recover_tokens true (lit "PrusaSlicer") legacy_env)
  = (lit "AT", lit "RT", lit "key", []).
Proof. vm_compute. reflexivity. Qed.

Lemma do_logout_forgets_witness :
  let w := SessionModel.example_world true true in
  let w' := do_logout true (lit "PrusaSlicer") w in
  let cleared := clear (m_session (this w)) in
  this w'
  = set_m_token_timer (RefreshTimer.Stop (m_token_timer (this w)))
      (set_m_username [] (set_m_session cleared (this w)))
  /\ is_logged w' = false
  /\ queued_events (env w') = queued_events (env w) ++ [EVT_UA_LOGGEDOUT]
  /\ (true = true ->
      IsOk (secret_store (env w)) = true ->
      save_requests (secret_store (env w'))
      = save_requests (secret_store (env w))
        ++ [(service_name (lit "PrusaSlicer") (lit "tokens"),
             get_shared_session_key cleared,
             if m_remember_session (this w) then token_bundle cleared
             else [])]).
Proof.
  exact (do_logout_forgets (lit "PrusaSlicer") true
           (SessionModel.example_world true true)).
Defined.

(** On the session of the specification, whose [clear] empties the tokens,
    a logout with remember-session on stores a bundle of empty tokens. *)
Example do_logout_stored_bundle :
  save_requests
    (secret_store
       (env (do_logout true (lit "PrusaSlicer")
               (SessionModel.example_world true true))))
  = [(lit "PrusaSlicer/PrusaAccount/tokens", [], lit "||0")].
Proof. vm_compute. reflexivity. Qed.


Lemma separator_in_token_shifts_fields_witness :
  let w := MoreExamples.separator_world in
  let session := m_session (this w) in
  let e' := env (set_username true (lit "PrusaSlicer") (lit "user") w) in
  get_access_token session = lit "A" ++ lit "|" ++ lit "B"
  /\ recover_tokens true (lit "PrusaSlicer") e'
     = ((lit "A", lit "B", get_shared_session_key session,
         get_refresh_token session), e')
  /\ forall exn,
       get_refresh_token session <> [] ->
       stoll (get_refresh_token session) = Throws exn ->
       new_UserAccountCommunication true (lit "PrusaSlicer") (lit "client")
         Sha256Reference.platform_sha256 Z LcgEngine.seed
         LcgEngine.distribution example_defaults true e'
       = Throws exn.
Proof.
  cbn zeta. split; [reflexivity|].
  exact (separator_in_token_shifts_fields (lit "PrusaSlicer") (lit "client")
           Sha256Reference.platform_sha256 Z LcgEngine.seed
           LcgEngine.distribution example_defaults (lit "user") true
           MoreExamples.separator_world (lit "A") (lit "B")
           eq_refl eq_refl eq_refl eq_refl eq_refl eq_refl eq_refl).
Defined.

(** With the refresh token [RT] in the place of the expiry time, the next
    start fails. *)
Example separator_in_token_breaks_next_start :
  new_UserAccountCommunication true (lit "PrusaSlicer") (lit "client")
    Sha256Reference.platform_sha256 Z LcgEngine.seed LcgEngine.distribution
    example_defaults true
    (env (set_username true (lit "PrusaSlicer") (lit "user")
            MoreExamples.separator_world))
  = Throws (invalid_argument (lit "stoll")).
Proof. vm_compute. reflexivity. Qed.

End PersistenceMore.

(** ** The login redirect and the code that comes back *)

Module LoginMore.
Import MachineInt StringUtil Session SecretStore Orchestrator.
Import CodeChalengeGenerator Base64Url Inverses Login.
Import Base64Facts CodeChalengeGeneratorFacts Base64More ConstructorFacts.

Section WithSession.
Context {S : Type} `{UserAccountSession S}.
Variable client_id : std_string.
Variable sha256 : std_string -> result std_string.
Variable mt19937 : Type.
Variable seed : Z -> mt19937.
Variable distribution : Z -> Z -> mt19937 -> Z * mt19937.

Lemma generate_verifier_returns rd :
  uniform_int_contract distribution ->
  exists code_verifier,
    generate_verifier mt19937 seed distribution rd = Returns code_verifier
    /\ length code_verifier = 40%nat
    /\ Forall alphanumeric code_verifier.
Proof.
  intros Hcontract. unfold generate_verifier, generate_code_verifier.
  destruct (verifier_loop_spec mt19937 distribution Hcontract 40 (seed rd) [])
    as (v & Hv & Hlen & Hall).
  exists v. auto.
Qed.

Lemma generate_chalenge_returns verifier :
  digest_contract sha256 ->
  exists code_challenge,
    generate_chalenge sha256 verifier = Returns code_challenge
    /\ Forall url_character code_challenge
    /\ (forall digest,
          sha256 verifier = Returns digest ->
          code_challenge = base64url_direct digest)
    /\ (code_challenge = [] <-> exists exn, sha256 verifier = Throws exn).
Proof.
  intros Hdigest. destruct (Hdigest verifier) as [Hdef Hne].
  unfold generate_chalenge.
  destruct (sha256 verifier) as [digest|exn|] eqn:Hsha; cbn [bind];
    [|exists []|congruence].
  - assert (Hd : digest <> []) by congruence.
    rewrite base64_encode_url by exact Hd. rewrite base64url_nopad_direct.
    exists (base64url_direct digest). split; [reflexivity|].
    split; [apply base64url_direct_characters|].
    split; [intros d Heq; congruence|].
    split; [|intros [exn Hexn]; discriminate].
    intros Hempty. exfalso. now apply (base64url_direct_nonempty digest Hd).
  - split; [reflexivity|]. split; [constructor|].
    split; [discriminate|]. split; eauto.
Qed.

Lemma authorize_url_format code_challenge :
  lit "https://account.prusa3d.com" ++ lit "/o/authorize/?client_id="
  ++ client_id ++ lit "&response_type=code&code_challenge=" ++ code_challenge
  ++ lit "&code_challenge_method=S256&scope=basic_info&redirect_uri="
  ++ lit "prusaslicer://login" ++ lit "&choose_account=1"
  = authorize_url client_id code_challenge.
Proof.
  unfold authorize_url.
  change (lit "https://account.prusa3d.com/o/authorize/?client_id=")
    with (lit "https://account.prusa3d.com"
          ++ lit "/o/authorize/?client_id=").
  change (lit "&code_challenge_method=S256&scope=basic_info&redirect_uri=prusaslicer://login&choose_account=1")
    with (lit "&code_challenge_method=S256&scope=basic_info&redirect_uri="
          ++ lit "prusaslicer://login" ++ lit "&choose_account=1").
  now rewrite <- !app_assoc.
Qed.

(** What [login_redirect] does, in full. *)
Lemma login_redirect_returns (w : World S) :
  uniform_int_contract distribution ->
  digest_contract sha256 ->
  exists code_verifier code_challenge w',
    generate_verifier mt19937 seed distribution
      (random_device (env w) (random_device_calls (env w)))
    = Returns code_verifier
    /\ generate_chalenge sha256 code_verifier = Returns code_challenge
    /\ login_redirect client_id sha256 mt19937 seed distribution w
       = Returns w'
    /\ this w' = set_m_code_verifier code_verifier (this w)
    /\ queued_events (env w')
       = queued_events (env w)
         ++ [EVT_OPEN_PRUSAAUTH (authorize_url client_id code_challenge)]
    /\ log (env w')
       = log (env w)
         ++ match generate_chalenge_error sha256 code_verifier with
            | Some msg => [(error, msg)]
            | None => []
            end
         ++ [(info, lit "code verifier: " ++ code_verifier);
             (info, lit "code challenge: " ++ code_challenge)]
    /\ secret_store (env w') = secret_store (env w)
    /\ random_device_calls (env w')
       = Datatypes.S (random_device_calls (env w)).
Proof.
  intros Hcontract Hdigest.
  destruct (generate_verifier_returns
              (random_device (env w) (random_device_calls (env w)))
              Hcontract) as (v & Hv & _ & _).
  destruct (generate_chalenge_returns v Hdigest) as (c & Hc & _).
  exists v, c. unfold login_redirect, draw_random_device.
  rewrite Hv. cbn [bind]. rewrite Hc. cbn [bind].
  eexists. split; [reflexivity|]. split; [reflexivity|].
  split; [reflexivity|].
  destruct (generate_chalenge_error sha256 v) as [msg|];
    cbn [on_this on_env this env wxQueueEvent BOOST_LOG_TRIVIAL
         queued_events log secret_store random_device_calls];
    rewrite authorize_url_format, <- ?app_assoc; repeat split; reflexivity.
Qed.

(** X18. With a distribution that keeps its bounds and a digest that
    returns a digest or throws, [login_redirect] returns and changes the
    object in [m_code_verifier] alone: the new verifier has 40 characters
    of [[A-Za-z0-9]].  Exactly one [EVT_OPEN_PRUSAAUTH] is queued, whose
    URL carries the client id and, as code challenge, the base64url text
    of the digest of that very verifier; the challenge is empty exactly
    when the digest throws, and the event is queued all the same.  The
    verifier and the challenge are written to the log at level info, and
    the secret store is not touched. *)
Theorem login_redirect_binds_challenge (w : World S) :
  uniform_int_contract distribution ->
  digest_contract sha256 ->
  exists code_verifier code_challenge w',
    login_redirect client_id sha256 mt19937 seed distribution w
    = Returns w'
    /\ this w' = set_m_code_verifier code_verifier (this w)
    /\ length code_verifier = 40%nat
    /\ Forall alphanumeric code_verifier
    /\ queued_events (env w')
       = queued_events (env w)
         ++ [EVT_OPEN_PRUSAAUTH (authorize_url client_id code_challenge)]
    /\ Forall url_character code_challenge
    /\ (forall digest,
          sha256 code_verifier = Returns digest ->
          code_challenge = base64url_direct digest)
    /\ (code_challenge = [] <-> exists exn, sha256 code_verifier = Throws exn)
    /\ log (env w')
       = log (env w)
         ++ match generate_chalenge_error sha256 code_verifier with
            | Some msg => [(error, msg)]
            | None => []
            end
         ++ [(info, lit "code verifier: " ++ code_verifier);
             (info, lit "code challenge: " ++ code_challenge)]
    /\ secret_store (env w') = secret_store (env w).
Proof.
  intros Hcontract Hdigest.
  destruct (login_redirect_returns w Hcontract Hdigest)
    as (v & c & w' & Hv & Hc & Hw' & Hthis & Hevents & Hlog & Hstore & _).
  destruct (generate_verifier_returns
              (random_device (env w) (random_device_calls (env w)))
              Hcontract) as (v' & Hv' & Hlen & Hall).
  assert (v' = v) by congruence. subst v'.
  destruct (generate_chalenge_returns v Hdigest)
    as (c' & Hc' & Hchars & Hbase & Hempty).
  assert (c' = c) by congruence. subst c'.
  exists v, c, w'. repeat split; try assumption; apply Hempty.
Qed.

(** X19. The code that comes back meets the verifier of the redirect: on
    a session that is not initialized, [do_login] returns, leaves the
    session as it was, queues the event whose challenge is the one of the
    stored verifier and sets the wake-up flag; a following
    [on_login_code_recieved] hands to [init_with_code] the code extracted
    from the message together with that same stored verifier, sets the
    wake-up flag, and changes neither the verifier nor the
    environment. *)
Theorem login_code_meets_stored_verifier url_message (w : World S) :
  uniform_int_contract distribution ->
  digest_contract sha256 ->
  is_initialized (m_session (this w)) = false ->
  exists w1 code_challenge,
    do_login client_id sha256 mt19937 seed distribution w = Returns w1
    /\ generate_chalenge sha256 (m_code_verifier (this w1))
       = Returns code_challenge
    /\ queued_events (env w1)
       = queued_events (env w)
         ++ [EVT_OPEN_PRUSAAUTH (authorize_url client_id code_challenge)]
    /\ m_session (this w1) = m_session (this w)
    /\ m_thread_wakeup (this w1) = true
    /\ let w2 := on_login_code_recieved url_message w1 in
       m_session (this w2)
       = init_with_code
           (CodeFromMessage.get_code_from_message url_message)
           (m_code_verifier (this w1)) (m_session (this w))
       /\ m_thread_wakeup (this w2) = true
       /\ m_code_verifier (this w2) = m_code_verifier (this w1)
       /\ env w2 = env w1.
Proof.
  intros Hcontract Hdigest Hinit.
  destruct (login_redirect_returns w Hcontract Hdigest)
    as (v & c & w' & _ & Hc & Hw' & Hthis & Hevents & _).
  exists (wakeup_session_thread w'), c.
  unfold do_login. rewrite Hinit. cbn [negb]. rewrite Hw'. cbn [bind].
  split; [reflexivity|].
  unfold on_login_code_recieved, wakeup_session_thread, on_session.
  cbn [on_this this env]. rewrite Hthis.
  cbn [set_m_thread_wakeup set_m_code_verifier set_m_session m_code_verifier
       m_session m_thread_wakeup].
  repeat split; assumption.
Qed.

End WithSession.

Lemma be_bytes_length n x : length (Sha256Reference.be_bytes n x) = n.
Proof. induction n as [|n IH]; cbn; [reflexivity|now rewrite IH]. Qed.

Lemma reference_digest_length input :
  length (Sha256Reference.sha256 input) = 32%nat.
Proof.
  unfold Sha256Reference.sha256, Sha256Reference.sha256_bytes,
    Sha256Reference.digest_bytes.
  rewrite length_map, !length_app, !be_bytes_length. reflexivity.
Qed.

Lemma reference_digest_contract :
  digest_contract Sha256Reference.platform_sha256.
Proof.
  intros input. unfold Sha256Reference.platform_sha256.
  split; [discriminate|]. intros Heq. injection Heq as Heq.
  pose proof (reference_digest_length input) as Hlen.
  rewrite Heq in Hlen. discriminate.
Qed.
Import SessionModel MoreExamples.

Lemma login_redirect_binds_challenge_witness :
  uniform_int_contract LcgEngine.distribution
  /\ digest_contract Sha256Reference.platform_sha256
  /\ exists code_verifier code_challenge w',
       login_redirect (lit "client") Sha256Reference.platform_sha256 Z
         LcgEngine.seed LcgEngine.distribution logged_out_world
       = Returns w'
       /\ this w' = set_m_code_verifier code_verifier (this logged_out_world)
       /\ length code_verifier = 40%nat
       /\ Forall alphanumeric code_verifier
       /\ queued_events (env w')
          = queued_events (env logged_out_world)
            ++ [EVT_OPEN_PRUSAAUTH
                  (authorize_url (lit "client") code_challenge)]
       /\ Forall url_character code_challenge
       /\ (forall digest,
             Sha256Reference.platform_sha256 code_verifier = Returns digest ->
             code_challenge = base64url_direct digest)
       /\ (code_challenge = []
           <-> exists exn,
                 Sha256Reference.platform_sha256 code_verifier = Throws exn)
       /\ log (env w')
          = log (env logged_out_world)
            ++ match
                 generate_chalenge_error Sha256Reference.platform_sha256
                   code_verifier
               with
               | Some msg => [(error, msg)]
               | None => []
               end
            ++ [(info, lit "code verifier: " ++ code_verifier);
                (info, lit "code challenge: " ++ code_challenge)]
       /\ secret_store (env w') = secret_store (env logged_out_world).
Proof.
  split; [exact example_engine_contract|].
  split; [exact reference_digest_contract|].
  exact (login_redirect_binds_challenge (lit "client")
           Sha256Reference.platform_sha256 Z LcgEngine.seed
           LcgEngine.distribution logged_out_world example_engine_contract
           reference_digest_contract).
Defined.

Lemma login_code_meets_stored_verifier_witness :
  uniform_int_contract LcgEngine.distribution
  /\ digest_contract Sha256Reference.platform_sha256
  /\ is_initialized (m_session (this logged_out_world)) = false
  /\ exists w1 code_challenge,
       do_login (lit "client") Sha256Reference.platform_sha256 Z
         LcgEngine.seed LcgEngine.distribution logged_out_world
       = Returns w1
       /\ generate_chalenge Sha256Reference.platform_sha256
            (m_code_verifier (this w1))
          = Returns code_challenge
       /\ queued_events (env w1)
          = queued_events (env logged_out_world)
            ++ [EVT_OPEN_PRUSAAUTH
                  (authorize_url (lit "client") code_challenge)]
       /\ m_session (this w1) = m_session (this logged_out_world)
       /\ m_thread_wakeup (this w1) = true
       /\ let w2 :=
            on_login_code_recieved (lit "prusaslicer://login?code=Ab12&x=1")
              w1 in
          m_session (this w2)
          = init_with_code
              (CodeFromMessage.get_code_from_message
                 (lit "prusaslicer://login?code=Ab12&x=1"))
              (m_code_verifier (this w1)) (m_session (this logged_out_world))
          /\ m_thread_wakeup (this w2) = true
          /\ m_code_verifier (this w2) = m_code_verifier (this w1)
          /\ env w2 = env w1.
Proof.
  split; [exact example_engine_contract|].
  split; [exact reference_digest_contract|].
  split; [reflexivity|].
  exact (login_code_meets_stored_verifier (lit "client")
           Sha256Reference.platform_sha256 Z LcgEngine.seed
           LcgEngine.distribution (lit "prusaslicer://login?code=Ab12&x=1")
           logged_out_world example_engine_contract
           reference_digest_contract eq_refl).
Defined.

(** The exchange that the session of the specification records after the
    redirect and the answer. *)
Example login_flow_example :
  match
    do_login (lit "client") Sha256Reference.platform_sha256 Z LcgEngine.seed
      LcgEngine.distribution logged_out_world
  with
  | Returns w1 =>
      code_exchange
        (m_session
           (this (on_login_code_recieved
                    (lit "prusaslicer://login?code=Ab12&x=1") w1)))
  | _ => None
  end
  = Some (lit "Ab12", lit "O5s7uDAhep0FOjqlGpcfsbWZuvUpob8jO3gL8LCl").
Proof. vm_compute. reflexivity. Qed.

End LoginMore.


(** ** The worker between wake-ups *)

Module WorkerMore.
Import Session Orchestrator Worker WorkerLog Quiet WorkerFacts.

Section WithSession.
Context {S : Type} `{UserAccountSession S}.

Lemma quiet_step_sleeping r ev :
  worker r = AtWait ->
  m_thread_stop (this (world r)) = false ->
  m_thread_wakeup (this (world r)) = false ->
  quiet ev = true ->
  worker (step r ev) = AtWait
  /\ observed (step r ev) = observed r
  /\ m_thread_stop (this (world (step r ev))) = false
  /\ m_thread_wakeup (this (world (step r ev))) = false
  /\ world (step r ev) = run_callers (callers_of [ev]) (world r).
Proof.
  intros Hat Hstop Hwake Hquiet.
  destruct ev as [| |[call| |active| |f]]; try discriminate; cbn [step].
  - unfold worker_step, wait_predicate. rewrite Hat, Hstop, Hwake.
    cbn. auto.
  - cbn. destruct (enqueue_block_flags call (world r)) as [-> ->]. auto.
  - cbn. auto.
  - cbn. auto.
Qed.

Lemma run_quiet schedule r :
  worker r = AtWait ->
  m_thread_stop (this (world r)) = false ->
  m_thread_wakeup (this (world r)) = false ->
  forallb quiet schedule = true ->
  worker (run schedule r) = AtWait
  /\ observed (run schedule r) = observed r
  /\ world (run schedule r) = run_callers (callers_of schedule) (world r).
Proof.
  revert r. induction schedule as [|ev schedule IH];
    intros r Hat Hstop Hwake Hquiet; [now cbn|].
  cbn [forallb] in Hquiet. apply andb_true_iff in Hquiet.
  destruct Hquiet as [Hev Hquiet].
  destruct (quiet_step_sleeping r ev Hat Hstop Hwake Hev)
    as (Hat' & Hobs' & Hstop' & Hwake' & Hworld').
  rewrite run_cons.
  destruct (IH (step r ev) Hat' Hstop' Hwake' Hquiet) as (-> & -> & ->).
  rewrite Hobs', Hworld'. repeat split.
  destruct ev as [| |c]; reflexivity.
Qed.

Lemma repeat_worker_steps_quiet k :
  forallb quiet (repeat (@WorkerStep S) k) = true.
Proof. induction k; cbn; auto. Qed.

Lemma callers_of_worker_steps k :
  callers_of (repeat (@WorkerStep S) k) = [].
Proof. induction k; cbn; auto. Qed.

(** A worker at the wait with the wake-up flag set and the stop flag
    clear drains the queue once and waits again. *)
Lemma woken_worker_drains_once m r :
  worker r = AtWait ->
  m_thread_stop (this (world r)) = false ->
  m_thread_wakeup (this (world r)) = true ->
  (6 <= m)%nat ->
  let r' := run (repeat WorkerStep m) r in
  worker r' = AtWait
  /\ drains (observed r') = Datatypes.S (drains (observed r))
  /\ world r'
     = on_session process_action_queue
         (on_this (set_m_thread_wakeup false) (world r)).
Proof.
  intros Hat Hstop Hwake Hm. cbn zeta.
  destruct r as [w loc obs]. cbn [worker world observed] in *. subst loc.
  destruct m as [|[|[|[|[|[|k]]]]]]; try lia. clear Hm.
  unfold run. cbn [repeat fold_left].
  destruct (m_window_is_active (this w)) eqn:Hactive;
    repeat (cbn [step worker_step worker world observed goto wait_predicate
                 on_this on_session this set_m_thread_wakeup set_m_session
                 m_thread_stop m_thread_wakeup m_window_is_active orb negb];
            unfold wait_predicate; rewrite ?Hstop, ?Hwake, ?Hactive);
    match goal with
    | |- context [fold_left step _ ?r0] =>
        destruct (run_quiet (repeat WorkerStep k) r0) as (Hw & Ho & Hwo);
          [reflexivity|exact Hstop|reflexivity
          |apply repeat_worker_steps_quiet|]
    end;
    unfold run in Hw, Ho, Hwo; rewrite Hw, Ho, Hwo;
    rewrite callers_of_worker_steps;
    cbn [observed world run_callers fold_left];
    rewrite <- ?app_assoc; cbn [app]; rewrite ?drains_app;
    repeat split; cbn; try reflexivity; rewrite !drains_app; cbn; lia.
Qed.

Lemma wakeups_as_one n (w : World S) :
  (1 <= n)%nat ->
  run_callers (repeat WakeupSessionThread n) w = wakeup_session_thread w.
Proof.
  intros Hn. destruct n as [|n]; [lia|]. clear Hn.
  unfold run_callers. cbn [repeat fold_left caller].
  induction n as [|n IH]; [reflexivity|].
  cbn [repeat fold_left caller]. exact IH.
Qed.

(** X20. Nothing but a wake-up, a stop request or a timeout of the wait
    gets the queue processed: a worker at the wait, with both flags clear,
    stays at the wait under every schedule of worker steps, enqueue
    blocks, window activations and other session calls;
    [process_action_queue] is not called, and the object changes by the
    callers alone. *)
Theorem worker_sleeps_without_wakeup schedule r :
  worker r = AtWait ->
  m_thread_stop (this (world r)) = false ->
  m_thread_wakeup (this (world r)) = false ->
  forallb quiet schedule = true ->
  worker (run schedule r) = AtWait
  /\ observed (run schedule r) = observed r
  /\ drains (observed (run schedule r)) = drains (observed r)
  /\ world (run schedule r) = run_callers (callers_of schedule) (world r).
Proof.
  intros Hat Hstop Hwake Hquiet.
  destruct (run_quiet schedule r Hat Hstop Hwake Hquiet) as (Hw & Ho & Hwo).
  rewrite Ho. auto.
Qed.

(** X21. Wake-up requests are not counted: however many calls of
    [wakeup_session_thread] reach a worker at the wait before it runs,
    the worker (stop flag clear, six steps or more) calls
    [process_action_queue] exactly once, clears the flag and waits
    again. *)
Theorem wakeups_coalesce n m r :
  worker r = AtWait ->
  m_thread_stop (this (world r)) = false ->
  (1 <= n)%nat ->
  (6 <= m)%nat ->
  let r' :=
    run (map Caller (repeat WakeupSessionThread n) ++ repeat WorkerStep m)
      r in
  worker r' = AtWait
  /\ drains (observed r') = Datatypes.S (drains (observed r))
  /\ m_thread_wakeup (this (world r')) = false
  /\ m_session (this (world r'))
     = process_action_queue (m_session (this (world r))).
Proof.
  intros Hat Hstop Hn Hm. cbn zeta. unfold run. rewrite fold_left_app.
  fold (run (map Caller (repeat WakeupSessionThread n)) r).
  destruct (run_callers_only (repeat WakeupSessionThread n) r)
    as (Hw & Ho & Hwo).
  rewrite wakeups_as_one in Hwo by exact Hn.
  set (r1 := run (map Caller (repeat WakeupSessionThread n)) r) in *.
  destruct (woken_worker_drains_once m r1) as (Hw' & Ho' & Hwo');
    [rewrite Hw; exact Hat|rewrite Hwo; exact Hstop|now rewrite Hwo
    |exact Hm|].
  unfold run in Hw', Ho', Hwo'. rewrite Hw', Ho', Hwo', Ho, Hwo.
  repeat split.
Qed.

(** X22. A tick of the polling timer that finds the worker at the wait
    with both flags clear: with the window active the worker drains the
    queue exactly once and waits again; with the window inactive
    [on_polling_timer] does nothing, and the worker does not move. *)
Theorem polling_tick_drains_when_active m r :
  worker r = AtWait ->
  m_thread_stop (this (world r)) = false ->
  m_thread_wakeup (this (world r)) = false ->
  (6 <= m)%nat ->
  let r' := run (repeat WorkerStep m) (after_call on_polling_timer r) in
  worker r' = AtWait
  /\ (m_window_is_active (this (world r)) = true ->
      drains (observed r') = Datatypes.S (drains (observed r))
      /\ m_session (this (world r'))
         = process_action_queue (m_session (this (world r))))
  /\ (m_window_is_active (this (world r)) = false ->
      observed r' = observed r /\ world r' = world r).
Proof.
  intros Hat Hstop Hwake Hm. cbn zeta. unfold after_call, on_polling_timer.
  destruct (m_window_is_active (this (world r))) eqn:Hactive; cbn [negb].
  - match goal with
    | |- context [run _ ?r0] =>
        destruct (woken_worker_drains_once m r0) as (Hw & Ho & Hwo);
          [exact Hat|exact Hstop|reflexivity|exact Hm|]
    end.
    cbn zeta in Hw, Ho, Hwo. rewrite Hw, Ho, Hwo.
    split; [reflexivity|]. split; [|discriminate].
    intros _. split; reflexivity.
  - match goal with
    | |- context [run _ ?r0] =>
        destruct (run_quiet (repeat WorkerStep m) r0) as (Hw & Ho & Hwo);
          [exact Hat|exact Hstop|exact Hwake
          |apply repeat_worker_steps_quiet|]
    end.
    rewrite Hw, Ho, Hwo, callers_of_worker_steps.
    split; [reflexivity|]. split; [discriminate|].
    intros _. split; reflexivity.
Qed.

End WithSession.
Import SessionModel MoreExamples.

Lemma worker_sleeps_without_wakeup_witness :
  let r := start (example_world true false) in
  worker r = AtWait
  /\ m_thread_stop (this (world r)) = false
  /\ m_thread_wakeup (this (world r)) = false
  /\ forallb quiet enqueue_without_wakeup = true
  /\ worker (run enqueue_without_wakeup r) = AtWait
  /\ observed (run enqueue_without_wakeup r) = observed r
  /\ drains (observed (run enqueue_without_wakeup r)) = drains (observed r)
  /\ world (run enqueue_without_wakeup r)
     = run_callers (callers_of enqueue_without_wakeup) (world r).
Proof.
  cbn zeta. do 4 (split; [reflexivity|]).
  exact (worker_sleeps_without_wakeup enqueue_without_wakeup
           (start (example_world true false))
           eq_refl eq_refl eq_refl eq_refl).
Defined.

(** The action enqueued without a wake-up is still pending. *)
Example enqueue_without_wakeup_pending :
  queue
    (m_session
       (this (world (run enqueue_without_wakeup
                       (start (example_world true false))))))
  = [WorkerExamples.refresh_action]
  /\ processed
       (m_session
          (this (world (run enqueue_without_wakeup
                          (start (example_world true false))))))
     = [].
Proof. split; vm_compute; reflexivity. Qed.

Lemma wakeups_coalesce_witness :
  let r := start (example_world true false) in
  let r' :=
    run (map Caller (repeat WakeupSessionThread 3) ++ repeat WorkerStep 12)
      r in
  worker r = AtWait
  /\ m_thread_stop (this (world r)) = false
  /\ (1 <= 3)%nat
  /\ (6 <= 12)%nat
  /\ worker r' = AtWait
  /\ drains (observed r') = Datatypes.S (drains (observed r))
  /\ m_thread_wakeup (this (world r')) = false
  /\ m_session (this (world r'))
     = process_action_queue (m_session (this (world r))).
Proof.
  cbn zeta. split; [reflexivity|]. split; [reflexivity|].
  split; [lia|]. split; [lia|].
  exact (wakeups_coalesce 3 12 (start (example_world true false))
           eq_refl eq_refl ltac:(lia) ltac:(lia)).
Defined.

Lemma polling_tick_drains_when_active_witness :
  let r := start (example_world true true) in
  let r' := run (repeat WorkerStep 6) (after_call on_polling_timer r) in
  worker r = AtWait
  /\ m_thread_stop (this (world r)) = false
  /\ m_thread_wakeup (this (world r)) = false
  /\ (6 <= 6)%nat
  /\ worker r' = AtWait
  /\ (m_window_is_active (this (world r)) = true ->
      drains (observed r') = Datatypes.S (drains (observed r))
      /\ m_session (this (world r'))
         = process_action_queue (m_session (this (world r))))
  /\ (m_window_is_active (this (world r)) = false ->
      observed r' = observed r /\ world r' = world r).
Proof.
  cbn zeta. do 3 (split; [reflexivity|]). split; [lia|].
  exact (polling_tick_drains_when_active 6 (start (example_world true true))
           eq_refl eq_refl eq_refl ltac:(lia)).
Defined.

End WorkerMore.


(** ** From the constructor to the destructor *)

Module LifecycleMore.
Import MachineInt StringUtil Session SecretStore Orchestrator.
Import CodeChalengeGenerator Worker WorkerLog WorkerFacts RefreshTimerFacts.

Section WithSession.
Context {S : Type} `{UserAccountSession S}.
Variable wxUSE_SECRETSTORE : bool.
Variable SLIC3R_APP_NAME : std_string.
Variable client_id : std_string.
Variable sha256 : std_string -> result std_string.
Variable mt19937 : Type.
Variable seed : Z -> mt19937.
Variable distribution : Z -> Z -> mt19937 -> Z * mt19937.
Variable defaults : MemberDefaults.

Lemma login_redirect_this (w w' : World S) :
  login_redirect client_id sha256 mt19937 seed distribution w = Returns w' ->
  exists code_verifier,
    this w' = set_m_code_verifier code_verifier (this w).
Proof.
  unfold login_redirect. destruct (draw_random_device (env w)) as [rd e].
  destruct (generate_verifier mt19937 seed distribution rd) as [v| |];
    cbn [bind]; [|discriminate..].
  destruct (generate_chalenge sha256 v) as [c| |]; cbn [bind];
    [|discriminate..].
  intros Hw'. injection Hw' as <-. exists v.
  destruct (generate_chalenge_error sha256 v); reflexivity.
Qed.

Lemma do_login_this (w w' : World S) :
  do_login client_id sha256 mt19937 seed distribution w = Returns w' ->
  exists code_verifier session,
    this w'
    = set_m_thread_wakeup true
        (set_m_code_verifier code_verifier (set_m_session session (this w))).
Proof.
  unfold do_login.
  destruct (negb (is_initialized (m_session (this w)))).
  - destruct (login_redirect _ _ _ _ _ w) as [w1| |] eqn:Hw1; cbn [bind];
      [|discriminate..].
    intros Hw'. injection Hw' as <-.
    destruct (login_redirect_this w w1 Hw1) as [v Hv].
    exists v, (m_session (this w)). cbn. rewrite Hv. reflexivity.
  - cbn [bind]. intros Hw'. injection Hw' as <-.
    exists (m_code_verifier (this w)),
      (enqueue_test_with_refresh (m_session (this w))).
    reflexivity.
Qed.

(** The members of a constructed object that [do_login] does not
    touch. *)
Lemma constructor_members connect_polling e (w : World S) :
  new_UserAccountCommunication wxUSE_SECRETSTORE SLIC3R_APP_NAME client_id
    sha256 mt19937 seed distribution defaults connect_polling e
  = Returns w ->
  m_thread_joinable (this w) = true
  /\ m_username (this w) = []
  /\ m_polling_timer (this w)
     = RefreshTimer.Start 10000 RefreshTimer.new_wxTimer
  /\ (m_token_timer (this w) = RefreshTimer.new_wxTimer
      \/ exists seconds,
           m_token_timer (this w)
           = RefreshTimer.set_refresh_time seconds RefreshTimer.new_wxTimer).
Proof.
  unfold new_UserAccountCommunication.
  destruct (recover_tokens wxUSE_SECRETSTORE SLIC3R_APP_NAME e)
    as [[[[access refresh] key] timeout] e'].
  destruct (if bool_decide (timeout = []) then Returns 0 else stoll timeout)
    as [next| |]; cbn [bind]; [|discriminate..].
  destruct (wrap_llong (next - clock e') <=? 0);
    (destruct (negb (bool_decide (refresh = [])));
     [intros Hw; apply do_login_this in Hw; destruct Hw as (v & s & ->)
     |intros Hw; injection Hw as <-]);
    cbn; repeat split; eauto.
Qed.

Lemma enqueue_block_joinable call (w : World S) :
  m_thread_joinable (this (snd (enqueue_block call w)))
  = m_thread_joinable (this w).
Proof.
  destruct call; cbn [enqueue_block];
    unfold enqueue_connect_printer_models_action_block,
      enqueue_connect_status_action_block, enqueue_test_connection_block,
      enqueue_avatar_action_block, enqueue_printer_data_action_block,
      enqueue_refresh_block, guarded_block;
    destruct (negb (is_initialized (m_session (this w)))); reflexivity.
Qed.

Lemma step_keeps_joinable r (ev : event S) :
  m_thread_joinable (this (world (step r ev)))
  = m_thread_joinable (this (world r)).
Proof.
  destruct ev as [| |[call| |active| |f]]; cbn [step caller world].
  - unfold worker_step.
    destruct (worker r);
      repeat match goal with
             | |- context [if ?b then _ else _] => destruct b
             end; reflexivity.
  - unfold worker_step.
    destruct (worker r);
      repeat match goal with
             | |- context [if ?b then _ else _] => destruct b
             end; reflexivity.
  - apply enqueue_block_joinable.
  - reflexivity.
  - reflexivity.
  - unfold request_stop. cbn.
    destruct (m_thread_joinable (this (world r))) eqn:Hj; cbn; exact Hj.
  - reflexivity.
Qed.

Lemma run_keeps_joinable schedule (r : Running S) :
  m_thread_joinable (this (world (run schedule r)))
  = m_thread_joinable (this (world r)).
Proof.
  revert r. induction schedule as [|ev schedule IH]; intros r;
    [reflexivity|].
  rewrite run_cons, IH. apply step_keeps_joinable.
Qed.

(** X23. The destructor gets rid of the worker of every constructed
    object: whatever happened since the constructor returned, the
    destructor finds the thread joinable, so it sets the stop flag, with
    both timers stopped; from then on the worker calls
    [process_action_queue] at most once more and has left its loop after
    six steps at most, so that [join] returns. *)
Theorem destructor_joins_constructed_worker connect_polling e (w : World S)
    before after :
  new_UserAccountCommunication wxUSE_SECRETSTORE SLIC3R_APP_NAME client_id
    sha256 mt19937 seed distribution defaults connect_polling e
  = Returns w ->
  (6 <= worker_steps after)%nat ->
  let stopping := run (before ++ [Caller RequestStop]) (start w) in
  m_thread_stop (this (world stopping)) = true
  /\ RefreshTimer.timer_running (m_token_timer (this (world stopping)))
     = false
  /\ RefreshTimer.timer_running (m_polling_timer (this (world stopping)))
     = false
  /\ worker (run after stopping) = Exited
  /\ (drains (observed (run after stopping))
      <= Datatypes.S (drains (observed stopping)))%nat.
Proof.
  intros Hnew Hsteps. cbn zeta.
  destruct (constructor_members connect_polling e w Hnew) as (Hj & _).
  set (r := run before (start w)).
  assert (Hjr : m_thread_joinable (this (world r)) = true).
  { unfold r. rewrite run_keeps_joinable. exact Hj. }
  set (stopping := {| world := caller RequestStop (world r);
                      worker := worker r; observed := observed r |}).
  assert (Heq : run (before ++ [Caller RequestStop]) (start w) = stopping).
  { unfold run. rewrite fold_left_app. reflexivity. }
  rewrite Heq.
  assert (Hstop : m_thread_stop (this (world stopping)) = true).
  { cbn. unfold request_stop. cbn. rewrite Hjr. reflexivity. }
  split; [exact Hstop|].
  split; [cbn; unfold request_stop; cbn; rewrite Hjr; reflexivity|].
  split; [cbn; unfold request_stop; cbn; rewrite Hjr; reflexivity|].
  split.
  - apply stopped_worker_exits; [exact Hstop|].
    destruct (worker stopping); cbn; lia.
  - pose proof (at_most_one_drain_after_stop after stopping Hstop) as Hd.
    destruct (before_stop_check (worker stopping)); lia.
Qed.

(** X24. Whatever the secret store held, an object whose constructor
    returned is not logged in ([is_logged] is false until [set_username]
    is called), its thread is joinable, its polling timer runs every
    10000 ms, and its refresh timer is either idle or a one-shot timer of
    at least 60000 ms. *)
Theorem constructed_object_is_logged_out connect_polling e (w : World S) :
  new_UserAccountCommunication wxUSE_SECRETSTORE SLIC3R_APP_NAME client_id
    sha256 mt19937 seed distribution defaults connect_polling e
  = Returns w ->
  is_logged w = false
  /\ m_thread_joinable (this w) = true
  /\ m_polling_timer (this w)
     = RefreshTimer.Start 10000 RefreshTimer.new_wxTimer
  /\ (RefreshTimer.timer_running (m_token_timer (this w)) = true ->
      RefreshTimer.timer_one_shot (m_token_timer (this w)) = true
      /\ 60000 <= RefreshTimer.timer_interval (m_token_timer (this w))
         <= INT_MAX).
Proof.
  intros Hnew.
  destruct (constructor_members connect_polling e w Hnew)
    as (Hj & Hu & Hp & Ht).
  unfold is_logged. rewrite Hu.
  split; [reflexivity|]. split; [exact Hj|]. split; [exact Hp|].
  destruct Ht as [->|[seconds ->]]; [discriminate|]. intros _.
  split; [reflexivity|]. cbn. split; [apply refresh_delay_floor|].
  pose proof (refresh_delay_in_int seconds) as Hin.
  unfold in_int in Hin. lia.
Qed.

End WithSession.
Import SessionModel MoreExamples Persisted.

Lemma destructor_joins_constructed_worker_witness :
  exists w,
    example_construct (lit "AT|RT|1700003600") = Returns w
    /\ (6 <= worker_steps six_steps)%nat
    /\ let stopping :=
         run (woken_before_stop ++ [Caller RequestStop]) (start w) in
       m_thread_stop (this (world stopping)) = true
       /\ RefreshTimer.timer_running (m_token_timer (this (world stopping)))
          = false
       /\ RefreshTimer.timer_running (m_polling_timer (this (world stopping)))
          = false
       /\ worker (run six_steps stopping) = Exited
       /\ (drains (observed (run six_steps stopping))
           <= Datatypes.S (drains (observed stopping)))%nat.
Proof.
  destruct (example_construct (lit "AT|RT|1700003600")) as [w| |] eqn:Hnew;
    [|vm_compute in Hnew; discriminate..].
  exists w. split; [reflexivity|].
  assert (Hsteps : (6 <= worker_steps six_steps)%nat) by (cbn; lia).
  split; [exact Hsteps|].
  exact (destructor_joins_constructed_worker true (lit "PrusaSlicer")
           (lit "client") Sha256Reference.platform_sha256 Z LcgEngine.seed
           LcgEngine.distribution example_defaults true
           (env_with_tokens (lit "AT|RT|1700003600")) w woken_before_stop
           six_steps Hnew Hsteps).
Defined.

Lemma constructed_object_is_logged_out_witness :
  exists w,
    example_construct (lit "AT|RT|1700003600") = Returns w
    /\ is_logged w = false
    /\ m_thread_joinable (this w) = true
    /\ m_polling_timer (this w)
       = RefreshTimer.Start 10000 RefreshTimer.new_wxTimer
    /\ (RefreshTimer.timer_running (m_token_timer (this w)) = true ->
        RefreshTimer.timer_one_shot (m_token_timer (this w)) = true
        /\ 60000 <= RefreshTimer.timer_interval (m_token_timer (this w))
           <= INT_MAX).
Proof.
  destruct (example_construct (lit "AT|RT|1700003600")) as [w| |] eqn:Hnew;
    [|vm_compute in Hnew; discriminate..].
  exists w. split; [reflexivity|].
  exact (constructed_object_is_logged_out true (lit "PrusaSlicer")
           (lit "client") Sha256Reference.platform_sha256 Z LcgEngine.seed
           LcgEngine.distribution example_defaults true
           (env_with_tokens (lit "AT|RT|1700003600")) w Hnew).
Defined.

End LifecycleMore.


